(** * Analysis of review logs: a shallow embedding of [asreview/analysis/analysis.py]

    The development follows the Python class [Analysis] method by method:
    the data model and [__init__], the helpers the class imports (as
    parameters, with instances to run examples), the methods, the vocabulary
    of the statements, and then the lemmas and the theorems C1 to C10, first
    for arbitrary helpers and at the end on concrete runs.

    Numbers.  Python integers are [Z] (or [nat] where they are lengths and
    indices).  numpy/Python floating point values are idealised as exact
    rationals [Q], extended with the IEEE special values that numpy produces
    when an array is divided by zero ([npfloat]); rounding is not modelled.
    Every rational produced by the model is kept in lowest terms ([Qred]) so
    that concrete results can be compared with [=].

    Exceptions are explicit ([result]); the methods that touch the cache
    return the new object state as well, also when they raise. *)

From Stdlib Require Import String ZArith QArith Qabs Qreduction List Bool Lia
  Arith.
Import ListNotations.
Open Scope Z_scope.

Set Implicit Arguments.

(** ** Exceptions and results *)

Inductive exn : Type :=
| AttributeError
| KeyError
| TypeError
| IndexError
| ZeroDivisionError
| UnboundLocalError
| OverflowError
| OutOfFuel. (* model artefact of the [itertools.count] loop; never produced,
                see [agg_loop_fuel] *)

Inductive result (A : Type) : Type :=
| Ok (a : A)
| Raise (e : exn).
Arguments Ok {A} a.
Arguments Raise {A} e.

Definition bind {A B} (m : result A) (f : A -> result B) : result B :=
  match m with
  | Ok a => f a
  | Raise e => Raise e
  end.

Notation "x <- m ;; k" := (bind m (fun x => k))
  (at level 61, m at next level, right associativity).
Notation "' p <- m ;; k" := (bind m (fun p => k))
  (at level 61, p pattern, m at next level, right associativity).

(** ** Numbers *)

Module Num.

(** A numpy float64 without rounding: a rational or one of the special
    values.  Signed zeros are not distinguished: every divisor the code
    uses is a count divided by a positive constant. *)
Inductive npfloat : Type :=
| Fin (q : Q)
| PInf
| NInf
| NaN.

Definition qz (z : Z) : Q := inject_Z z.
Definition qn (n : nat) : Q := inject_Z (Z.of_nat n).

Definition is_zero (q : Q) : bool := Qeq_bool q 0.
Definition is_pos (q : Q) : bool := negb (Qle_bool q 0).

(** Python scalar true division [a / b]. *)
Definition py_div (a b : Q) : result Q :=
  if is_zero b then Raise ZeroDivisionError else Ok (Qred (a / b)).

(** numpy division [a / b]: division by zero gives inf or nan (with a
    warning), it does not raise. *)
Definition np_div (a b : npfloat) : npfloat :=
  match a, b with
  | NaN, _ | _, NaN => NaN
  | Fin x, Fin y =>
      if is_zero y then
        if is_zero x then NaN else if is_pos x then PInf else NInf
      else Fin (Qred (x / y))
  | Fin _, (PInf | NInf) => Fin 0
  | (PInf | NInf), (PInf | NInf) => NaN
  | PInf, Fin y => if Qle_bool 0 y then PInf else NInf
  | NInf, Fin y => if Qle_bool 0 y then NInf else PInf
  end.

Definition np_sub (a b : npfloat) : npfloat :=
  match a, b with
  | NaN, _ | _, NaN => NaN
  | Fin x, Fin y => Fin (Qred (x - y))
  | PInf, PInf | NInf, NInf => NaN
  | PInf, _ => PInf
  | NInf, _ => NInf
  | Fin _, PInf => NInf
  | Fin _, NInf => PInf
  end.

Definition np_mul (a b : npfloat) : npfloat :=
  match a, b with
  | NaN, _ | _, NaN => NaN
  | Fin x, Fin y => Fin (Qred (x * y))
  | PInf, PInf | NInf, NInf => PInf
  | PInf, NInf | NInf, PInf => NInf
  | PInf, Fin y | Fin y, PInf =>
      if is_zero y then NaN else if is_pos y then PInf else NInf
  | NInf, Fin y | Fin y, NInf =>
      if is_zero y then NaN else if is_pos y then NInf else PInf
  end.

(** [a >= b]; every comparison with nan is false. *)
Definition np_ge (a b : npfloat) : bool :=
  match a, b with
  | NaN, _ | _, NaN => false
  | Fin x, Fin y => Qle_bool y x
  | PInf, _ => true
  | _, NInf => true
  | Fin _, PInf => false
  | NInf, _ => false
  end.

(** The same value (nan being the same as nan), for comparing results. *)
Definition np_same (a b : npfloat) : bool :=
  match a, b with
  | Fin x, Fin y => Qeq_bool x y
  | PInf, PInf | NInf, NInf | NaN, NaN => true
  | _, _ => false
  end.

Fixpoint all_same (l1 l2 : list npfloat) : bool :=
  match l1, l2 with
  | [], [] => true
  | a :: l1', b :: l2' => np_same a b && all_same l1' l2'
  | _, _ => false
  end.

(** Equal up to a tolerance, for comparing results. *)
Definition np_close (tol : Q) (a b : npfloat) : bool :=
  match a, b with
  | Fin x, Fin y => Qle_bool (Qabs (x - y)) tol
  | _, _ => np_same a b
  end.

Fixpoint all_close (tol : Q) (l1 l2 : list npfloat) : bool :=
  match l1, l2 with
  | [], [] => true
  | a :: l1', b :: l2' => np_close tol a b && all_close tol l1' l2'
  | _, _ => false
  end.

Definition zsum (l : list Z) : Z := fold_right Z.add 0 l.
Definition qsum (l : list Q) : Q := fold_right Qplus 0%Q l.

(** [np.mean] of a non-empty list of integers. *)
Definition np_mean (l : list Z) : Q :=
  Qred (qz (zsum l) / qn (length l)).

(** [np.average] of a list of integers (non-empty where it is called). *)
Definition np_average (l : list nat) : Q :=
  Qred (qz (zsum (map Z.of_nat l)) / qn (length l)).

Section Sem.
(** The square root of the mathematics library. *)
Variable sqrt : Q -> Q.

(** Sample variance, [np.var(a, ddof=1)]. *)
Definition var_ddof1 (l : list Z) : Q :=
  let m := np_mean l in
  Qred (qsum (map (fun v => (qz v - m) * (qz v - m))%Q l)
        / (qn (length l) - 1)).

(** [scipy.stats.sem]: [np.std(a, ddof=1) / np.sqrt(n)]. *)
Definition stats_sem (l : list Z) : Q :=
  Qred (sqrt (var_ddof1 l) / sqrt (qn (length l))).
End Sem.

(** A square root that is exact on squares of rationals, to run examples. *)
Definition sqrt_floor (q : Q) : Q :=
  Qred (Qmake (Z.sqrt (Qnum q)) (Z.to_pos (Z.sqrt (Zpos (Qden q))))).

End Num.
Import Num.

(** ** Python lists and dictionaries *)

(** [l[i]] for a non-negative [i]. *)
Definition getitem {A} (l : list A) (i : nat) : result A :=
  match nth_error l i with
  | Some a => Ok a
  | None => Raise IndexError
  end.

(** A dictionary in insertion order; the keys are distinct. *)
Section Dict.
Variables K V : Type.
Variable eqb : K -> K -> bool.

Definition dict : Type := list (K * V).

Fixpoint dict_find (d : dict) (k : K) : option V :=
  match d with
  | [] => None
  | (k', v) :: d' => if eqb k k' then Some v else dict_find d' k
  end.

Definition dict_get (d : dict) (k : K) : result V :=
  match dict_find d k with
  | Some v => Ok v
  | None => Raise KeyError
  end.

(** [d[k] = f(d[k])] for a key that is present. *)
Fixpoint dict_update (d : dict) (k : K) (f : V -> V) : dict :=
  match d with
  | [] => []
  | (k', v) :: d' =>
      if eqb k k' then (k', f v) :: d' else (k', v) :: dict_update d' k f
  end.

Definition values (d : dict) : list V := map snd d.
Definition keys (d : dict) : list K := map fst d.
End Dict.

(** ** Run logs *)

(** Keys of the run collection: positions for a list of loggers, file names
    for the loggers of a directory. *)
Inductive run_key : Type :=
| KInt (i : nat)
| KStr (s : string).

Definition run_key_eqb (a b : run_key) : bool :=
  match a, b with
  | KInt i, KInt j => Nat.eqb i j
  | KStr s, KStr t => String.eqb s t
  | _, _ => false
  end.

(** What a logger gives access to.  [lg_labels] and [lg_final_labels] are the
    series ['labels'] and ['final_labels'] ([None]: the series is absent and
    [get] raises [KeyError]).  [lg_train_idx q] is [get("train_idx", q)]:
    [None] when it raises [KeyError], [Some None] when the stored value is
    [None].  The remaining fields are the recorded history the statistics
    helpers read: the order in which items were labelled, the number of
    prior-knowledge items, and the ranking of the last model. *)
Record logger : Type := {
  lg_labels : option (list Z);
  lg_final_labels : option (list Z);
  lg_n_queries : nat;
  lg_train_idx : nat -> option (option (list nat));
  lg_label_order : list nat;
  lg_n_initial : nat;
  lg_proba_order : list nat
}.

Definition logger_get (series : option (list Z)) : result (list Z) :=
  match series with
  | Some l => Ok l
  | None => Raise KeyError
  end.

(** ** The Analysis object *)

(** One entry of [self.inc_found]. *)
Record inc_entry : Type := {
  avg : list Q;
  err : list Q;
  inc_after_init : Z;
  n_initial : Z
}.

(** [self.inc_found], a dictionary with the keys [False] and [True].  For each
    key: [None] when the key is absent, [Some None] when it holds the empty
    dictionary that [inclusions_found] stores before the computation, and
    [Some (Some e)] when it is filled. *)
Record cache : Type := {
  at_false : option (option inc_entry);
  at_true : option (option inc_entry)
}.

Definition cache_empty : cache := {| at_false := None; at_true := None |}.

Definition cache_get (c : cache) (fl : bool) : option (option inc_entry) :=
  if fl then at_true c else at_false c.

Definition cache_set (c : cache) (fl : bool) (v : option inc_entry) : cache :=
  if fl then {| at_false := at_false c; at_true := Some v |}
  else {| at_false := Some v; at_true := at_true c |}.

(** The attributes of an [Analysis] object; [self_first_file] and
    [self_inc_found] are [None] while the attribute does not exist. *)
Record Analysis : Type := {
  self_final_labels : option (list Z);
  self_labels : option (list Z);
  self_empty : bool;
  self_key : option string;
  self_loggers : dict run_key logger;
  self_num_runs : nat;
  self_first_file : option run_key;
  self_inc_found : option cache
}.

Definition set_inc_found (self : Analysis) (c : cache) : Analysis :=
  {| self_final_labels := self_final_labels self;
     self_labels := self_labels self;
     self_empty := self_empty self;
     self_key := self_key self;
     self_loggers := self_loggers self;
     self_num_runs := self_num_runs self;
     self_first_file := self_first_file self;
     self_inc_found := Some c |}.

Definition getattr {A} (a : option A) : result A :=
  match a with
  | Some v => Ok v
  | None => Raise AttributeError
  end.

Inductive loggers_arg : Type :=
| LoggerList (l : list logger)
| LoggerDict (d : dict run_key logger).

(** [{i: logger for i, logger in enumerate(loggers)}] *)
Definition enumerate (l : list logger) : dict run_key logger :=
  combine (map KInt (seq 0 (length l))) l.

Definition __init__ (loggers : loggers_arg) (key : option string)
  : result Analysis :=
  let loggers :=
    match loggers with
    | LoggerList l => enumerate l
    | LoggerDict d => d
    end in
  let num_runs := length loggers in
  if Nat.eqb num_runs 0 then
    Ok {| self_final_labels := None; self_labels := None; self_empty := true;
          self_key := key; self_loggers := loggers; self_num_runs := num_runs;
          self_first_file := None; self_inc_found := None |}
  else
    first_file <- getitem (keys loggers) 0 ;;
    lg <- dict_get run_key_eqb loggers first_file ;;
    labels <- logger_get (lg_labels lg) ;;
    lg' <- dict_get run_key_eqb loggers first_file ;;
    let final_labels := lg_final_labels lg' in
    Ok {| self_final_labels := final_labels; self_labels := Some labels;
          self_empty := false;
          self_key := key; self_loggers := loggers; self_num_runs := num_runs;
          self_first_file := Some first_file;
          self_inc_found := Some cache_empty |}.

(** ** The statistics helpers, for running examples *)

Module Helpers.

(** Modelled from the spec: the inclusion curve of a run, missing with
    [asreview.analysis.statistics]: the number of relevant items among the
    first [i+1] entries of the label order, for every [i]. *)
Fixpoint running_count (labels : list Z) (order : list nat) (found : Z)
  : list Z :=
  match order with
  | [] => []
  | idx :: rest =>
      let found' := found + (if Z.eqb (nth idx labels 0) 1 then 1 else 0) in
      found' :: running_count labels rest found'
  end.

(** Modelled from the spec: [_find_inclusions] of
    [asreview.analysis.statistics], whose source is not available (the
    Inclusion Tracker of the specification).  It returns the inclusion
    curve, [inc_after_init = inclusions[last] - inclusions[n_initial - 1]]
    (the subtrahend being 0 when [n_initial] is 0) and [n_initial], the
    length of the seed phase. *)
Definition find_inclusions (lg : logger) (labels : list Z) : list Z * Z * Z :=
  let inclusions := running_count labels (lg_label_order lg) 0 in
  let n := lg_n_initial lg in
  let seed := match n with O => 0 | S k => nth k inclusions 0 end in
  (inclusions, last inclusions 0 - seed, Z.of_nat n).

(** Modelled from the spec: [_get_labeled_order] and [_get_last_proba_order]
    of [asreview.analysis.statistics], whose source is not available: the
    label order of the run with the size of its seed phase, and the ranking
    of the items that were not labelled when training ended. *)
Definition get_labeled_order (lg : logger) : list nat * nat :=
  (lg_label_order lg, lg_n_initial lg).

(** Modelled from the spec: [_get_last_proba_order], missing with the same
    module: the ranking of the last model. *)
Definition get_last_proba_order (lg : logger) : list nat :=
  lg_proba_order lg.

(** A stand-in for the stopping-limit statistic, to run examples: no result
    at query 0, and afterwards one read count per probability. *)
Definition sample_limits (loggers : dict run_key logger) (query_i : nat)
  (labels : option (list Z)) (probs : list Q) : option (list Z) :=
  match query_i with
  | O => None
  | S _ => Some (map (fun _ => Z.of_nat (query_i + length loggers)) probs)
  end.

End Helpers.

Module Scenario.

Definition labels8 : list Z := [0; 1; 0; 1; 1; 0; 0; 1].

Definition run8 : logger :=
  {| lg_labels := Some labels8;
     lg_final_labels := None;
     lg_n_queries := 0;
     lg_train_idx := fun _ => None;
     lg_label_order := [0; 2; 1; 3; 4; 5; 6; 7]%nat;
     lg_n_initial := 2;
     lg_proba_order := [] |}.

(** The analysis object that [__init__] builds from [[run8]]. *)
Definition self8 : Analysis :=
  {| self_final_labels := None;
     self_labels := Some labels8;
     self_empty := false;
     self_key := None;
     self_loggers := [(KInt 0, run8)];
     self_num_runs := 1;
     self_first_file := Some (KInt 0);
     self_inc_found := Some cache_empty |}.

Definition plain_run (order : list nat) (n : nat) : logger :=
  {| lg_labels := None;
     lg_final_labels := None;
     lg_n_queries := 0;
     lg_train_idx := fun _ => None;
     lg_label_order := order;
     lg_n_initial := n;
     lg_proba_order := [] |}.

Definition with_labels (labels : list Z) (lg : logger) : logger :=
  {| lg_labels := Some labels;
     lg_final_labels := lg_final_labels lg;
     lg_n_queries := lg_n_queries lg;
     lg_train_idx := lg_train_idx lg;
     lg_label_order := lg_label_order lg;
     lg_n_initial := lg_n_initial lg;
     lg_proba_order := lg_proba_order lg |}.

(** The analysis object that [__init__] builds from a list of two runs, the
    first of which holds [labels]. *)
Definition self_of_two (labels : list Z) (r0 r1 : logger) : Analysis :=
  {| self_final_labels := lg_final_labels r0;
     self_labels := Some labels;
     self_empty := false;
     self_key := None;
     self_loggers := [(KInt 0, with_labels labels r0); (KInt 1, r1)];
     self_num_runs := 2;
     self_first_file := Some (KInt 0);
     self_inc_found := Some cache_empty |}.

Definition self_of_one (labels : list Z) (r0 : logger) : Analysis :=
  {| self_final_labels := lg_final_labels r0;
     self_labels := Some labels;
     self_empty := false;
     self_key := None;
     self_loggers := [(KInt 0, with_labels labels r0)];
     self_num_runs := 1;
     self_first_file := Some (KInt 0);
     self_inc_found := Some cache_empty |}.

(** Two relevant items among four. *)
Definition labels4 : list Z := [1; 0; 0; 1].

(** Two relevant items among five; item 0 is the seed of the runs below. *)
Definition labels5 : list Z := [0; 1; 0; 0; 1].

(** Two runs of different lengths: one stopped after finding a relevant item
    at once, the other went on. *)
Definition run_short : logger := plain_run [0; 1]%nat 1.
Definition run_long : logger := plain_run [0; 2; 3; 4; 1]%nat 1.
Definition self_ragged : Analysis := self_of_two labels5 run_short run_long.

(** Two runs of the same length. *)
Definition run_a : logger := plain_run [0; 1; 2; 3; 4]%nat 1.
Definition run_b : logger := plain_run [0; 2; 3; 4; 1]%nat 1.
Definition self_pair : Analysis := self_of_two labels5 run_a run_b.

(** A run whose only relevant item was in the seed. *)
Definition labels_seed : list Z := [1; 0].
Definition run_seed : logger := plain_run [0; 1]%nat 1.
Definition self_seed : Analysis := self_of_one labels_seed run_seed.

(** Two runs with a seed of two items and a last ranking of the rest. *)
Definition ranked_run (order : list nat) (n : nat) (ranking : list nat)
  : logger :=
  {| lg_labels := None;
     lg_final_labels := None;
     lg_n_queries := 0;
     lg_train_idx := fun _ => None;
     lg_label_order := order;
     lg_n_initial := n;
     lg_proba_order := ranking |}.

Definition run_p1 : logger := ranked_run [0; 1]%nat 2 [3; 2]%nat.
Definition run_p2 : logger := ranked_run [0; 2]%nat 2 [1; 3]%nat.
Definition self_ranked : Analysis := self_of_two labels4 run_p1 run_p2.

(** A run of four queries: snapshots of 2 and 3 items at the queries 0 and
    3, no snapshot at query 1, a stored [None] at query 2. *)
Definition run_q : logger :=
  {| lg_labels := None;
     lg_final_labels := None;
     lg_n_queries := 4;
     lg_train_idx :=
       fun q =>
         match q with
         | 0%nat => Some (Some [0; 1]%nat)
         | 2%nat => Some None
         | 3%nat => Some (Some [0; 1; 2]%nat)
         | _ => None
         end;
     lg_label_order := [];
     lg_n_initial := 0;
     lg_proba_order := [] |}.
Definition self_q : Analysis := self_of_one labels4 run_q.

(** A run with final labels. *)
Definition run_f : logger :=
  {| lg_labels := None;
     lg_final_labels := Some [1; 1; 0; 1];
     lg_n_queries := 0;
     lg_train_idx := fun _ => None;
     lg_label_order := [0; 1; 2; 3]%nat;
     lg_n_initial := 1;
     lg_proba_order := [] |}.
Definition self_f : Analysis := self_of_one labels4 run_f.

(** [self_f] after both cache entries have been filled. *)
Definition both_entries : cache :=
  {| at_false :=
       Some (Some {| avg := [1; 1; 1; 2]%Q; err := [0; 0; 0; 0]%Q;
                     inc_after_init := 1; n_initial := 1 |});
     at_true :=
       Some (Some {| avg := [1; 2; 2; 3]%Q; err := [0; 0; 0; 0]%Q;
                     inc_after_init := 2; n_initial := 1 |}) |}.
Definition self_f_filled : Analysis := set_inc_found self_f both_entries.

(** Two runs over [labels4]: the first has labelled the relevant item 3
    twice and has no seed; the second has a seed of two items and ranks
    item 3 first. *)
Definition run_dup0 : logger := plain_run [3; 3]%nat 0.
Definition run_dup1 : logger := ranked_run [0; 1]%nat 2 [3; 2]%nat.
Definition self_dup : Analysis := self_of_two labels4 run_dup0 run_dup1.

End Scenario.

(** Further runs, for the properties of the methods beyond the claims. *)
Module Cases.

Import Scenario.

(** A run that has labelled index 7, which [labels4] does not have. *)
Definition run_out : logger := plain_run [0; 7]%nat 1.
Definition self_out : Analysis := self_of_one labels4 run_out.

(** A run that has labelled the relevant item 3 twice. *)
Definition run_twice : logger := plain_run [0; 3; 3]%nat 1.
Definition self_twice : Analysis := self_of_one labels4 run_twice.

(** Two runs with seeds of different sizes; the second one is visited
    last. *)
Definition run_late : logger := plain_run [0; 2; 3; 4; 1]%nat 2.
Definition self_mixed : Analysis := self_of_two labels5 run_short run_late.

(** A limit delegate that returns a single value, whatever the number of
    probabilities is. *)
Definition one_limit (loggers : dict run_key logger) (query_i : nat)
  (labels : option (list Z)) (probs : list Q) : option (list Z) :=
  Some [Z.of_nat query_i].

(** A limit delegate whose values do not fit a 64-bit integer. *)
Definition big_limit (loggers : dict run_key logger) (query_i : nat)
  (labels : option (list Z)) (probs : list Q) : option (list Z) :=
  Some (map (fun _ => 2 ^ 63) probs).

(** A directory with one run, and an empty one. *)
Definition load_one (data_dir : string) : loggers_arg :=
  LoggerDict [(KStr "run_0.h5", with_labels labels4 run_p1)].
Definition load_none (data_dir : string) : loggers_arg := LoggerDict [].

End Cases.

(** ** The methods *)

Section Methods.

(** The helpers that [analysis.py] imports from [asreview.analysis.statistics]
    and the square root behind [scipy.stats.sem].  The module of the helpers
    is not available, so the methods are parametrised by them; the counts
    they return are Python integers. *)
Variable _find_inclusions : logger -> list Z -> list Z * Z * Z.
Variable _get_labeled_order : logger -> list nat * nat.
Variable _get_last_proba_order : logger -> list nat.
Variable _get_limits :
  dict run_key logger -> nat -> option (list Z) -> list Q -> option (list Z).
Variable sqrt : Q -> Q.

(** *** [_get_inc_found] *)

(** The values [inclusions_found[i_file][i_instance]] for [i_file] in
    [range(num_runs)], skipping every [IndexError]. *)
Definition cur_vals_at (num_runs : nat) (inclusions_found : list (list Z))
  (i_instance : nat) : list Z :=
  flat_map
    (fun i_file =>
       match nth_error inclusions_found i_file with
       | Some incl =>
           match nth_error incl i_instance with
           | Some v => [v]
           | None => []
           end
       | None => []
       end)
    (seq 0 num_runs).

(** The body of [for i_instance in itertools.count()]: the pair of lists that
    the iterations from [i_instance] on append.  [None] when the fuel runs
    out before the loop breaks. *)
Fixpoint agg_loop (fuel : nat) (num_runs : nat)
  (inclusions_found : list (list Z)) (i_instance : nat)
  : option (list Q * list Q) :=
  match fuel with
  | O => None
  | S fuel' =>
      let cur_vals := cur_vals_at num_runs inclusions_found i_instance in
      if Nat.eqb (length cur_vals) 0 then Some ([], [])
      else
        let err :=
          if Nat.eqb (length cur_vals) 1 then qz (hd 0 cur_vals)
          else stats_sem sqrt cur_vals in
        let avg := np_mean cur_vals in
        match agg_loop fuel' num_runs inclusions_found (S i_instance) with
        | Some (inc_found_avg, inc_found_err) =>
            Some (avg :: inc_found_avg, err :: inc_found_err)
        | None => None
        end
  end.

Definition max_len (ls : list (list Z)) : nat :=
  fold_right (fun l m => Nat.max (length l) m) 0%nat ls.

(** [np.zeros(n)] *)
Definition np_zeros (n : nat) : list Q := repeat 0%Q n.

(** The first loop of [_get_inc_found]: the inclusions of every run, and the
    [inc_after_init] and [n_initial] of the run visited last. *)
Definition collect_inclusions (loggers : list logger) (labels : list Z)
  : list (list Z) * option (Z * Z) :=
  fold_left
    (fun acc lg =>
       let '(inclusions, inc_after_init, n_initial) :=
         _find_inclusions lg labels in
       (fst acc ++ [inclusions], Some (inc_after_init, n_initial)))
    loggers ([], None).

(** [labels] is [None] when final labels are asked for and the first logger
    has none: the inclusion tracker cannot index [None] and the call raises
    [TypeError]. *)
Definition _get_inc_found (self : Analysis) (labels : option (list Z))
  : result (list Q * list Q * Z * Z) :=
  match labels with
  | None => Raise TypeError
  | Some labels =>
      let '(inclusions_found, last) :=
        collect_inclusions (values (self_loggers self)) labels in
      match agg_loop (S (max_len inclusions_found)) (self_num_runs self)
              inclusions_found 0 with
      | None => Raise OutOfFuel
      | Some (inc_found_avg, inc_found_err) =>
          let inc_found_err :=
            if Nat.eqb (self_num_runs self) 1
            then np_zeros (length inc_found_err) else inc_found_err in
          match last with
          | None => Raise UnboundLocalError
          | Some (inc_after_init, n_initial) =>
              Ok (inc_found_avg, inc_found_err, inc_after_init, n_initial)
          end
      end
  end.

(** *** [inclusions_found] *)

(** [self.inc_found[fl][field]] *)
Definition entry_get (c : cache) (fl : bool) : result inc_entry :=
  match cache_get c fl with
  | Some (Some e) => Ok e
  | _ => Raise KeyError
  end.

Definition py_len (labels : option (list Z)) : result Z :=
  match labels with
  | Some l => Ok (Z.of_nat (length l))
  | None => Raise TypeError
  end.

(** Lines 112 to 128 of [inclusions_found]: the norms for the requested
    format and the three normalised arrays.  The norms are Python scalars
    (a division of a norm by zero raises), the arrays are numpy arrays (a
    division of an array by a zero norm gives inf and nan).  The offsets
    [dx] and [dy] are 0 in the source and are left out. *)
Definition scale (result_format : string) (len_labels : Z) (e : inc_entry)
  : result (list npfloat * list npfloat * list npfloat) :=
  let x_norm := qz (len_labels - n_initial e) in
  let y_norm := qz (inc_after_init e) in
  '(x_norm, y_norm) <-
    (if String.eqb result_format "percentage" then
       x_norm <- py_div x_norm 100 ;;
       y_norm <- py_div y_norm 100 ;;
       Ok (x_norm, y_norm)
     else if String.eqb result_format "number" then
       x_norm <- py_div x_norm (qz len_labels) ;;
       y_norm <- py_div y_norm (qz (inc_after_init e)) ;;
       Ok (x_norm, y_norm)
     else Ok (x_norm, y_norm)) ;;
  let norm_xr :=
    map (fun i => np_div (Fin (qn i)) (Fin x_norm)) (seq 0 (length (avg e))) in
  let norm_yr := map (fun a => np_div (Fin a) (Fin y_norm)) (avg e) in
  let norm_y_err := map (fun a => np_div (Fin a) (Fin y_norm)) (err e) in
  Ok (norm_xr, norm_yr, norm_y_err).

(** The part of [inclusions_found] after the cache has been filled. *)
Definition normalise (result_format : string) (labels : option (list Z))
  (c : cache) (fl : bool)
  : result (list npfloat * list npfloat * list npfloat) :=
  len_labels <- py_len labels ;;
  e <- entry_get c fl ;;
  scale result_format len_labels e.

Definition inclusions_found (result_format : string) (final_labels : bool)
  (self : Analysis)
  : result (list npfloat * list npfloat * list npfloat) * Analysis :=
  let labels :=
    if final_labels then self_final_labels self else self_labels self in
  let fl := final_labels in
  match self_inc_found self with
  | None => (Raise AttributeError, self)
  | Some c =>
      match cache_get c fl with
      | None =>
          let c0 := cache_set c fl None in
          match _get_inc_found self labels with
          | Raise e => (Raise e, set_inc_found self c0)
          | Ok (avg, err, iai, ninit) =>
              let c1 :=
                cache_set c0 fl
                  (Some {| avg := avg; err := err;
                           inc_after_init := iai; n_initial := ninit |}) in
              (normalise result_format labels c1 fl, set_inc_found self c1)
          end
      | Some _ => (normalise result_format labels c fl, self)
      end
  end.

(** *** [wss] and [rrf] *)

(** The bar a metric returns: the value, the x positions and the y positions. *)
Definition bar : Type := (npfloat * (npfloat * npfloat) * (npfloat * npfloat))%type.

(** [1e-6] *)
Definition eps : Q := 1 # 1000000.

(** The first [i] in [range(n)] with [curve[i] >= val - 1e-6]; [n] is
    [len(norm_yr)] in both metrics, and the arrays have this length. *)
Definition first_reached (n : nat) (curve : list npfloat) (val : Q)
  : option nat :=
  find (fun i => np_ge (nth i curve NaN) (Fin (Qred (val - eps))))
       (seq 0 n).

(** [Ok None] stands for the tuple [(None, None, None)]. *)
Definition wss (val : Q) (x_format : string) (final_labels : bool)
  (self : Analysis) : result (option bar) * Analysis :=
  match inclusions_found "percentage" final_labels self with
  | (Raise e, self) => (Raise e, self)
  | (Ok (norm_xr, norm_yr, _), self) =>
      let '(coords, self) :=
        if String.eqb x_format "number" then
          match inclusions_found "number" final_labels self with
          | (Raise e, self) => (Raise e, self)
          | (Ok (x_return, y_result, _), self) =>
              (c <- getattr (self_inc_found self) ;;
               e <- entry_get c false ;;
               let y_max := inc_after_init e in
               len_labels <- py_len (self_labels self) ;;
               e' <- entry_get c false ;;
               y_coef <- py_div (qz y_max) (qz (len_labels - n_initial e')) ;;
               Ok (x_return, y_result, y_coef),
               self)
          end
        else (Ok (norm_xr, norm_yr, 1%Q), self) in
      (' (x_return, y_result, y_coef) <- coords ;;
       match first_reached (length norm_yr) norm_yr val with
       | Some i =>
           y_i <- getitem norm_yr i ;;
           x_i <- getitem norm_xr i ;;
           xr_i <- getitem x_return i ;;
           yr_i <- getitem y_result i ;;
           Ok (Some (np_sub y_i x_i, (xr_i, xr_i),
                     (np_mul xr_i (Fin y_coef), yr_i)))
       | None => Ok None
       end,
       self)
  end.

(** [Ok None] stands for [None]. *)
Definition rrf (val : Q) (x_format : string) (final_labels : bool)
  (self : Analysis) : result (option bar) * Analysis :=
  match inclusions_found "percentage" final_labels self with
  | (Raise e, self) => (Raise e, self)
  | (Ok (norm_xr, norm_yr, _), self) =>
      let '(coords, self) :=
        if String.eqb x_format "number" then
          match inclusions_found "number" final_labels self with
          | (Raise e, self) => (Raise e, self)
          | (Ok (x_return, y_return, _), self) =>
              (Ok (x_return, y_return), self)
          end
        else (Ok (norm_xr, norm_yr), self) in
      (' (x_return, y_return) <- coords ;;
       match first_reached (length norm_yr) norm_xr val with
       | Some i =>
           y_i <- getitem norm_yr i ;;
           xr_i <- getitem x_return i ;;
           yr_i <- getitem y_return i ;;
           Ok (Some (y_i, (xr_i, xr_i), (Fin 0, yr_i)))
       | None => Ok None
       end,
       self)
  end.

(** *** [avg_time_to_discovery] *)

(** [np.where(labels == 1)[0]]; comparing [None] with 1 gives no position. *)
Definition where_one (labels : option (list Z)) : list nat :=
  match labels with
  | Some l =>
      filter (fun i => Z.eqb (nth i l 0) 1) (seq 0 (length l))
  | None => []
  end.

(** [labels[idx]] *)
Definition label_at (labels : option (list Z)) (idx : nat) : result Z :=
  match labels with
  | Some l => getitem l idx
  | None => Raise TypeError
  end.

Definition times : Type := dict nat (list nat).

(** [time_results[idx].append(t)] *)
Definition append_time (time_results : times) (idx t : nat) : result times :=
  _ <- dict_get Nat.eqb time_results idx ;;
  Ok (dict_update Nat.eqb time_results idx (fun l => l ++ [t])).

(** [for i_time, idx in enumerate(label_order)], from position [i_time] on. *)
Fixpoint walk_label_order (labels : option (list Z)) (label_order : list nat)
  (i_time : nat) (time_results : times) : result times :=
  match label_order with
  | [] => Ok time_results
  | idx :: rest =>
      l <- label_at labels idx ;;
      time_results <-
        (if Z.eqb l 1 then append_time time_results idx i_time
         else Ok time_results) ;;
      walk_label_order labels rest (S i_time) time_results
  end.

(** [for i_time, idx in enumerate(proba_order)], from position [i_time] on. *)
Fixpoint walk_proba_order (labels : option (list Z)) (i_file : nat)
  (len_label_order : nat) (proba_order : list nat) (i_time : nat)
  (time_results : times) : result times :=
  match proba_order with
  | [] => Ok time_results
  | idx :: rest =>
      l <- label_at labels idx ;;
      time_results <-
        (if Z.eqb l 1 then
           recorded <- dict_get Nat.eqb time_results idx ;;
           if Nat.leb (length recorded) i_file
           then append_time time_results idx (i_time + len_label_order)
           else Ok time_results
         else Ok time_results) ;;
      walk_proba_order labels i_file len_label_order rest (S i_time)
        time_results
  end.

(** [for idx in time_results: if len(time_results[idx]) <= i_file: ...] *)
Definition fill_missing (i_file sentinel : nat) (time_results : times) : times :=
  map (fun kv : nat * list nat =>
         if Nat.leb (length (snd kv)) i_file
         then (fst kv, snd kv ++ [sentinel]) else kv)
      time_results.

(** [for i_file, logger in enumerate(self.loggers.values())], from run
    [i_file] on; returns [time_results] and [n_initial]. *)
Fixpoint walk_runs (labels : option (list Z)) (runs : list logger)
  (i_file : nat) (time_results : times) (n_initial : list nat)
  : result (times * list nat) :=
  match runs with
  | [] => Ok (time_results, n_initial)
  | lg :: rest =>
      let '(label_order, n) := _get_labeled_order lg in
      let proba_order := _get_last_proba_order lg in
      let n_initial := n_initial ++ [n] in
      time_results <- walk_label_order labels label_order 0 time_results ;;
      time_results <-
        walk_proba_order labels i_file (length label_order) proba_order 0
          time_results ;;
      let time_results :=
        fill_missing i_file (length label_order + length proba_order)
          time_results in
      walk_runs labels rest (S i_file) time_results n_initial
  end.

(** [for i_file, time in enumerate(time_results[label])], from [i_file] on. *)
Fixpoint trained_times (n_initial : list nat) (recorded : list nat)
  (i_file : nat) : result (list nat) :=
  match recorded with
  | [] => Ok []
  | time :: rest =>
      n <- getitem n_initial i_file ;;
      trained_time <- trained_times n_initial rest (S i_file) ;;
      Ok (if Nat.leb n time then time :: trained_time else trained_time)
  end.

Fixpoint average_trained (n_initial : list nat) (time_results : times)
  : result (dict nat Q) :=
  match time_results with
  | [] => Ok []
  | (label, recorded) :: rest =>
      trained_time <- trained_times n_initial recorded 0 ;;
      let r :=
        if Nat.eqb (length trained_time) 0 then 0%Q
        else np_average trained_time in
      results <- average_trained n_initial rest ;;
      Ok ((label, r) :: results)
  end.

Definition avg_time_to_discovery (self : Analysis) : result (dict nat Q) :=
  let labels := self_labels self in
  let one_labels := where_one labels in
  let time_results : times := map (fun label => (label, [])) one_labels in
  ' (time_results, n_initial) <-
    walk_runs labels (values (self_loggers self)) 0 time_results [] ;;
  average_trained n_initial time_results.

(** *** [limits] *)

Inductive prob_arg : Type :=
| ProbOne (p : Q)
| ProbList (l : list Q).

Record limits_result : Type := {
  x_range : list nat;
  limits_of : list (list Z)
}.

(** [for i_prob in range(len(prob_allow_miss)):
       results["limits"][i_prob].append(new_limits[i_prob])], from [i_prob]
    on; [limits] holds the lists of the positions that remain. *)
Fixpoint append_limits (limits : list (list Z)) (new_limits : list Z)
  (i_prob : nat) : result (list (list Z)) :=
  match limits with
  | [] => Ok []
  | l :: rest =>
      v <- getitem new_limits i_prob ;;
      rest' <- append_limits rest new_limits (S i_prob) ;;
      Ok ((l ++ [v]) :: rest')
  end.

(** [for query_i in range(n_queries)], over the queries that remain. *)
Fixpoint limits_loop (self : Analysis) (lg : logger) (prob_allow_miss : list Q)
  (queries : list nat) (n_train : nat) (res : limits_result)
  : result limits_result :=
  match queries with
  | [] => Ok res
  | query_i :: rest =>
      let new_limits :=
        _get_limits (self_loggers self) query_i (self_labels self)
          prob_allow_miss in
      let new_train_idx :=
        match lg_train_idx lg query_i with
        | Some v => v
        | None => None
        end in
      let n_train :=
        match new_train_idx with
        | Some idx => length idx
        | None => n_train
        end in
      res <-
        match new_limits with
        | Some new_limits =>
            lims <- append_limits (limits_of res) new_limits 0 ;;
            Ok {| x_range := x_range res ++ [n_train]; limits_of := lims |}
        | None => Ok res
        end ;;
      limits_loop self lg prob_allow_miss rest n_train res
  end.

(** A Python integer that fits the C [long] behind [np.int] (64 bits, as on
    Linux and macOS). *)
Definition c_long_fits (v : Z) : bool :=
  Z.leb (- 2 ^ 63) v && Z.ltb v (2 ^ 63).

(** [np.array(values, np.int)] of a list of Python integers: the values are
    kept, and one that does not fit raises [OverflowError]. *)
Definition np_int_array (values : list Z) : result (list Z) :=
  if forallb c_long_fits values then Ok values else Raise OverflowError.

(** [for i_prob in range(len(prob_allow_miss)):
       results["limits"][i_prob] = np.array(results["limits"][i_prob], np.int)],
    over the lists that remain; there is one list per probability. *)
Fixpoint convert_limits (limits : list (list Z)) : result (list (list Z)) :=
  match limits with
  | [] => Ok []
  | l :: rest =>
      l' <- np_int_array l ;;
      rest' <- convert_limits rest ;;
      Ok (l' :: rest')
  end.

Definition limits (prob_allow_miss : prob_arg) (self : Analysis)
  : result limits_result :=
  let prob_allow_miss :=
    match prob_allow_miss with
    | ProbList l => l
    | ProbOne p => [p]
    end in
  first_file <- getattr (self_first_file self) ;;
  logger <- dict_get run_key_eqb (self_loggers self) first_file ;;
  let n_queries := lg_n_queries logger in
  let results :=
    {| x_range := [];
       limits_of := map (fun _ => []) (seq 0 (length prob_allow_miss)) |} in
  results <-
    limits_loop self logger prob_allow_miss (seq 0 n_queries) 0 results ;;
  x_range' <- np_int_array (map Z.of_nat (x_range results)) ;;
  limits' <- convert_limits (limits_of results) ;;
  Ok {| x_range := map Z.to_nat x_range'; limits_of := limits' |}.


(** ** Object states *)

Definition labels_of (self : Analysis) (fl : bool) : option (list Z) :=
  if fl then self_final_labels self else self_labels self.

(** A cache slot agrees with the object: a filled slot holds what
    [_get_inc_found] returns for the labels of its key, and the empty
    dictionary is only left behind when that computation raised. *)
Definition slot_ok (self : Analysis) (fl : bool)
  (slot : option (option inc_entry)) : Prop :=
  match slot with
  | None => True
  | Some None => labels_of self fl = None
  | Some (Some e) =>
      _get_inc_found self (labels_of self fl)
      = Ok (avg e, err e, inc_after_init e, n_initial e)
  end.

(** The states of an analysis that was built from at least one run. *)
Record nonempty (self : Analysis) : Prop := {
  ne_empty : self_empty self = false;
  ne_runs : self_num_runs self = length (self_loggers self);
  ne_some : self_loggers self <> [];
  ne_labels : exists labels, self_labels self = Some labels;
  ne_first : self_first_file self = hd_error (keys (self_loggers self));
  ne_cache : exists c, self_inc_found self = Some c /\
                       forall fl, slot_ok self fl (cache_get c fl)
}.

(** What [inclusions_found] returns, without the cache. *)
Definition curve (result_format : string) (fl : bool) (self : Analysis)
  : result (list npfloat * list npfloat * list npfloat) :=
  match _get_inc_found self (labels_of self fl) with
  | Raise e => Raise e
  | Ok (a, e, iai, ninit) =>
      len_labels <- py_len (labels_of self fl) ;;
      scale result_format len_labels
        {| avg := a; err := e; inc_after_init := iai; n_initial := ninit |}
  end.

(** The dispersion the aggregation loop computes for one step. *)
Definition step_err (cur_vals : list Z) : Q :=
  if Nat.eqb (length cur_vals) 1 then qz (hd 0 cur_vals)
  else stats_sem sqrt cur_vals.

(** The inclusion curves of the runs, as [_get_inc_found] collects them. *)
Definition run_inclusions (loggers : list logger) (labels : list Z)
  : list (list Z) :=
  map (fun lg => fst (fst (_find_inclusions lg labels))) loggers.

(** The number of steps of the aggregated curve. *)
Definition n_steps (self : Analysis) (labels : list Z) : nat :=
  match agg_loop
          (S (max_len (run_inclusions (values (self_loggers self)) labels)))
          (self_num_runs self)
          (run_inclusions (values (self_loggers self)) labels) 0 with
  | Some (a, _) => length a
  | None => 0
  end.

(** Building an analysis and calling one method on the new object. *)
Definition fresh {A} (loggers : loggers_arg)
  (method : Analysis -> result A * Analysis) : result A :=
  self <- __init__ loggers None ;;
  fst (method self).

(** A sequence of counts that never goes down, and the same for a curve. *)
Definition nondecreasing (l : list Z) : Prop :=
  forall i u v, nth_error l i = Some u -> nth_error l (S i) = Some v -> u <= v.

Definition np_nondecreasing (l : list npfloat) : Prop :=
  forall i u v,
    nth_error l i = Some u -> nth_error l (S i) = Some v -> np_ge v u = true.

(** The number of relevant items in Labels. *)
Definition n_relevant (labels : list Z) : Z :=
  Z.of_nat (length (where_one (Some labels))).

Fixpoint nondecreasingb (l : list Z) : bool :=
  match l with
  | u :: (v :: _) as rest => Z.leb u v && nondecreasingb rest
  | _ => true
  end.

(** The size of the train-index snapshot of the most recent query below [q]
    that reported one, 0 when none did. *)
Fixpoint n_train_upto (lg : logger) (q : nat) : nat :=
  match q with
  | O => 0
  | S q' =>
      match lg_train_idx lg q' with
      | Some (Some idx) => length idx
      | _ => n_train_upto lg q'
      end
  end.

Definition prob_list (prob_allow_miss : prob_arg) : list Q :=
  match prob_allow_miss with
  | ProbList l => l
  | ProbOne p => [p]
  end.

(** The queries, among [n] queries from [s] on, for which the limit delegate
    returns a result. *)
Definition kept_queries (delegate : nat -> option (list Z)) (s n : nat)
  : list nat :=
  filter (fun q => match delegate q with Some _ => true | None => false end)
         (seq s n).

Definition limit_at (delegate : nat -> option (list Z)) (i_prob q : nat) : Z :=
  match delegate q with
  | Some l => nth i_prob l 0
  | None => 0
  end.

(** *** Discovery times, as the specification describes them *)

(** The first position of [k] in [order], counting from [i]. *)
Fixpoint index_from (k : nat) (order : list nat) (i : nat) : option nat :=
  match order with
  | [] => None
  | x :: rest => if Nat.eqb k x then Some i else index_from k rest (S i)
  end.

(** All the positions of [k] in [order], counting from [i]. *)
Fixpoint occ (k : nat) (order : list nat) (i : nat) : list nat :=
  match order with
  | [] => []
  | x :: rest => (if Nat.eqb k x then [i] else []) ++ occ k rest (S i)
  end.

(** The time at which one run discovers item [idx]: its position in the
    label order; failing that, its rank in the last ranking after the label
    order; failing that, the length of both. *)
Definition discovery_time (lg : logger) (idx : nat) : nat :=
  let label_order := fst (_get_labeled_order lg) in
  let proba_order := _get_last_proba_order lg in
  match index_from idx label_order 0 with
  | Some t => t
  | None =>
      match index_from idx proba_order 0 with
      | Some t => t + length label_order
      | None => length label_order + length proba_order
      end
  end.

Definition seed_size (lg : logger) : nat := snd (_get_labeled_order lg).

(** The discovery times of [idx], over the runs, that are not before the
    run's own [n_initial]. *)
Definition qualifying (runs : list logger) (idx : nat) : list nat :=
  flat_map
    (fun lg =>
       if Nat.leb (seed_size lg) (discovery_time lg idx)
       then [discovery_time lg idx] else [])
    runs.

Definition avg_or_zero (trained_time : list nat) : Q :=
  if Nat.eqb (length trained_time) 0 then 0%Q else np_average trained_time.

(** A run over [labels]: no item is labelled twice and every recorded index
    is an index of Labels. *)
Definition run_wf (labels : list Z) (lg : logger) : Prop :=
  NoDup (fst (_get_labeled_order lg)) /\
  (forall idx, In idx (fst (_get_labeled_order lg)) ->
               (idx < length labels)%nat) /\
  (forall idx, In idx (_get_last_proba_order lg) ->
               (idx < length labels)%nat).

(** A dictionary given by its keys and a function. *)
Definition tabulate {V} (keys : list nat) (g : nat -> V) : dict nat V :=
  map (fun k => (k, g k)) keys.

(** *** Collections that differ in the label series of their runs only *)

(** Two loggers with the same recorded history; their ['labels'] and
    ['final_labels'] series may differ. *)
Definition same_run (l1 l2 : logger) : Prop :=
  lg_n_queries l1 = lg_n_queries l2 /\
  (forall q, lg_train_idx l1 q = lg_train_idx l2 q) /\
  lg_label_order l1 = lg_label_order l2 /\
  lg_n_initial l1 = lg_n_initial l2 /\
  lg_proba_order l1 = lg_proba_order l2.

Definition same_runs (d1 d2 : dict run_key logger) : Prop :=
  Forall2 (fun a b => fst a = fst b /\ same_run (snd a) (snd b)) d1 d2.

(** The first loggers also agree on ['labels'] and ['final_labels']. *)
Definition same_first_labels (d1 d2 : dict run_key logger) : Prop :=
  match d1, d2 with
  | (_, l1) :: _, (_, l2) :: _ =>
      lg_labels l1 = lg_labels l2 /\ lg_final_labels l1 = lg_final_labels l2
  | _, _ => True
  end.

Definition loggers_of (loggers : loggers_arg) : dict run_key logger :=
  match loggers with
  | LoggerList l => enumerate l
  | LoggerDict d => d
  end.

Definition same_collection (c1 c2 : loggers_arg) : Prop :=
  same_runs (loggers_of c1) (loggers_of c2) /\
  same_first_labels (loggers_of c1) (loggers_of c2).

(** The statistics helpers read the recorded history of a run, not its label
    series. *)
Definition helpers_ignore_labels : Prop :=
  (forall l1 l2 labels,
     same_run l1 l2 -> _find_inclusions l1 labels = _find_inclusions l2 labels) /\
  (forall l1 l2,
     same_run l1 l2 -> _get_labeled_order l1 = _get_labeled_order l2) /\
  (forall l1 l2,
     same_run l1 l2 -> _get_last_proba_order l1 = _get_last_proba_order l2) /\
  (forall d1 d2 q labels probs,
     same_runs d1 d2 ->
     _get_limits d1 q labels probs = _get_limits d2 q labels probs).

(** Two analysis objects that differ in the label series of their loggers
    only. *)
Definition sim (s1 s2 : Analysis) : Prop :=
  self_final_labels s1 = self_final_labels s2 /\
  self_labels s1 = self_labels s2 /\
  self_empty s1 = self_empty s2 /\
  self_key s1 = self_key s2 /\
  same_runs (self_loggers s1) (self_loggers s2) /\
  self_num_runs s1 = self_num_runs s2 /\
  self_first_file s1 = self_first_file s2 /\
  self_inc_found s1 = self_inc_found s2.

(** Two results of a method: the same value or exception, and objects that
    still differ in the label series only. *)
Definition same_outcome {A} (r1 r2 : result A * Analysis) : Prop :=
  fst r1 = fst r2 /\ sim (snd r1) (snd r2).

(** The value of a metric: the first component of the bar it returns. *)
Definition bar_value (r : option bar) : option npfloat :=
  option_map (fun b : bar => fst (fst b)) r.

(** *** [from_dir] *)

Section FromDir.

(** [os.path.basename(os.path.normpath(data_dir))], and the loader
    [loggers_from_dir] that [analysis.py] imports from
    [asreview.logging.utils]; the module of the loader is not available. *)
Variable basename_normpath : string -> string.
Variable loggers_from_dir : string -> loggers_arg.

(** [None] when the directory holds no run; otherwise the object, together
    with the value of the attribute [data_dir] that is set on it. *)
Definition from_dir (data_dir : string) : result (option (Analysis * string)) :=
  let key := basename_normpath data_dir in
  let loggers := loggers_from_dir data_dir in
  analysis_inst <- __init__ loggers (Some key) ;;
  if self_empty analysis_inst then Ok None
  else Ok (Some (analysis_inst, data_dir)).

End FromDir.

(** The values that the runs contribute at step [k]: one for every run whose
    inclusion curve has more than [k] steps, in the order of the runs. *)
Definition contributions (ls : list (list Z)) (k : nat) : list Z :=
  flat_map
    (fun incl => match nth_error incl k with Some v => [v] | None => [] end)
    ls.

(** ** The aggregation loop *)

Lemma length_le_max_len (ls : list (list Z)) (i : nat) (l : list Z) :
  nth_error ls i = Some l -> (length l <= max_len ls)%nat.
Proof.
  revert i; induction ls as [|l0 ls IH]; intros [|i] H; simpl in *;
    try discriminate.
  - injection H as ->. lia.
  - specialize (IH _ H). lia.
Qed.

Lemma cur_vals_at_beyond (n : nat) (ls : list (list Z)) (i : nat) :
  (max_len ls <= i)%nat -> cur_vals_at n ls i = [].
Proof.
  intros Hi. unfold cur_vals_at.
  induction (seq 0 n) as [|k ks IH]; simpl; [reflexivity|].
  rewrite IH, app_nil_r.
  destruct (nth_error ls k) as [l|] eqn:Hk; [|reflexivity].
  apply length_le_max_len in Hk.
  destruct (nth_error l i) eqn:Hl; [|reflexivity].
  assert (nth_error l i <> None) as Hn by congruence.
  apply nth_error_Some in Hn. lia.
Qed.

(** The loop breaks before the fuel that [_get_inc_found] gives it is used
    up. *)
Lemma agg_loop_fuel (n : nat) (ls : list (list Z)) (fuel i : nat) :
  (max_len ls <= i + fuel)%nat -> agg_loop (S fuel) n ls i <> None.
Proof.
  revert i; induction fuel as [|fuel IH]; intros i Hi.
  - simpl. rewrite cur_vals_at_beyond by lia. discriminate.
  - change (agg_loop (S (S fuel)) n ls i) with
      (let cur_vals := cur_vals_at n ls i in
       if Nat.eqb (length cur_vals) 0 then Some ([], [])
       else match agg_loop (S fuel) n ls (S i) with
            | Some (a, e) => Some (np_mean cur_vals :: a, step_err cur_vals :: e)
            | None => None
            end).
    cbv zeta.
    destruct (Nat.eqb (length (cur_vals_at n ls i)) 0); [discriminate|].
    specialize (IH (S i)).
    destruct (agg_loop (S fuel) n ls (S i)) as [[a e]|]; [discriminate|].
    apply IH. lia.
Qed.

Lemma agg_loop_S (fuel n : nat) (ls : list (list Z)) (i : nat) :
  agg_loop (S fuel) n ls i
  = if Nat.eqb (length (cur_vals_at n ls i)) 0 then Some ([], [])
    else match agg_loop fuel n ls (S i) with
         | Some (a, e) =>
             Some (np_mean (cur_vals_at n ls i) :: a,
                   step_err (cur_vals_at n ls i) :: e)
         | None => None
         end.
Proof. reflexivity. Qed.

(** What the loop appends: one mean and one dispersion for every step, up to
    the first step at which no run has a value. *)
Lemma agg_loop_spec (n : nat) (ls : list (list Z)) (fuel i : nat)
  (a e : list Q) :
  agg_loop fuel n ls i = Some (a, e) ->
  a = map (fun k => np_mean (cur_vals_at n ls k)) (seq i (length a)) /\
  e = map (fun k => step_err (cur_vals_at n ls k)) (seq i (length a)) /\
  (forall k, (i <= k < i + length a)%nat -> cur_vals_at n ls k <> []) /\
  cur_vals_at n ls (i + length a) = [].
Proof.
  revert i a e; induction fuel as [|fuel IH]; intros i a e H.
  - discriminate.
  - rewrite agg_loop_S in H.
    destruct (Nat.eqb (length (cur_vals_at n ls i)) 0) eqn:E.
    + injection H as <- <-. simpl. rewrite Nat.add_0_r.
      apply Nat.eqb_eq, length_zero_iff_nil in E.
      repeat split; try assumption. intros k Hk; lia.
    + destruct (agg_loop fuel n ls (S i)) as [[a' e']|] eqn:Hrec;
        [|discriminate].
      injection H as <- <-.
      destruct (IH _ _ _ Hrec) as (Ha & He & Hne & Hend).
      simpl. repeat split.
      * f_equal. exact Ha.
      * f_equal. exact He.
      * intros k Hk. destruct (Nat.eq_dec k i) as [->|Hki].
        -- intros Hnil. rewrite Hnil in E. discriminate.
        -- apply Hne. lia.
      * rewrite <- Hend. f_equal. lia.
Qed.

Lemma collect_inclusions_acc (loggers : list logger) (labels : list Z)
  (acc : list (list Z)) (m : option (Z * Z)) :
  fold_left
    (fun acc lg =>
       let '(inclusions, inc_after_init, n_initial) :=
         _find_inclusions lg labels in
       (fst acc ++ [inclusions], Some (inc_after_init, n_initial)))
    loggers (acc, m)
  = (acc ++ run_inclusions loggers labels,
     match rev loggers with
     | [] => m
     | lg :: _ =>
         Some (snd (fst (_find_inclusions lg labels)),
               snd (_find_inclusions lg labels))
     end).
Proof.
  revert acc m; induction loggers as [|lg lgs IH]; intros acc m; simpl.
  - now rewrite app_nil_r.
  - destruct (_find_inclusions lg labels) as [[inc iai] ni] eqn:E.
    rewrite IH. simpl. rewrite <- app_assoc. simpl. f_equal.
    destruct (rev lgs) eqn:R; simpl; [now rewrite E|reflexivity].
Qed.

Lemma collect_inclusions_eq (loggers : list logger) (labels : list Z) :
  collect_inclusions loggers labels
  = (run_inclusions loggers labels,
     match rev loggers with
     | [] => None
     | lg :: _ =>
         Some (snd (fst (_find_inclusions lg labels)),
               snd (_find_inclusions lg labels))
     end).
Proof. unfold collect_inclusions. now rewrite collect_inclusions_acc. Qed.

(** [_get_inc_found] in closed form, for an analysis with at least one run. *)
Lemma get_inc_found_closed (self : Analysis) (labels : list Z) :
  self_loggers self <> [] ->
  let ls := run_inclusions (values (self_loggers self)) labels in
  let n := self_num_runs self in
  let steps := seq 0 (n_steps self labels) in
  exists lg,
    hd_error (rev (values (self_loggers self))) = Some lg /\
    _get_inc_found self (Some labels)
    = Ok (map (fun k => np_mean (cur_vals_at n ls k)) steps,
          (if Nat.eqb n 1 then np_zeros (n_steps self labels)
           else map (fun k => step_err (cur_vals_at n ls k)) steps),
          snd (fst (_find_inclusions lg labels)),
          snd (_find_inclusions lg labels)) /\
    (forall k, (k < n_steps self labels)%nat -> cur_vals_at n ls k <> []) /\
    cur_vals_at n ls (n_steps self labels) = [].
Proof.
  intros Hne ls n steps.
  unfold _get_inc_found. rewrite collect_inclusions_eq.
  fold ls. fold n.
  assert (exists lg, rev (values (self_loggers self)) = lg :: tl (rev (values (self_loggers self)))) as [lg Hlg].
  { destruct (rev (values (self_loggers self))) eqn:R.
    - exfalso. apply Hne.
      assert (values (self_loggers self) = []) as Hv.
      { rewrite <- (rev_involutive (values _)), R. reflexivity. }
      unfold values in Hv. now apply map_eq_nil in Hv.
    - eauto. }
  exists lg. rewrite Hlg. split; [reflexivity|].
  unfold steps, n_steps. fold ls. fold n.
  pose proof (@agg_loop_fuel n ls (max_len ls) 0 (Nat.le_refl _)) as Hfuel.
  destruct (agg_loop (S (max_len ls)) n ls 0) as [[a e]|] eqn:Hloop;
    [|congruence].
  destruct (agg_loop_spec _ _ _ _ Hloop) as (Ha & He & Hsteps & Hend).
  simpl in Hend. repeat split.
  - rewrite <- Ha.
    assert (length e = length a) as Hlen.
    { rewrite He at 1. now rewrite length_map, length_seq. }
    rewrite Hlen, <- He. reflexivity.
  - intros k Hk. apply Hsteps. lia.
  - exact Hend.
Qed.

(** The aggregation always returns: its loop breaks within the fuel. *)
Lemma get_inc_found_total (self : Analysis) (labels : list Z) :
  self_loggers self <> [] ->
  exists a e iai ninit,
    _get_inc_found self (Some labels) = Ok (a, e, iai, ninit).
Proof.
  intros Hne.
  destruct (get_inc_found_closed self labels Hne) as (lg & _ & H & _).
  eauto.
Qed.

(** ** The cache *)

Lemma run_key_eqb_refl (k : run_key) : run_key_eqb k k = true.
Proof.
  destruct k; simpl; [apply Nat.eqb_refl|apply String.eqb_refl].
Qed.

Lemma cache_get_set (c : cache) (fl fl' : bool) (v : option inc_entry) :
  cache_get (cache_set c fl v) fl'
  = if Bool.eqb fl fl' then Some v else cache_get c fl'.
Proof. destruct fl, fl'; reflexivity. Qed.

(** A constructed analysis that is not empty is in a [nonempty] state, with
    nothing cached. *)
Lemma init_nonempty (loggers : loggers_arg) (key : option string)
  (self : Analysis) :
  __init__ loggers key = Ok self ->
  self_empty self = false ->
  nonempty self /\ self_inc_found self = Some cache_empty.
Proof.
  unfold __init__.
  set (d := match loggers with LoggerList l => enumerate l | LoggerDict d => d end).
  destruct d as [|[k lg] d'] eqn:Hd; simpl.
  - intros H; injection H as <-. simpl. discriminate.
  - unfold dict_get; simpl. rewrite run_key_eqb_refl. simpl.
    destruct (lg_labels lg) as [labels|]; simpl; [|discriminate].
    intros H _; injection H as <-. split; [|reflexivity].
    constructor; simpl; try reflexivity; try discriminate.
    + eauto.
    + exists cache_empty. split; [reflexivity|]. intros []; exact I.
Qed.

Lemma inclusions_found_curve (result_format : string) (fl : bool)
  (self : Analysis) :
  nonempty self ->
  fst (inclusions_found result_format fl self) = curve result_format fl self.
Proof.
  intros [_ _ _ _ _ (c & Hc & Hslots)].
  unfold inclusions_found, curve. rewrite Hc.
  fold (labels_of self fl).
  specialize (Hslots fl).
  destruct (cache_get c fl) as [[e|]|] eqn:Hget; simpl in Hslots.
  - rewrite Hslots. simpl. unfold normalise, entry_get. rewrite Hget.
    destruct e; reflexivity.
  - rewrite Hslots. reflexivity.
  - destruct (_get_inc_found self (labels_of self fl))
      as [[[[a e] iai] ninit]|ex]; simpl; [|reflexivity].
    unfold normalise, entry_get. rewrite !cache_get_set, Bool.eqb_reflx.
    reflexivity.
Qed.

(** Calling a method leaves a non-empty analysis in a [nonempty] state. *)
Lemma inclusions_found_nonempty (result_format : string) (fl : bool)
  (self : Analysis) :
  nonempty self -> nonempty (snd (inclusions_found result_format fl self)).
Proof.
  intros Hne. pose proof Hne as [H1 H2 H3 H4 H5 (c & Hc & Hslots)].
  unfold inclusions_found. rewrite Hc.
  fold (labels_of self fl).
  destruct (cache_get c fl) as [slot|] eqn:Hget; simpl; [assumption|].
  destruct (_get_inc_found self (labels_of self fl))
    as [[[[a e] iai] ninit]|ex] eqn:Hcomp; simpl.
  - constructor; simpl; try assumption.
    eexists; split; [reflexivity|]. intros fl'.
    rewrite !cache_get_set.
    destruct (Bool.eqb fl fl') eqn:Efl.
    + apply Bool.eqb_prop in Efl. subst fl'. simpl. exact Hcomp.
    + apply (Hslots fl').
  - constructor; simpl; try assumption.
    eexists; split; [reflexivity|]. intros fl'.
    rewrite !cache_get_set.
    destruct (Bool.eqb fl fl') eqn:Efl.
    + apply Bool.eqb_prop in Efl. subst fl'. simpl.
      unfold _get_inc_found in Hcomp.
      destruct (labels_of self fl) as [labels|] eqn:Hl; [|assumption].
      exfalso.
      destruct (get_inc_found_closed self labels H3) as (lg & _ & Hok & _).
      unfold _get_inc_found in Hok. rewrite Hok in Hcomp. discriminate.
    + apply (Hslots fl').
Qed.

Lemma wss_nonempty (val : Q) (x_format : string) (fl : bool)
  (self : Analysis) :
  nonempty self -> nonempty (snd (wss val x_format fl self)).
Proof.
  intros Hne. unfold wss.
  pose proof (inclusions_found_nonempty "percentage" fl Hne) as H1.
  destruct (inclusions_found "percentage" fl self)
    as [[[[norm_xr norm_yr] ?]|ex] self1]; cbn [snd] in *; [|assumption].
  destruct (String.eqb x_format "number"); [|assumption].
  pose proof (inclusions_found_nonempty "number" fl H1) as H2.
  destruct (inclusions_found "number" fl self1)
    as [[[[x_return y_result] ?]|ex] self2]; assumption.
Qed.

Lemma rrf_nonempty (val : Q) (x_format : string) (fl : bool)
  (self : Analysis) :
  nonempty self -> nonempty (snd (rrf val x_format fl self)).
Proof.
  intros Hne. unfold rrf.
  pose proof (inclusions_found_nonempty "percentage" fl Hne) as H1.
  destruct (inclusions_found "percentage" fl self)
    as [[[[norm_xr norm_yr] ?]|ex] self1]; cbn [snd] in *; [|assumption].
  destruct (String.eqb x_format "number"); [|assumption].
  pose proof (inclusions_found_nonempty "number" fl H1) as H2.
  destruct (inclusions_found "number" fl self1)
    as [[[[x_return y_return] ?]|ex] self2]; assumption.
Qed.

(** ** Arithmetic of the norms *)

Lemma is_zero_qz (z : Z) : is_zero (qz z) = false <-> z <> 0.
Proof.
  unfold is_zero, qz. split.
  - intros H ->. discriminate.
  - intros H. destruct (Qeq_bool (inject_Z z) 0) eqn:E; [|reflexivity].
    apply Qeq_bool_eq in E. unfold Qeq in E. simpl in E. lia.
Qed.

Lemma Qred_self_div (z : Z) : z <> 0 -> Qred (qz z / qz z) = 1%Q.
Proof.
  intros H. change 1%Q with (Qred 1). apply Qred_complete.
  unfold qz. field. intros E. unfold Qeq in E. simpl in E. lia.
Qed.

Lemma py_div_ok (a : Q) (z : Z) :
  z <> 0 -> py_div a (qz z) = Ok (Qred (a / qz z)).
Proof.
  intros H. unfold py_div. now rewrite (proj2 (is_zero_qz z) H).
Qed.

(** The norms of the format ["number"]: the x norm is [(N - n_initial) / N]
    and the y norm is [inc_after_init / inc_after_init], that is 1. *)
Lemma scale_number (len_labels : Z) (e : inc_entry) :
  len_labels <> 0 -> inc_after_init e <> 0 ->
  scale "number" len_labels e
  = Ok (map (fun i =>
               np_div (Fin (qn i))
                 (Fin (Qred (qz (len_labels - n_initial e) / qz len_labels))))
            (seq 0 (length (avg e))),
        map (fun a => np_div (Fin a) (Fin 1)) (avg e),
        map (fun a => np_div (Fin a) (Fin 1)) (err e)).
Proof.
  intros HN Hi. unfold scale. simpl String.eqb. cbv iota.
  rewrite (py_div_ok _ HN), (py_div_ok _ Hi). cbn [bind].
  rewrite (Qred_self_div Hi). reflexivity.
Qed.

Lemma curve_number (self : Analysis) (labels : list Z) (a e : list Q)
  (iai ninit : Z) :
  self_labels self = Some labels ->
  _get_inc_found self (Some labels) = Ok (a, e, iai, ninit) ->
  labels <> [] -> iai <> 0 ->
  curve "number" false self
  = Ok (map (fun i =>
               np_div (Fin (qn i))
                 (Fin (Qred (qz (Z.of_nat (length labels) - ninit)
                             / qz (Z.of_nat (length labels))))))
            (seq 0 (length a)),
        map (fun v => np_div (Fin v) (Fin 1)) a,
        map (fun v => np_div (Fin v) (Fin 1)) e).
Proof.
  intros Hl Hc HN Hi. unfold curve, labels_of. rewrite Hl, Hc. simpl.
  rewrite scale_number; simpl; try assumption; [reflexivity|].
  destruct labels; [congruence|]. simpl. lia.
Qed.

(** ** Claims on the normaliser *)

(** C8: on an analysis built from no run at all, [inclusions_found] raises
    (an [AttributeError]: [self.inc_found] was never created) whatever its
    arguments are, and the object is marked empty. *)
Theorem inclusions_found_empty_analysis (loggers : loggers_arg)
  (key : option string) (result_format : string) (final_labels : bool) :
  loggers = LoggerList [] \/ loggers = LoggerDict [] ->
  exists self,
    __init__ loggers key = Ok self /\
    self_empty self = true /\
    self_labels self = None /\
    self_inc_found self = None /\
    inclusions_found result_format final_labels self
    = (Raise AttributeError, self).
Proof.
  intros [-> | ->]; eexists; repeat split.
Qed.

(** The curve of the format ["number"], from the aggregated curve. *)
Lemma inclusions_found_number (self : Analysis) (labels : list Z)
  (a e : list Q) (iai ninit : Z) :
  nonempty self ->
  self_labels self = Some labels ->
  _get_inc_found self (Some labels) = Ok (a, e, iai, ninit) ->
  labels <> [] -> iai <> 0 ->
  let N := Z.of_nat (length labels) in
  let x_norm := Qred (qz (N - ninit) / qz N) in
  let y_norm := 1%Q in
  fst (inclusions_found "number" false self)
  = Ok (map (fun i => np_div (Fin (qn i)) (Fin x_norm)) (seq 0 (length a)),
        map (fun v => np_div (Fin v) (Fin y_norm)) a,
        map (fun v => np_div (Fin v) (Fin y_norm)) e).
Proof.
  intros Hne Hl Hc HN Hi N x_norm y_norm.
  rewrite inclusions_found_curve by assumption.
  eapply curve_number; eassumption.
Qed.

(** C1, as amended: for a non-empty analysis with at least one label, the
    aggregation returns means, dispersions, [inc_after_init] and
    [n_initial]; when [inc_after_init] is not zero, the format ["number"]
    divides the step index by [x_norm = (N - n_initial) / N] and the means
    and dispersions by [y_norm = inc_after_init / inc_after_init = 1]. *)
Theorem number_format_norms (self : Analysis) (labels : list Z) :
  nonempty self ->
  self_labels self = Some labels ->
  labels <> [] ->
  let N := Z.of_nat (length labels) in
  exists a e iai ninit,
    _get_inc_found self (Some labels) = Ok (a, e, iai, ninit) /\
    (iai <> 0 ->
     let x_norm := Qred (qz (N - ninit) / qz N) in
     let y_norm := 1%Q in
     fst (inclusions_found "number" false self)
     = Ok (map (fun i => np_div (Fin (qn i)) (Fin x_norm))
             (seq 0 (length a)),
           map (fun v => np_div (Fin v) (Fin y_norm)) a,
           map (fun v => np_div (Fin v) (Fin y_norm)) e)).
Proof.
  intros Hne Hl HN N.
  destruct (get_inc_found_total self labels (ne_some Hne))
    as (a & e & iai & ninit & Hc).
  exists a, e, iai, ninit. split; [exact Hc|].
  intros Hi x_norm y_norm.
  rewrite inclusions_found_curve by assumption.
  eapply curve_number; eassumption.
Qed.

Lemma is_zero_Qred (q : Q) : is_zero (Qred q) = is_zero q.
Proof.
  unfold is_zero.
  destruct (Qeq_bool q 0) eqn:E.
  - apply Qeq_bool_iff. rewrite Qred_correct. now apply Qeq_bool_iff.
  - destruct (Qeq_bool (Qred q) 0) eqn:E'; [|reflexivity].
    apply Qeq_bool_iff in E'. rewrite Qred_correct in E'.
    apply Qeq_bool_iff in E'. congruence.
Qed.

Lemma qz_neq_0 (z : Z) : z <> 0 -> ~ (qz z == 0)%Q.
Proof. intros H E. unfold qz, Qeq in E. simpl in E. lia. Qed.

Lemma is_zero_ratio (a b : Z) :
  a <> 0 -> b <> 0 -> is_zero (Qred (qz a / qz b)) = false.
Proof.
  intros Ha Hb. rewrite is_zero_Qred. unfold is_zero.
  destruct (Qeq_bool (qz a / qz b) 0) eqn:E; [|reflexivity].
  apply Qeq_bool_iff in E. exfalso. apply (qz_neq_0 Ha).
  assert (qz a == (qz a / qz b) * qz b)%Q as ->
    by (field; apply (qz_neq_0 Hb)).
  rewrite E. ring.
Qed.

(** The steps and the means, back from the curve of the format
    ["number"]. *)
Lemma round_trip_of_curve (self : Analysis) (labels : list Z)
  (a e : list Q) (iai ninit : Z) :
  nonempty self ->
  self_labels self = Some labels ->
  _get_inc_found self (Some labels) = Ok (a, e, iai, ninit) ->
  labels <> [] -> iai <> 0 -> Z.of_nat (length labels) <> ninit ->
  let N := Z.of_nat (length labels) in
  exists x y ye,
    fst (inclusions_found "number" false self) = Ok (x, y, ye) /\
    length x = length a /\ length y = length a /\
    forall i m, nth_error a i = Some m ->
      exists qx qy,
        nth_error x i = Some (Fin qx) /\
        nth_error y i = Some (Fin qy) /\
        (qx * (qz (N - ninit) / qz N) == qn i)%Q /\
        (qy == m)%Q.
Proof.
  intros Hne Hl Hc HN Hi Hd N.
  assert (N <> 0) as HN0.
  { unfold N. destruct labels; [congruence|]. simpl. lia. }
  assert (N - ninit <> 0) as Hd0 by (unfold N; lia).
  do 3 eexists. split; [eapply inclusions_found_number; eassumption|].
  rewrite !length_map, length_seq. repeat split.
  intros i m Hm.
  assert (i < length a)%nat as Hi' by (apply nth_error_Some; congruence).
  exists (Qred (qn i / Qred (qz (N - ninit) / qz N))), (Qred (m / 1)).
  repeat split.
  - rewrite nth_error_map, nth_error_seq.
    destruct (Nat.ltb_spec i (length a)) as [_|]; [|lia].
    cbn [option_map Nat.add]. f_equal. unfold np_div. unfold N in *.
    now rewrite (is_zero_ratio Hd0 HN0).
  - now rewrite nth_error_map, Hm.
  - rewrite !Qred_correct. field.
    split; [apply (qz_neq_0 HN0)|apply (qz_neq_0 Hd0)].
  - rewrite Qred_correct. field.
Qed.

(** C7, as amended: for a non-empty analysis with at least one label, the
    raw aggregated curve is recovered from the ["number"] curve by
    multiplying x by [(N - n_initial) / N]; the y values are the raw means
    already.  (Exact in rational arithmetic; it needs [N <> n_initial] and a
    non-zero [inc_after_init].) *)
Theorem number_format_round_trip (self : Analysis) (labels : list Z) :
  nonempty self ->
  self_labels self = Some labels ->
  labels <> [] ->
  let N := Z.of_nat (length labels) in
  exists a e iai ninit,
    _get_inc_found self (Some labels) = Ok (a, e, iai, ninit) /\
    (iai <> 0 -> N <> ninit ->
     exists x y ye,
       fst (inclusions_found "number" false self) = Ok (x, y, ye) /\
       length x = length a /\ length y = length a /\
       forall i m, nth_error a i = Some m ->
         exists qx qy,
           nth_error x i = Some (Fin qx) /\
           nth_error y i = Some (Fin qy) /\
           (qx * (qz (N - ninit) / qz N) == qn i)%Q /\
           (qy == m)%Q).
Proof.
  intros Hne Hl HN N.
  destruct (get_inc_found_total self labels (ne_some Hne))
    as (a & e & iai & ninit & Hc).
  exists a, e, iai, ninit. split; [exact Hc|].
  intros Hi Hd. now apply (round_trip_of_curve Hne Hl Hc).
Qed.

(** ** Claims on the aggregation *)

Lemma np_div_zero (yn : Q) : is_zero yn = false -> np_div (Fin 0) (Fin yn) = Fin 0.
Proof.
  intros H. unfold np_div. rewrite H. f_equal.
Qed.

(** The shape of every result of [scale]: the arrays are the cached arrays
    divided by two norms, and the y norm is zero exactly when
    [inc_after_init] is. *)
Lemma scale_inv (result_format : string) (len_labels : Z) (e : inc_entry)
  (x y ye : list npfloat) :
  scale result_format len_labels e = Ok (x, y, ye) ->
  exists x_norm y_norm,
    is_zero y_norm = is_zero (qz (inc_after_init e)) /\
    x = map (fun i => np_div (Fin (qn i)) (Fin x_norm))
          (seq 0 (length (avg e))) /\
    y = map (fun a => np_div (Fin a) (Fin y_norm)) (avg e) /\
    ye = map (fun a => np_div (Fin a) (Fin y_norm)) (err e).
Proof.
  unfold scale.
  destruct (String.eqb result_format "percentage").
  - change (py_div (qz (len_labels - n_initial e)) 100)
      with (Ok (Qred (qz (len_labels - n_initial e) / 100))).
    change (py_div (qz (inc_after_init e)) 100)
      with (Ok (Qred (qz (inc_after_init e) / 100))).
    cbn [bind]. intros H; injection H as <- <- <-.
    exists (Qred (qz (len_labels - n_initial e) / 100)),
      (Qred (qz (inc_after_init e) / 100)).
    split; [|repeat split].
    rewrite is_zero_Qred. unfold is_zero.
    destruct (Qeq_bool (qz (inc_after_init e)) 0) eqn:E.
    + apply Qeq_bool_iff. apply Qeq_bool_iff in E. rewrite E. reflexivity.
    + destruct (Qeq_bool (qz (inc_after_init e) / 100) 0) eqn:E';
        [|reflexivity].
      apply Qeq_bool_iff in E'.
      assert (qz (inc_after_init e) == 0)%Q as E0.
      { assert (qz (inc_after_init e)
                == (qz (inc_after_init e) / 100) * 100)%Q as -> by field.
        rewrite E'. ring. }
      apply Qeq_bool_iff in E0. congruence.
  - destruct (String.eqb result_format "number").
    + unfold py_div.
      destruct (is_zero (qz len_labels)); [discriminate|].
      destruct (is_zero (qz (inc_after_init e))) eqn:E; [discriminate|].
      cbn [bind]. intros H; injection H as <- <- <-.
      exists (Qred (qz (len_labels - n_initial e) / qz len_labels)),
        (Qred (qz (inc_after_init e) / qz (inc_after_init e))).
      split; [|repeat split].
      rewrite Qred_self_div by (now apply is_zero_qz). reflexivity.
    + cbn [bind]. intros H; injection H as <- <- <-.
      exists (qz (len_labels - n_initial e)), (qz (inc_after_init e)).
      repeat split.
Qed.

(** The dispersions of an aggregated curve. *)
Lemma dispersion_of_curve (self : Analysis) (fl : bool)
  (labels : list Z) (a e : list Q) (iai ninit : Z) :
  nonempty self ->
  labels_of self fl = Some labels ->
  _get_inc_found self (Some labels) = Ok (a, e, iai, ninit) ->
  let n := self_num_runs self in
  let ls := run_inclusions (values (self_loggers self)) labels in
  length e = length a /\
  (n <> 1%nat -> forall i, (i < length a)%nat ->
     (forall v, cur_vals_at n ls i = [v] -> nth_error e i = Some (qz v)) /\
     ((1 < length (cur_vals_at n ls i))%nat ->
      nth_error e i = Some (stats_sem sqrt (cur_vals_at n ls i)))) /\
  (n = 1%nat ->
     e = np_zeros (length a) /\
     forall result_format x y ye,
       fst (inclusions_found result_format fl self) = Ok (x, y, ye) ->
       iai <> 0 ->
       ye = repeat (Fin 0) (length a)).
Proof.
  intros Hne Hl Hc n ls.
  destruct (get_inc_found_closed self labels (ne_some Hne))
    as (lg & _ & Hclosed & _ & _).
  fold n ls in Hclosed. rewrite Hc in Hclosed.
  injection Hclosed as Ha He _ _.
  assert (length a = n_steps self labels) as Hlen
    by (rewrite Ha; now rewrite length_map, length_seq).
  split; [|split].
  - rewrite He, Hlen. destruct (Nat.eqb n 1).
    + unfold np_zeros. now rewrite repeat_length.
    + now rewrite length_map, length_seq.
  - intros Hn i Hi.
    apply Nat.eqb_neq in Hn. rewrite Hn in He.
    assert (nth_error e i = Some (step_err (cur_vals_at n ls i))) as Hnth.
    { rewrite He, nth_error_map, nth_error_seq.
      destruct (Nat.ltb_spec i (n_steps self labels)); [reflexivity|lia]. }
    rewrite Hnth. unfold step_err. split.
    + intros v ->. reflexivity.
    + intros Hlt.
      destruct (Nat.eqb_spec (length (cur_vals_at n ls i)) 1);
        [lia|reflexivity].
  - intros Hn.
    assert (e = np_zeros (length a)) as Hz.
    { rewrite He, Hlen. apply Nat.eqb_eq in Hn. now rewrite Hn. }
    split; [exact Hz|].
    intros result_format x y ye Hr Hi.
    rewrite inclusions_found_curve in Hr by assumption.
    unfold curve in Hr. rewrite Hl, Hc in Hr. simpl in Hr.
    apply scale_inv in Hr. destruct Hr as (xn & yn & Hyn & _ & _ & ->).
    cbn [inc_after_init err avg] in *.
    rewrite (proj2 (is_zero_qz iai) Hi) in Hyn.
    rewrite Hz. unfold np_zeros.
    generalize (length a) as k. induction k as [|k IH]; cbn [repeat map];
      [reflexivity|].
    now rewrite IH, np_div_zero.
Qed.

(** C2, as amended: the aggregation of a non-empty analysis returns, and in
    a collection of more than one run the dispersion of a step is the raw
    value when one run contributes and the standard error of the mean when
    several do; in a collection of exactly one run the dispersions are all
    zero, and so is every [y_error] that [inclusions_found] returns when
    [inc_after_init] is not zero. *)
Theorem dispersion_convention (self : Analysis) (fl : bool)
  (labels : list Z) :
  nonempty self ->
  labels_of self fl = Some labels ->
  let n := self_num_runs self in
  let ls := run_inclusions (values (self_loggers self)) labels in
  exists a e iai ninit,
    _get_inc_found self (Some labels) = Ok (a, e, iai, ninit) /\
    length e = length a /\
    (n <> 1%nat -> forall i, (i < length a)%nat ->
       (forall v, cur_vals_at n ls i = [v] -> nth_error e i = Some (qz v)) /\
       ((1 < length (cur_vals_at n ls i))%nat ->
        nth_error e i = Some (stats_sem sqrt (cur_vals_at n ls i)))) /\
    (n = 1%nat ->
       e = np_zeros (length a) /\
       forall result_format x y ye,
         fst (inclusions_found result_format fl self) = Ok (x, y, ye) ->
         iai <> 0 ->
         ye = repeat (Fin 0) (length a)).
Proof.
  intros Hne Hl n ls.
  destruct (get_inc_found_total self labels (ne_some Hne))
    as (a & e & iai & ninit & Hc).
  exists a, e, iai, ninit. split; [exact Hc|].
  exact (dispersion_of_curve fl Hne Hl Hc).
Qed.

Lemma Qdiv_one (q : Q) : (q / 1 == q)%Q.
Proof. field. Qed.

Lemma zsum_app (l1 l2 : list Z) : zsum (l1 ++ l2) = zsum l1 + zsum l2.
Proof. induction l1 as [|v l1 IH]; simpl; [reflexivity|]. rewrite IH. ring. Qed.

Lemma zsum_le (l : list Z) (T : Z) :
  (forall v, In v l -> v <= T) -> zsum l <= Z.of_nat (length l) * T.
Proof.
  induction l as [|v l IH]; intros H; [simpl; lia|].
  cbn [zsum fold_right length]. fold (zsum l).
  pose proof (H v (or_introl eq_refl)).
  specialize (IH (fun w Hw => H w (or_intror Hw))). lia.
Qed.

Lemma cur_vals_at_in (n : nat) (ls : list (list Z)) (k : nat) (v : Z) :
  In v (cur_vals_at n ls k) -> exists l, In l ls /\ In v l.
Proof.
  unfold cur_vals_at. intros H. apply in_flat_map in H.
  destruct H as (i_file & _ & H).
  destruct (nth_error ls i_file) as [l|] eqn:Hl; [|contradiction].
  destruct (nth_error l k) as [w|] eqn:Hw; [|contradiction].
  destruct H as [<-|[]]. exists l. eauto using nth_error_In.
Qed.

Lemma qn_pos (l : list Z) : l <> [] -> (0 < qn (length l))%Q.
Proof.
  intros H. destruct l; [congruence|]. unfold qn, Qlt. simpl. lia.
Qed.

Lemma np_mean_le (l : list Z) (T : Z) :
  l <> [] -> (forall v, In v l -> v <= T) -> (np_mean l <= qz T)%Q.
Proof.
  intros Hne H. unfold np_mean. rewrite Qred_correct.
  apply Qle_shift_div_r; [now apply qn_pos|].
  unfold qz, qn. rewrite <- inject_Z_mult, <- Zle_Qle.
  pose proof (zsum_le l H). lia.
Qed.

Lemma np_mean_mono (l1 l2 : list Z) :
  l1 <> [] -> length l1 = length l2 -> zsum l1 <= zsum l2 ->
  (np_mean l1 <= np_mean l2)%Q.
Proof.
  intros Hne Hlen Hsum. unfold np_mean. rewrite !Qred_correct, <- Hlen.
  apply Qmult_le_compat_r.
  - unfold qz. now rewrite <- Zle_Qle.
  - apply Qlt_le_weak, Qinv_lt_0_compat. now apply qn_pos.
Qed.

(** With runs of one length, one step and the next have the same
    contributors, and the counts only grow. *)
Lemma cur_vals_at_step (n : nat) (ls : list (list Z)) (L k : nat) :
  (forall l, In l ls -> length l = L) ->
  (forall l, In l ls -> nondecreasing l) ->
  (S k < L)%nat ->
  length (cur_vals_at n ls k) = length (cur_vals_at n ls (S k)) /\
  zsum (cur_vals_at n ls k) <= zsum (cur_vals_at n ls (S k)).
Proof.
  intros HL Hmono Hk. unfold cur_vals_at.
  induction (seq 0 n) as [|i_file fs [IHlen IHsum]]; cbn [flat_map];
    [split; [reflexivity|apply Z.le_refl]|].
  rewrite !length_app, !zsum_app.
  destruct (nth_error ls i_file) as [l|] eqn:Hl.
  2:{ cbn [length zsum fold_right]. lia. }
  apply nth_error_In in Hl.
  destruct (nth_error l k) as [u|] eqn:Hu.
  2:{ apply nth_error_None in Hu. rewrite (HL l Hl) in Hu. lia. }
  destruct (nth_error l (S k)) as [v|] eqn:Hv.
  2:{ apply nth_error_None in Hv. rewrite (HL l Hl) in Hv. lia. }
  pose proof (Hmono l Hl k u v Hu Hv). cbn [length zsum fold_right]. lia.
Qed.

(** Bounds and growth of the curve of the format ["number"]. *)
Lemma bounded_monotone_of_curve (self : Analysis) (labels : list Z)
  (a e : list Q) (iai ninit : Z) :
  nonempty self ->
  self_labels self = Some labels ->
  _get_inc_found self (Some labels) = Ok (a, e, iai, ninit) ->
  labels <> [] -> iai <> 0 ->
  let ls := run_inclusions (values (self_loggers self)) labels in
  Forall nondecreasing ls ->
  Forall (Forall (fun v => v <= n_relevant labels)) ls ->
  exists x y ye,
    fst (inclusions_found "number" false self) = Ok (x, y, ye) /\
    (forall v, In v y -> np_ge (Fin (qz (n_relevant labels))) v = true) /\
    ((exists L, forall l, In l ls -> length l = L) -> np_nondecreasing y).
Proof.
  intros Hne Hl Hc HN Hi ls Hmono' Hbound'.
  assert (forall l, In l ls -> nondecreasing l) as Hmono
    by (now apply Forall_forall).
  assert (forall l, In l ls -> forall v, In v l -> v <= n_relevant labels)
    as Hbound.
  { intros l Hin. apply Forall_forall.
    revert l Hin. now apply Forall_forall. }
  clear Hmono' Hbound'.
  do 3 eexists. split; [eapply inclusions_found_number; eassumption|].
  destruct (get_inc_found_closed self labels (ne_some Hne))
    as (lg & _ & Hclosed & Hsteps & _).
  fold ls in Hclosed, Hsteps. rewrite Hc in Hclosed.
  injection Hclosed as Ha _ _ _.
  set (n := self_num_runs self) in *.
  assert (forall k m, nth_error a k = Some m ->
            (k < n_steps self labels)%nat /\ m = np_mean (cur_vals_at n ls k))
    as Hnth.
  { intros k m Hm. rewrite Ha, nth_error_map, nth_error_seq in Hm.
    destruct (Nat.ltb_spec k (n_steps self labels)); [|discriminate].
    injection Hm as <-. auto. }
  split.
  - intros v Hv. apply in_map_iff in Hv. destruct Hv as (m & <- & Hm).
    apply In_nth_error in Hm. destruct Hm as (k & Hm).
    destruct (Hnth _ _ Hm) as (Hk & ->).
    change (Qle_bool (Qred (np_mean (cur_vals_at n ls k) / 1))
              (qz (n_relevant labels)) = true).
    apply Qle_bool_iff. rewrite Qred_correct, Qdiv_one.
    apply np_mean_le; [now apply Hsteps|].
    intros w Hw. apply cur_vals_at_in in Hw. destruct Hw as (l & Hin & Hw).
    eauto.
  - intros (L & HL) i u v Hu Hv.
    rewrite nth_error_map in Hu, Hv.
    destruct (nth_error a i) as [mu|] eqn:Hmu; [|discriminate].
    destruct (nth_error a (S i)) as [mv|] eqn:Hmv; [|discriminate].
    injection Hu as <-. injection Hv as <-.
    destruct (Hnth _ _ Hmu) as (Hi1 & ->).
    destruct (Hnth _ _ Hmv) as (Hi2 & ->).
    change (Qle_bool (Qred (np_mean (cur_vals_at n ls i) / 1))
              (Qred (np_mean (cur_vals_at n ls (S i)) / 1)) = true).
    apply Qle_bool_iff. rewrite !Qred_correct, !Qdiv_one.
    assert (S i < L)%nat as HiL.
    { destruct (Nat.lt_ge_cases (S i) L) as [|Hge]; [assumption|].
      exfalso. apply (Hsteps (S i) Hi2). apply cur_vals_at_beyond.
      clear - HL Hge. induction ls as [|l ls' IH]; simpl; [lia|].
      rewrite (HL l (or_introl eq_refl)).
      specialize (IH (fun l' H' => HL l' (or_intror H'))). lia. }
    destruct (cur_vals_at_step n ls HL Hmono HiL) as (Hlen & Hsum).
    apply np_mean_mono; auto.
Qed.

(** C3, as amended: for a non-empty analysis with at least one label, whose
    runs have non-decreasing inclusion counts that never exceed the number
    of relevant items, and with a non-zero [inc_after_init]: the y values of
    the ["number"] curve never exceed the number of relevant items, and they
    are non-decreasing when all runs have the same length. *)
Theorem number_curve_bounded_monotone (self : Analysis) (labels : list Z) :
  nonempty self ->
  self_labels self = Some labels ->
  labels <> [] ->
  let ls := run_inclusions (values (self_loggers self)) labels in
  Forall nondecreasing ls ->
  Forall (Forall (fun v => v <= n_relevant labels)) ls ->
  exists a e iai ninit,
    _get_inc_found self (Some labels) = Ok (a, e, iai, ninit) /\
    (iai <> 0 ->
     exists x y ye,
       fst (inclusions_found "number" false self) = Ok (x, y, ye) /\
       (forall v, In v y -> np_ge (Fin (qz (n_relevant labels))) v = true) /\
       ((exists L, forall l, In l ls -> length l = L) ->
        np_nondecreasing y)).
Proof.
  intros Hne Hl HN ls Hmono Hbound.
  destruct (get_inc_found_total self labels (ne_some Hne))
    as (a & e & iai & ninit & Hc).
  exists a, e, iai, ninit. split; [exact Hc|].
  intros Hi. now apply (bounded_monotone_of_curve Hne Hl Hc).
Qed.

(** ** Claims on the metrics *)

(** [find] over a range returns the first position that passes the test. *)
Lemma find_seq_first (f : nat -> bool) (n s : nat) :
  match find f (seq s n) with
  | Some i =>
      (s <= i < s + n)%nat /\ f i = true /\
      forall j, (s <= j < i)%nat -> f j = false
  | None => forall j, (s <= j < s + n)%nat -> f j = false
  end.
Proof.
  revert s; induction n as [|n IH]; intros s; simpl.
  - intros j Hj; lia.
  - destruct (f s) eqn:Hs.
    + split; [lia|]. split; [assumption|]. intros j Hj; lia.
    + specialize (IH (S s)).
      destruct (find f (seq (S s) n)) as [i|].
      * destruct IH as (Hi & Hf & Hfirst).
        split; [lia|]. split; [assumption|].
        intros j Hj. destruct (Nat.eq_dec j s) as [->|]; [assumption|].
        apply Hfirst. lia.
      * intros j Hj. destruct (Nat.eq_dec j s) as [->|]; [assumption|].
        apply IH. lia.
Qed.

Lemma getitem_nth {A} (l : list A) (i : nat) (d : A) :
  (i < length l)%nat -> getitem l i = Ok (nth i l d).
Proof.
  intros H. unfold getitem. now rewrite (nth_error_nth' l d H).
Qed.

(** The percentage curve exists for every non-empty analysis, for the labels
    and, when there are any, for the final labels. *)
Lemma curve_percentage_ok (self : Analysis) (fl : bool) (labels : list Z) :
  nonempty self ->
  labels_of self fl = Some labels ->
  exists x y ye,
    curve "percentage" fl self = Ok (x, y, ye) /\ length x = length y.
Proof.
  intros Hne Hl.
  destruct (get_inc_found_closed self labels (ne_some Hne))
    as (lg & _ & Hclosed & _).
  unfold curve. rewrite Hl, Hclosed. cbn [py_len bind].
  do 3 eexists. split; [reflexivity|].
  cbn [avg]. now rewrite !length_map, length_seq.
Qed.

(** C4: on a non-empty analysis, for the labels (the default) and for the
    final labels when there are any, [wss(val)] returns the tuple of [None]s
    exactly when no step of the percentage curve reaches [val - 1e-6];
    otherwise it returns, for the first step [i] that does, the value
    [y[i] - x[i]] and the bar [(x[i], x[i])], [(x[i] * 1.0, y[i])]. *)
Theorem wss_none_iff_unreached (self : Analysis) (val : Q) (fl : bool)
  (labels : list Z) :
  nonempty self ->
  labels_of self fl = Some labels ->
  exists x y ye,
    fst (inclusions_found "percentage" fl self) = Ok (x, y, ye) /\
    let reached i := np_ge (nth i y NaN) (Fin (Qred (val - eps))) in
    (fst (wss val "percentage" fl self) = Ok None <->
     forall i, (i < length y)%nat -> reached i = false) /\
    (forall i, (i < length y)%nat -> reached i = true ->
       (forall j, (j < i)%nat -> reached j = false) ->
       fst (wss val "percentage" fl self)
       = Ok (Some (np_sub (nth i y NaN) (nth i x NaN),
                   (nth i x NaN, nth i x NaN),
                   (np_mul (nth i x NaN) (Fin 1), nth i y NaN)))).
Proof.
  intros Hne Hl.
  destruct (curve_percentage_ok fl Hne Hl) as (x & y & ye & Hcurve & Hlen).
  exists x, y, ye.
  pose proof (inclusions_found_curve "percentage" fl Hne) as Hfst.
  rewrite Hcurve in Hfst. split; [exact Hfst|].
  intros reached.
  assert (fst (wss val "percentage" fl self)
          = match first_reached (length y) y val with
            | Some i =>
                y_i <- getitem y i ;; x_i <- getitem x i ;;
                xr_i <- getitem x i ;; yr_i <- getitem y i ;;
                Ok (Some (np_sub y_i x_i, (xr_i, xr_i),
                          (np_mul xr_i (Fin 1), yr_i)))
            | None => Ok None
            end) as Hwss.
  { unfold wss.
    destruct (inclusions_found "percentage" fl self) as [r self'].
    simpl in Hfst. subst r. reflexivity. }
  rewrite Hwss. unfold first_reached.
  pose proof (find_seq_first reached (length y) 0) as Hfind.
  fold reached. simpl in Hfind.
  destruct (find reached (seq 0 (length y))) as [i|].
  - destruct Hfind as (Hi & Hr & Hfirst).
    rewrite (getitem_nth y NaN), (getitem_nth x NaN) by lia.
    cbn [bind]. split.
    + split; [discriminate|]. intros H. rewrite (H i) in Hr by lia.
      discriminate.
    + intros i' Hi' Hr' Hfirst'.
      assert (i' = i) as ->; [|reflexivity].
      destruct (Nat.lt_trichotomy i' i) as [Hlt|[Heq|Hgt]]; [|assumption|].
      * rewrite (Hfirst i') in Hr' by lia. discriminate.
      * rewrite (Hfirst' i) in Hr by lia. discriminate.
  - split.
    + split; [|reflexivity]. intros _ i Hi. apply Hfind. lia.
    + intros i Hi Hr _. rewrite (Hfind i) in Hr by lia. discriminate.
Qed.

Lemma nondecreasingb_sound (l : list Z) :
  nondecreasingb l = true -> nondecreasing l.
Proof.
  induction l as [|u l IH]; intros H i x y Hx Hy.
  - destruct i; discriminate.
  - destruct l as [|v l]; [destruct i; discriminate|].
    cbn [nondecreasingb] in H. apply andb_prop in H. destruct H as (Huv & H).
    destruct i as [|i].
    + simpl in Hx, Hy. injection Hx as <-. injection Hy as <-.
      now apply Z.leb_le.
    + apply (IH H i); assumption.
Qed.

(** ** Claims on the stopping limits *)

Lemma append_limits_spec (new_limits : list Z) (L : nat -> list Z)
  (m i : nat) :
  (i + m <= length new_limits)%nat ->
  append_limits (map L (seq i m)) new_limits i
  = Ok (map (fun j => L j ++ [nth j new_limits 0]) (seq i m)).
Proof.
  revert i; induction m as [|m IH]; intros i Hi; [reflexivity|].
  cbn [seq map append_limits].
  rewrite (getitem_nth new_limits 0) by lia. cbn [bind].
  rewrite IH by lia. reflexivity.
Qed.

Lemma n_train_upto_S (lg : logger) (q : nat) :
  match match lg_train_idx lg q with Some v => v | None => None end with
  | Some idx => length idx
  | None => n_train_upto lg q
  end = n_train_upto lg (S q).
Proof. simpl. destruct (lg_train_idx lg q) as [[idx|]|]; reflexivity. Qed.

Lemma limits_loop_spec (self : Analysis) (lg : logger) (probs : list Q)
  (n s : nat) (X : list nat) (L : nat -> list Z) :
  let delegate q :=
    _get_limits (self_loggers self) q (self_labels self) probs in
  (forall q l, (s <= q < s + n)%nat -> delegate q = Some l ->
               (length probs <= length l)%nat) ->
  limits_loop self lg probs (seq s n) (n_train_upto lg s)
    {| x_range := X; limits_of := map L (seq 0 (length probs)) |}
  = Ok {| x_range :=
            X ++ map (fun q => n_train_upto lg (S q))
                   (kept_queries delegate s n);
          limits_of :=
            map (fun j => L j ++ map (limit_at delegate j)
                                   (kept_queries delegate s n))
                (seq 0 (length probs)) |}.
Proof.
  intros delegate. revert s X L.
  induction n as [|n IH]; intros s X L Hlen.
  - cbn [seq limits_loop kept_queries filter map]. rewrite app_nil_r.
    do 2 f_equal. apply map_ext. intros j. now rewrite app_nil_r.
  - cbn [seq limits_loop]. rewrite n_train_upto_S.
    fold (delegate s). unfold kept_queries. cbn [seq filter].
    fold (kept_queries delegate (S s) n).
    destruct (delegate s) as [l|] eqn:Hd.
    + cbn [limits_of x_range].
      rewrite append_limits_spec by (apply (Hlen s l); [lia|assumption]).
      cbn [bind]. rewrite IH by (intros q l' Hq; apply Hlen; lia).
      cbn [map]. rewrite <- app_assoc. cbn [app]. do 2 f_equal.
      apply map_ext. intros j. rewrite <- app_assoc. cbn [app].
      unfold limit_at at 2. now rewrite Hd.
    + cbn [bind]. apply IH. intros q l' Hq; apply Hlen; lia.
Qed.

Lemma nonempty_first_logger (self : Analysis) :
  nonempty self ->
  exists k lg,
    self_first_file self = Some k /\
    dict_get run_key_eqb (self_loggers self) k = Ok lg /\
    hd_error (values (self_loggers self)) = Some lg.
Proof.
  intros Hne. pose proof (ne_first Hne) as Hf. pose proof (ne_some Hne) as Hs.
  destruct (self_loggers self) as [|[k lg] d]; [congruence|].
  exists k, lg. repeat split; [exact Hf|].
  unfold dict_get. simpl. now rewrite run_key_eqb_refl.
Qed.

Lemma append_limits_length (new_limits : list Z) (limits : list (list Z)) :
  forall (i : nat) (lims : list (list Z)),
    append_limits limits new_limits i = Ok lims ->
    length lims = length limits.
Proof.
  induction limits as [|l rest IH]; intros i lims H; cbn [append_limits] in H.
  - now injection H as <-.
  - destruct (getitem new_limits i) as [v|ex]; cbn [bind] in H;
      [|discriminate].
    destruct (append_limits rest new_limits (S i)) as [rest'|ex] eqn:Hr;
      cbn [bind] in H; [|discriminate].
    injection H as <-. cbn [length]. f_equal. exact (IH _ _ Hr).
Qed.

Lemma append_limits_raise (new_limits : list Z) (limits : list (list Z)) :
  forall (i : nat) (e : exn),
    append_limits limits new_limits i = Raise e ->
    e = IndexError /\ (length new_limits < i + length limits)%nat.
Proof.
  induction limits as [|l rest IH]; intros i e H; cbn [append_limits] in H;
    [discriminate|].
  unfold getitem in H.
  destruct (nth_error new_limits i) as [v|] eqn:Hv; cbn [bind] in H.
  - destruct (append_limits rest new_limits (S i)) as [rest'|ex] eqn:Hr;
      cbn [bind] in H; [discriminate|].
    injection H as <-. destruct (IH _ _ Hr) as (-> & Hlen).
    split; [reflexivity|]. cbn [length]. lia.
  - injection H as <-. apply nth_error_None in Hv.
    split; [reflexivity|]. cbn [length]. lia.
Qed.

Lemma append_limits_short (new_limits : list Z) (limits : list (list Z)) :
  forall i : nat,
    (length new_limits < i + length limits)%nat ->
    (i <= length new_limits)%nat ->
    append_limits limits new_limits i = Raise IndexError.
Proof.
  induction limits as [|l rest IH]; intros i H Hi; cbn [length] in H; [lia|].
  cbn [append_limits]. unfold getitem.
  destruct (nth_error new_limits i) as [v|] eqn:Hv; cbn [bind];
    [|reflexivity].
  assert (i < length new_limits)%nat
    by (apply nth_error_Some; congruence).
  rewrite IH by lia. reflexivity.
Qed.

Lemma limits_loop_raise (self : Analysis) (lg : logger) (probs : list Q)
  (n : nat) :
  let delegate q :=
    _get_limits (self_loggers self) q (self_labels self) probs in
  forall (s n_train : nat) (res : limits_result) (e : exn),
    length (limits_of res) = length probs ->
    limits_loop self lg probs (seq s n) n_train res = Raise e ->
    e = IndexError /\
    exists q l, (s <= q < s + n)%nat /\ delegate q = Some l /\
                (length l < length probs)%nat.
Proof.
  intros delegate. induction n as [|n IH]; intros s nt res e Hlen H;
    cbn [seq limits_loop] in H; [discriminate|].
  fold (delegate s) in H.
  destruct (delegate s) as [l0|] eqn:Hd.
  - destruct (append_limits (limits_of res) l0 0) as [lims|ex] eqn:Ha;
      cbn [bind] in H.
    + apply IH in H.
      * destruct H as (-> & q & l & Hq & Hdq & Hl).
        split; [reflexivity|]. exists q, l. repeat split; try assumption; lia.
      * cbn [limits_of]. rewrite (append_limits_length _ _ _ Ha). exact Hlen.
    + injection H as <-. destruct (append_limits_raise _ _ _ Ha) as (-> & Hs).
      split; [reflexivity|]. exists s, l0. repeat split; try lia; assumption.
  - cbn [bind] in H. apply IH in H; [|exact Hlen].
    destruct H as (-> & q & l & Hq & Hdq & Hl).
    split; [reflexivity|]. exists q, l. repeat split; try assumption; lia.
Qed.

Lemma limits_loop_short (self : Analysis) (lg : logger) (probs : list Q)
  (n : nat) :
  let delegate q :=
    _get_limits (self_loggers self) q (self_labels self) probs in
  forall (s n_train : nat) (res : limits_result),
    length (limits_of res) = length probs ->
    (exists q l, (s <= q < s + n)%nat /\ delegate q = Some l /\
                 (length l < length probs)%nat) ->
    limits_loop self lg probs (seq s n) n_train res = Raise IndexError.
Proof.
  intros delegate. induction n as [|n IH];
    intros s nt res Hlen (q & l & Hq & Hdq & Hl); [lia|].
  cbn [seq limits_loop]. fold (delegate s).
  destruct (Nat.eq_dec q s) as [->|Hqs].
  - rewrite Hdq. rewrite append_limits_short by lia. reflexivity.
  - assert (exists q l, (S s <= q < S s + n)%nat /\ delegate q = Some l /\
                        (length l < length probs)%nat) as Hex
      by (exists q, l; repeat split; try assumption; lia).
    destruct (delegate s) as [l0|] eqn:Hd.
    + destruct (append_limits (limits_of res) l0 0) as [lims|ex] eqn:Ha;
        cbn [bind].
      * apply IH; [|exact Hex].
        cbn [limits_of]. rewrite (append_limits_length _ _ _ Ha). exact Hlen.
      * now destruct (append_limits_raise _ _ _ Ha) as (-> & _).
    + cbn [bind]. apply IH; assumption.
Qed.

(** The conversions of the results to integer arrays. *)
Lemma forallb_false {A} (f : A -> bool) (l : list A) :
  forallb f l = false -> exists v, In v l /\ f v = false.
Proof.
  induction l as [|x l IH]; cbn [forallb]; [discriminate|].
  destruct (f x) eqn:Hx; cbn [andb].
  - intros H. destruct (IH H) as (v & Hin & Hv). exists v. split; [now right|exact Hv].
  - intros _. exists x. split; [now left|exact Hx].
Qed.

Lemma np_int_array_ok (values : list Z) :
  (forall v, In v values -> c_long_fits v = true) ->
  np_int_array values = Ok values.
Proof.
  intros H. unfold np_int_array.
  now rewrite (proj2 (forallb_forall c_long_fits values) H).
Qed.

Lemma np_int_array_raise (values : list Z) (e : exn) :
  np_int_array values = Raise e ->
  e = OverflowError /\ exists v, In v values /\ c_long_fits v = false.
Proof.
  unfold np_int_array.
  destruct (forallb c_long_fits values) eqn:Hf; [discriminate|].
  intros H. injection H as <-. split; [reflexivity|].
  now apply forallb_false.
Qed.

Lemma np_int_array_keeps (values values' : list Z) :
  np_int_array values = Ok values' -> values' = values.
Proof.
  unfold np_int_array. destruct (forallb c_long_fits values); [|discriminate].
  intros H. now injection H as <-.
Qed.

Lemma convert_limits_ok (limits : list (list Z)) :
  (forall l v, In l limits -> In v l -> c_long_fits v = true) ->
  convert_limits limits = Ok limits.
Proof.
  induction limits as [|l rest IH]; intros H; [reflexivity|].
  cbn [convert_limits].
  rewrite np_int_array_ok by (intros v Hv; apply (H l v); [now left|exact Hv]).
  cbn [bind]. rewrite IH by (intros l' v Hl'; apply H; now right).
  reflexivity.
Qed.

Lemma convert_limits_raise (limits : list (list Z)) (e : exn) :
  convert_limits limits = Raise e ->
  e = OverflowError /\
  exists l v, In l limits /\ In v l /\ c_long_fits v = false.
Proof.
  induction limits as [|l rest IH]; cbn [convert_limits]; [discriminate|].
  destruct (np_int_array l) as [l'|ex] eqn:Hl; cbn [bind].
  - destruct (convert_limits rest) as [rest'|ex] eqn:Hr; cbn [bind];
      [discriminate|].
    intros H. injection H as <-.
    destruct (IH eq_refl) as (-> & l0 & v & Hl0 & Hv & Hfit).
    split; [reflexivity|]. exists l0, v. repeat split; [now right|assumption..].
  - intros H. injection H as <-.
    destruct (np_int_array_raise _ Hl) as (-> & v & Hv & Hfit).
    split; [reflexivity|]. exists l, v. repeat split; [now left|assumption..].
Qed.

Lemma convert_limits_keeps (limits limits' : list (list Z)) :
  convert_limits limits = Ok limits' -> limits' = limits.
Proof.
  revert limits'. induction limits as [|l rest IH]; intros limits';
    cbn [convert_limits].
  - intros H. now injection H as <-.
  - destruct (np_int_array l) as [l'|ex] eqn:Hl; cbn [bind]; [|discriminate].
    destruct (convert_limits rest) as [rest'|ex] eqn:Hr; cbn [bind];
      [|discriminate].
    intros H. injection H as <-.
    now rewrite (np_int_array_keeps _ Hl), (IH _ eq_refl).
Qed.

Lemma map_to_nat_of_nat (l : list nat) : map Z.to_nat (map Z.of_nat l) = l.
Proof.
  rewrite map_map. rewrite <- (map_id l) at 2. apply map_ext.
  intros n. apply Nat2Z.id.
Qed.

(** The query loop of [limits] either comes to its end, every result of the
    delegate having enough values, or stops with an [IndexError] at a result
    that is too short. *)
Lemma limits_loop_cases (self : Analysis) (lg : logger) (probs : list Q)
  (n : nat) :
  let delegate q :=
    _get_limits (self_loggers self) q (self_labels self) probs in
  let kept := kept_queries delegate 0 n in
  let loop :=
    limits_loop self lg probs (seq 0 n) 0
      {| x_range := [];
         limits_of := map (fun _ => []) (seq 0 (length probs)) |} in
  ((forall q l, (q < n)%nat -> delegate q = Some l ->
                (length probs <= length l)%nat) /\
   loop = Ok {| x_range := map (fun q => n_train_upto lg (S q)) kept;
                limits_of :=
                  map (fun j => map (limit_at delegate j) kept)
                      (seq 0 (length probs)) |}) \/
  ((exists q l, (q < n)%nat /\ delegate q = Some l /\
                (length l < length probs)%nat) /\
   loop = Raise IndexError).
Proof.
  intros delegate kept loop.
  assert (length (limits_of
                    {| x_range := [];
                       limits_of :=
                         map (fun _ : nat => @nil Z)
                           (seq 0 (length probs)) |})
          = length probs) as Hlen
    by (cbn [limits_of]; now rewrite length_map, length_seq).
  destruct loop as [res|e] eqn:Hloop.
  - left.
    assert (forall q l, (q < n)%nat -> delegate q = Some l ->
                        (length probs <= length l)%nat) as Henough.
    { intros q l Hq Hd.
      destruct (le_lt_dec (length probs) (length l)) as [Hle|Hlt];
        [exact Hle|exfalso].
      pose proof (@limits_loop_short self lg probs n 0%nat 0%nat _ Hlen) as Hs.
      fold loop in Hs. rewrite Hloop in Hs.
      enough (Ok res = Raise IndexError) by discriminate.
      apply Hs. exists q, l. repeat split; try assumption; lia. }
    split; [exact Henough|].
    rewrite <- Hloop. unfold loop.
    apply (@limits_loop_spec self lg probs n 0%nat [] (fun _ => [])).
    intros q l Hq. apply Henough. lia.
  - right. unfold loop in Hloop.
    destruct (limits_loop_raise _ _ _ _ _ _ _ Hlen Hloop)
      as (-> & q & l & Hq & Hd & Hl).
    split; [|reflexivity]. exists q, l. repeat split; try assumption; lia.
Qed.

(** [limits] on a non-empty analysis: the query loop over the first logger,
    followed by the conversions. *)
Lemma limits_unfold (self : Analysis) (prob_allow_miss : prob_arg)
  (lg : logger) :
  nonempty self ->
  hd_error (values (self_loggers self)) = Some lg ->
  limits prob_allow_miss self
  = (results <-
       limits_loop self lg (prob_list prob_allow_miss)
         (seq 0 (lg_n_queries lg)) 0
         {| x_range := [];
            limits_of :=
              map (fun _ => [])
                (seq 0 (length (prob_list prob_allow_miss))) |} ;;
     x_range' <- np_int_array (map Z.of_nat (x_range results)) ;;
     limits' <- convert_limits (limits_of results) ;;
     Ok {| x_range := map Z.to_nat x_range'; limits_of := limits' |}).
Proof.
  intros Hne Hlg.
  destruct (nonempty_first_logger Hne) as (k & lg' & Hk & Hget & Hhd).
  assert (lg' = lg) as -> by congruence.
  unfold limits. rewrite Hk. cbn [getattr bind]. rewrite Hget.
  reflexivity.
Qed.

Lemma n_train_upto_fits (lg : logger) :
  (forall q idx, lg_train_idx lg q = Some (Some idx) ->
                 c_long_fits (Z.of_nat (length idx)) = true) ->
  forall q, c_long_fits (Z.of_nat (n_train_upto lg q)) = true.
Proof.
  intros H. induction q as [|q IH]; [reflexivity|].
  cbn [n_train_upto].
  destruct (lg_train_idx lg q) as [[idx|]|] eqn:Hq;
    [exact (H q idx Hq)|exact IH|exact IH].
Qed.

Lemma kept_queries_in (delegate : nat -> option (list Z)) (s n q : nat) :
  In q (kept_queries delegate s n) ->
  (s <= q < s + n)%nat /\ exists l, delegate q = Some l.
Proof.
  unfold kept_queries. rewrite filter_In, in_seq. intros (Hq & Hd).
  split; [exact Hq|]. destruct (delegate q) as [l|]; [now exists l|discriminate].
Qed.

(** C6: [limits] records an entry, in [x_range] and in the sequence of every
    probability, exactly at the queries for which the delegate returns a
    result; the [x_range] entry of such a query is the size of the most
    recent train-index snapshot up to it (0 before the first one); all the
    sequences have the length of [x_range].  This holds of every result that
    [limits] returns, and [limits] returns when the delegate gives one value
    per probability and the values and the snapshot sizes fit the integer
    arrays. *)
Theorem limits_skips_null_steps (self : Analysis) (prob_allow_miss : prob_arg)
  (lg : logger) :
  nonempty self ->
  hd_error (values (self_loggers self)) = Some lg ->
  let probs := prob_list prob_allow_miss in
  let delegate q :=
    _get_limits (self_loggers self) q (self_labels self) probs in
  let kept := kept_queries delegate 0 (lg_n_queries lg) in
  (forall r,
     limits prob_allow_miss self = Ok r ->
     x_range r = map (fun q => n_train_upto lg (S q)) kept /\
     limits_of r
     = map (fun i_prob => map (limit_at delegate i_prob) kept)
           (seq 0 (length probs)) /\
     length (limits_of r) = length probs /\
     forall l, In l (limits_of r) -> length l = length (x_range r)) /\
  ((forall q l, (q < lg_n_queries lg)%nat -> delegate q = Some l ->
                (length probs <= length l)%nat /\
                forall v, In v l -> c_long_fits v = true) ->
   (forall q idx, lg_train_idx lg q = Some (Some idx) ->
                  c_long_fits (Z.of_nat (length idx)) = true) ->
   exists r, limits prob_allow_miss self = Ok r).
Proof.
  intros Hne Hlg probs delegate kept.
  rewrite (limits_unfold prob_allow_miss Hne Hlg). fold probs.
  destruct (@limits_loop_cases self lg probs (lg_n_queries lg))
    as [(Henough & Hloop)|(_ & Hloop)];
    cbv zeta in Hloop; fold delegate in Hloop; fold kept in Hloop;
    rewrite Hloop; cbn [bind x_range limits_of].
  - split.
    + intros r Hr.
      destruct (np_int_array _) as [x'|ex] eqn:Hx; cbn [bind] in Hr;
        [|discriminate].
      destruct (convert_limits _) as [lims|ex] eqn:Hc; cbn [bind] in Hr;
        [|discriminate].
      injection Hr as <-. cbn [x_range limits_of].
      rewrite (np_int_array_keeps _ Hx), (convert_limits_keeps _ Hc).
      rewrite map_to_nat_of_nat.
      repeat split.
      * now rewrite length_map, length_seq.
      * intros l Hl. apply in_map_iff in Hl. destruct Hl as (j & <- & _).
        now rewrite !length_map.
    + intros Hvals Hsnap.
      rewrite np_int_array_ok.
      2:{ intros v Hv. apply in_map_iff in Hv. destruct Hv as (t & <- & Ht).
          apply in_map_iff in Ht. destruct Ht as (q & <- & _).
          now apply n_train_upto_fits. }
      cbn [bind]. rewrite convert_limits_ok.
      2:{ intros l v Hl Hv.
          apply in_map_iff in Hl. destruct Hl as (j & <- & Hj).
          apply in_map_iff in Hv. destruct Hv as (q & <- & Hq).
          apply in_seq in Hj.
          apply kept_queries_in in Hq. destruct Hq as (Hq & l & Hd).
          destruct (Hvals q l) as (Hlen & Hfit); [lia|exact Hd|].
          unfold limit_at. fold (delegate q). rewrite Hd.
          apply Hfit. apply nth_In. lia. }
      cbn [bind]. eexists. reflexivity.
  - split.
    + intros r Hr. discriminate.
    + intros Hvals _. exfalso.
      destruct (@limits_loop_cases self lg probs (lg_n_queries lg))
        as [(_ & Hloop')|((q & l & Hq & Hd & Hl) & _)].
      * cbv zeta in Hloop'. fold delegate in Hloop'. fold kept in Hloop'.
        congruence.
      * destruct (Hvals q l Hq Hd) as (Hlen & _). lia.
Qed.

(** ** Claims on the discovery times *)

Lemma tabulate_ext {V} (keys : list nat) (g g' : nat -> V) :
  (forall k, In k keys -> g k = g' k) -> tabulate keys g = tabulate keys g'.
Proof.
  intros H. unfold tabulate. apply map_ext_in. intros k Hk. now rewrite H.
Qed.

Lemma dict_find_tabulate {V} (keys : list nat) (g : nat -> V) (k : nat) :
  In k keys -> dict_find Nat.eqb (tabulate keys g) k = Some (g k).
Proof.
  induction keys as [|k' keys IH]; intros Hin; [contradiction|].
  cbn [tabulate map dict_find].
  destruct (Nat.eqb_spec k k') as [->|Hne]; [reflexivity|].
  destruct Hin as [->|Hin]; [congruence|]. now apply IH.
Qed.

Lemma dict_update_tabulate {V} (keys : list nat) (g : nat -> V) (k : nat)
  (f : V -> V) :
  NoDup keys ->
  dict_update Nat.eqb (tabulate keys g) k f
  = tabulate keys (fun k' => if Nat.eqb k' k then f (g k') else g k').
Proof.
  induction keys as [|k' keys IH]; intros Hnd; [reflexivity|].
  inversion Hnd as [|? ? Hnotin Hnd']; subst.
  cbn [tabulate map dict_update].
  destruct (Nat.eqb_spec k k') as [->|Hne].
  - rewrite Nat.eqb_refl. f_equal.
    apply map_ext_in. intros k Hk.
    destruct (Nat.eqb_spec k k') as [->|]; [contradiction|reflexivity].
  - destruct (Nat.eqb_spec k' k) as [->|_]; [congruence|].
    f_equal. now apply IH.
Qed.

Lemma append_time_tabulate (keys : list nat) (g : nat -> list nat)
  (k t : nat) :
  NoDup keys -> In k keys ->
  append_time (tabulate keys g) k t
  = Ok (tabulate keys (fun k' => if Nat.eqb k' k then g k' ++ [t] else g k')).
Proof.
  intros Hnd Hin. unfold append_time, dict_get.
  rewrite (dict_find_tabulate _ _ _ Hin). cbn [bind].
  now rewrite dict_update_tabulate.
Qed.

Lemma where_one_in (labels : list Z) (k : nat) :
  In k (where_one (Some labels)) <->
  (k < length labels)%nat /\ nth k labels 0 = 1.
Proof.
  unfold where_one. rewrite filter_In, in_seq, Z.eqb_eq. intuition lia.
Qed.

Lemma where_one_NoDup (labels : option (list Z)) : NoDup (where_one labels).
Proof.
  destruct labels as [l|]; [|constructor].
  apply NoDup_filter, seq_NoDup.
Qed.

Lemma label_at_ok (labels : list Z) (idx : nat) :
  (idx < length labels)%nat ->
  label_at (Some labels) idx = Ok (nth idx labels 0).
Proof. intros H. now apply getitem_nth. Qed.

Lemma occ_notin (k : nat) (order : list nat) (i : nat) :
  ~ In k order -> occ k order i = [] /\ index_from k order i = None.
Proof.
  revert i; induction order as [|x rest IH]; intros i Hn; [now split|].
  cbn [occ index_from].
  destruct (Nat.eqb_spec k x) as [->|_]; [exfalso; apply Hn; now left|].
  apply IH. intros H. apply Hn. now right.
Qed.

Lemma occ_NoDup (k : nat) (order : list nat) (i : nat) :
  NoDup order ->
  occ k order i
  = match index_from k order i with Some t => [t] | None => [] end.
Proof.
  revert i; induction order as [|x rest IH]; intros i Hnd; [reflexivity|].
  inversion Hnd as [|? ? Hnotin Hnd']; subst.
  cbn [occ index_from].
  destruct (Nat.eqb_spec k x) as [->|_].
  - now rewrite (proj1 (@occ_notin x rest (S i) Hnotin)).
  - now apply IH.
Qed.

(** The walk over the label order appends, for every relevant item, the
    positions at which it occurs. *)
Lemma walk_label_order_spec (labels : list Z) (order : list nat) :
  let keys := where_one (Some labels) in
  forall (i : nat) (g : nat -> list nat),
    (forall idx, In idx order -> (idx < length labels)%nat) ->
    walk_label_order (Some labels) order i (tabulate keys g)
    = Ok (tabulate keys (fun k => g k ++ occ k order i)).
Proof.
  intros keys. induction order as [|idx rest IH]; intros i g Hin.
  - cbn [walk_label_order occ]. f_equal. apply tabulate_ext.
    intros k _. now rewrite app_nil_r.
  - cbn [walk_label_order].
    rewrite label_at_ok by (apply Hin; now left). cbn [bind].
    destruct (Z.eqb_spec (nth idx labels 0) 1) as [Hone|Hnot].
    + assert (In idx keys) as Hk
        by (apply where_one_in; split; [apply Hin; now left|assumption]).
      rewrite append_time_tabulate; [|apply where_one_NoDup|exact Hk].
      cbn [bind]. rewrite IH by (intros; apply Hin; now right).
      f_equal. apply tabulate_ext. intros k _. cbn [occ].
      destruct (Nat.eqb k idx); [now rewrite <- app_assoc|reflexivity].
    + cbn [bind]. rewrite IH by (intros; apply Hin; now right).
      f_equal. apply tabulate_ext. intros k Hk. cbn [occ].
      destruct (Nat.eqb_spec k idx) as [->|_]; [|reflexivity].
      apply where_one_in in Hk. tauto.
Qed.

(** The walk over the last ranking appends the rank of the first occurrence
    of every relevant item that has no time for the current run yet. *)
Lemma walk_proba_order_spec (labels : list Z) (i_file len_lo : nat)
  (order : list nat) :
  let keys := where_one (Some labels) in
  forall (i : nat) (g : nat -> list nat),
    (forall idx, In idx order -> (idx < length labels)%nat) ->
    (forall k, In k keys -> (i_file <= length (g k))%nat) ->
    walk_proba_order (Some labels) i_file len_lo order i (tabulate keys g)
    = Ok (tabulate keys
            (fun k =>
               g k ++
               (if Nat.leb (length (g k)) i_file then
                  match index_from k order i with
                  | Some t => [t + len_lo]%nat
                  | None => []
                  end
                else []))).
Proof.
  intros keys. induction order as [|idx rest IH]; intros i g Hin Hlen.
  - cbn [walk_proba_order index_from]. f_equal. apply tabulate_ext.
    intros k _. destruct (Nat.leb (length (g k)) i_file);
      now rewrite app_nil_r.
  - cbn [walk_proba_order].
    rewrite label_at_ok by (apply Hin; now left). cbn [bind].
    assert (forall idx', In idx' rest -> (idx' < length labels)%nat) as Hin'
      by (intros; apply Hin; now right).
    destruct (Z.eqb_spec (nth idx labels 0) 1) as [Hone|Hnot].
    + assert (In idx keys) as Hk
        by (apply where_one_in; split; [apply Hin; now left|assumption]).
      unfold dict_get. rewrite (dict_find_tabulate _ _ _ Hk). cbn [bind].
      destruct (Nat.leb_spec (length (g idx)) i_file) as [Hle|Hgt].
      * rewrite append_time_tabulate; [|apply where_one_NoDup|exact Hk].
        cbn [bind]. rewrite IH; [|exact Hin'|].
        2:{ intros k Hk'. specialize (Hlen k Hk').
            destruct (Nat.eqb k idx); [rewrite length_app|]; simpl; lia. }
        f_equal. apply tabulate_ext. intros k Hk'. cbn [index_from].
        specialize (Hlen k Hk').
        destruct (Nat.eqb_spec k idx) as [->|_]; [|reflexivity].
        rewrite length_app. cbn [length].
        destruct (Nat.leb_spec (length (g idx) + 1) i_file); [lia|].
        destruct (Nat.leb_spec (length (g idx)) i_file); [|lia].
        now rewrite app_nil_r.
      * cbn [bind]. rewrite IH; [|exact Hin'|exact Hlen].
        f_equal. apply tabulate_ext. intros k Hk'. cbn [index_from].
        destruct (Nat.eqb_spec k idx) as [->|_]; [|reflexivity].
        destruct (Nat.leb_spec (length (g idx)) i_file); [lia|reflexivity].
    + cbn [bind]. rewrite IH; [|exact Hin'|exact Hlen].
      f_equal. apply tabulate_ext. intros k Hk. cbn [index_from].
      destruct (Nat.eqb_spec k idx) as [->|_]; [|reflexivity].
      apply where_one_in in Hk. tauto.
Qed.

Lemma fill_missing_spec (i_file sentinel : nat) (keys : list nat)
  (g : nat -> list nat) :
  fill_missing i_file sentinel (tabulate keys g)
  = tabulate keys
      (fun k => if Nat.leb (length (g k)) i_file
                then g k ++ [sentinel] else g k).
Proof.
  unfold fill_missing, tabulate. rewrite map_map. apply map_ext.
  intros k. cbn [fst snd]. now destruct (Nat.leb (length (g k)) i_file).
Qed.

(** What the three loops over one run do to the times of one item. *)
Lemma one_run_time (recorded : list nat) (i_file : nat)
  (in_labels in_proba : option nat) (len_lo len_po : nat) :
  length recorded = i_file ->
  let g1 := recorded ++ match in_labels with Some t => [t] | None => [] end in
  let g2 :=
    g1 ++ (if Nat.leb (length g1) i_file then
             match in_proba with Some t => [t + len_lo]%nat | None => [] end
           else []) in
  (if Nat.leb (length g2) i_file then g2 ++ [len_lo + len_po]%nat else g2)
  = recorded ++
    [match in_labels with
     | Some t => t
     | None =>
         match in_proba with
         | Some t => (t + len_lo)%nat
         | None => (len_lo + len_po)%nat
         end
     end].
Proof.
  intros Hlen g1 g2. subst g2 g1.
  assert (Nat.leb (length recorded) i_file = true) as Ht
    by (apply Nat.leb_le; lia).
  assert (forall x, Nat.leb (length (recorded ++ [x])) i_file = false) as Hf
    by (intros; apply Nat.leb_gt; rewrite length_app; simpl; lia).
  destruct in_labels as [t|], in_proba as [t'|];
    repeat (rewrite ?app_nil_r; rewrite ?Hf; rewrite ?Ht);
    reflexivity.
Qed.

(** One run appends exactly one time to every relevant item: the discovery
    time of the item in that run. *)
Lemma walk_runs_spec (labels : list Z) (runs : list logger) :
  let keys := where_one (Some labels) in
  forall (i_file : nat) (g : nat -> list nat) (n_initial : list nat),
    (forall k, In k keys -> length (g k) = i_file) ->
    (forall lg, In lg runs -> run_wf labels lg) ->
    walk_runs (Some labels) runs i_file (tabulate keys g) n_initial
    = Ok (tabulate keys
            (fun k => g k ++ map (fun lg => discovery_time lg k) runs),
          n_initial ++ map seed_size runs).
Proof.
  intros keys. induction runs as [|lg rest IH]; intros i_file g ninit Hlen Hwf.
  - cbn [walk_runs map]. rewrite app_nil_r. do 2 f_equal.
    apply tabulate_ext. intros k _. now rewrite app_nil_r.
  - destruct (Hwf lg (or_introl eq_refl)) as (Hnd & Hlo & Hpo).
    cbn [walk_runs].
    assert (forall k, discovery_time lg k
            = match index_from k (fst (_get_labeled_order lg)) 0 with
              | Some t => t
              | None =>
                  match index_from k (_get_last_proba_order lg) 0 with
                  | Some t => (t + length (fst (_get_labeled_order lg)))%nat
                  | None => (length (fst (_get_labeled_order lg))
                             + length (_get_last_proba_order lg))%nat
                  end
              end) as Hdt by reflexivity.
    destruct (_get_labeled_order lg) as [label_order n] eqn:Elo.
    cbn [fst snd] in *.
    rewrite walk_label_order_spec by exact Hlo. cbn [bind].
    fold keys.
    rewrite walk_proba_order_spec; [|exact Hpo|].
    2:{ intros k Hk. rewrite length_app, (Hlen k Hk). lia. }
    cbn [bind]. fold keys. rewrite fill_missing_spec.
    rewrite (tabulate_ext keys _ (fun k => g k ++ [discovery_time lg k])).
    2:{ intros k Hk. rewrite (occ_NoDup k 0 Hnd), Hdt.
        apply one_run_time. now apply Hlen. }
    rewrite IH; [|
      |intros lg' Hlg'; apply Hwf; now right].
    + cbn [map]. rewrite <- app_assoc. cbn [app].
      unfold seed_size. rewrite Elo. cbn [snd]. f_equal. f_equal.
      apply tabulate_ext. intros k Hk. now rewrite <- app_assoc.
    + intros k Hk. rewrite length_app, (Hlen k Hk). cbn [length]. lia.
Qed.

Lemma trained_times_spec (runs : list logger) (k : nat) :
  forall pre : list nat,
    trained_times (pre ++ map seed_size runs)
      (map (fun lg => discovery_time lg k) runs) (length pre)
    = Ok (qualifying runs k).
Proof.
  induction runs as [|lg rest IH]; intros pre; [reflexivity|].
  cbn [map trained_times]. unfold getitem at 1.
  rewrite nth_error_app2, Nat.sub_diag by lia. cbn [nth_error bind].
  replace (pre ++ seed_size lg :: map seed_size rest)
    with ((pre ++ [seed_size lg]) ++ map seed_size rest)
    by (now rewrite <- app_assoc).
  replace (S (length pre)) with (length (pre ++ [seed_size lg]))
    by (rewrite length_app; simpl; lia).
  rewrite IH. cbn [bind]. unfold qualifying. cbn [flat_map].
  now destruct (Nat.leb (seed_size lg) (discovery_time lg k)).
Qed.

Lemma average_trained_spec (n_initial : list nat) (keys : list nat)
  (g q : nat -> list nat) :
  (forall k, In k keys -> trained_times n_initial (g k) 0 = Ok (q k)) ->
  average_trained n_initial (tabulate keys g)
  = Ok (tabulate keys (fun k => avg_or_zero (q k))).
Proof.
  induction keys as [|k keys IH]; intros H; [reflexivity|].
  cbn [tabulate map average_trained].
  rewrite (H k (or_introl eq_refl)). cbn [bind].
  fold (tabulate keys g). rewrite IH by (intros; apply H; now right).
  reflexivity.
Qed.

Lemma qualifying_nil (runs : list logger) (idx : nat) :
  (forall lg, In lg runs -> (discovery_time lg idx < seed_size lg)%nat) ->
  qualifying runs idx = [].
Proof.
  induction runs as [|lg rest IH]; intros H; [reflexivity|].
  unfold qualifying. cbn [flat_map].
  pose proof (H lg (or_introl eq_refl)).
  destruct (Nat.leb_spec (seed_size lg) (discovery_time lg idx)); [lia|].
  apply IH. intros; apply H; now right.
Qed.

(** C5: over runs in which no item is labelled twice and every index is an
    index of Labels, [avg_time_to_discovery] returns one entry per relevant
    item; the entry is the average of the discovery times of the item that
    are at least the [n_initial] of the run they come from, and 0 when there
    is none, in particular when every run discovers the item before its
    [n_initial]. *)
Theorem avg_time_to_discovery_trained_only (self : Analysis)
  (labels : list Z) :
  self_labels self = Some labels ->
  (forall lg, In lg (values (self_loggers self)) -> run_wf labels lg) ->
  let runs := values (self_loggers self) in
  exists results,
    avg_time_to_discovery self = Ok results /\
    keys results = where_one (Some labels) /\
    (forall idx, In idx (where_one (Some labels)) ->
       dict_find Nat.eqb results idx
       = Some (if Nat.eqb (length (qualifying runs idx)) 0 then 0%Q
               else np_average (qualifying runs idx))) /\
    (forall idx, In idx (where_one (Some labels)) ->
       (forall lg, In lg runs ->
                   (discovery_time lg idx < seed_size lg)%nat) ->
       dict_find Nat.eqb results idx = Some 0%Q).
Proof.
  intros Hl Hwf runs.
  exists (tabulate (where_one (Some labels))
            (fun idx => avg_or_zero (qualifying runs idx))).
  split; [|split; [|split]].
  - unfold avg_time_to_discovery. rewrite Hl.
    change (map (fun label : nat => (label, [])) (where_one (Some labels)))
      with (tabulate (where_one (Some labels)) (fun _ : nat => @nil nat)).
    rewrite walk_runs_spec by (auto). cbn [bind app].
    apply average_trained_spec. intros k _.
    apply (trained_times_spec (values (self_loggers self)) k []).
  - unfold keys, tabulate. rewrite map_map. cbn [fst]. apply map_id.
  - intros idx Hidx. now rewrite dict_find_tabulate.
  - intros idx Hidx Hseed. rewrite dict_find_tabulate by assumption.
    now rewrite (qualifying_nil _ _ Hseed).
Qed.

(** ** The cache entry that [wss] reads for the format ["number"] *)

Lemma scale_percentage (len_labels : Z) (e : inc_entry) :
  scale "percentage" len_labels e
  = Ok (map (fun i =>
               np_div (Fin (qn i))
                 (Fin (Qred (qz (len_labels - n_initial e) / 100))))
            (seq 0 (length (avg e))),
        map (fun a => np_div (Fin a)
                        (Fin (Qred (qz (inc_after_init e) / 100)))) (avg e),
        map (fun a => np_div (Fin a)
                        (Fin (Qred (qz (inc_after_init e) / 100)))) (err e)).
Proof. reflexivity. Qed.

(** C10: [wss] with [x_format = "number"] takes [y_max] and [y_coef] from
    the cache entry of the key [False], whatever [final_labels] is.  On a
    new analysis with final labels (at least one, and a non-zero
    [inc_after_init]), [wss(val, "number", final_labels=True)] raises
    [KeyError] and leaves a cache in which the entry of [True] is filled
    and the entry of [False] is absent.  On a new analysis without final
    labels the call raises [TypeError] before it gets there, and leaves the
    empty dictionary under [True].  When both entries are filled, the curve
    that is searched and the bar positions come from the final-labels entry,
    and the coefficient of the x position is
    [inc_after_init / (len(self.labels) - n_initial)] of the entry of
    [False]. *)
Theorem wss_number_reads_false_entry (self : Analysis) (val : Q) :
  (forall flabels,
     self_loggers self <> [] ->
     self_inc_found self = Some cache_empty ->
     self_final_labels self = Some flabels ->
     flabels <> [] ->
     exists a e iai ninit,
       _get_inc_found self (Some flabels) = Ok (a, e, iai, ninit) /\
       (iai <> 0 ->
        wss val "number" true self
        = (Raise KeyError,
           set_inc_found self
             {| at_false := None;
                at_true :=
                  Some (Some {| avg := a; err := e;
                                inc_after_init := iai;
                                n_initial := ninit |}) |}))) /\
  (self_inc_found self = Some cache_empty ->
   self_final_labels self = None ->
   wss val "number" true self
   = (Raise TypeError,
      set_inc_found self {| at_false := None; at_true := Some None |})) /\
  (forall c ef et labels flabels px py pe nx ny ne,
     self_inc_found self = Some c ->
     cache_get c false = Some (Some ef) ->
     cache_get c true = Some (Some et) ->
     self_labels self = Some labels ->
     self_final_labels self = Some flabels ->
     scale "percentage" (Z.of_nat (length flabels)) et = Ok (px, py, pe) ->
     scale "number" (Z.of_nat (length flabels)) et = Ok (nx, ny, ne) ->
     wss val "number" true self
     = (y_coef <- py_div (qz (inc_after_init ef))
                    (qz (Z.of_nat (length labels) - n_initial ef)) ;;
        match first_reached (length py) py val with
        | Some i =>
            y_i <- getitem py i ;;
            x_i <- getitem px i ;;
            xr_i <- getitem nx i ;;
            yr_i <- getitem ny i ;;
            Ok (Some (np_sub y_i x_i, (xr_i, xr_i),
                      (np_mul xr_i (Fin y_coef), yr_i)))
        | None => Ok None
        end,
        self)).
Proof.
  split; [|split].
  - intros flabels Hruns Hc Hfl HN.
    destruct (get_inc_found_total self flabels Hruns)
      as (a & e & iai & ninit & Hcomp).
    exists a, e, iai, ninit. split; [exact Hcomp|]. intros Hi.
    assert (Z.of_nat (length flabels) <> 0) as HN'
      by (destruct flabels; [congruence|simpl; lia]).
    unfold wss, inclusions_found. rewrite Hc, Hfl. cbn [cache_get cache_empty
      at_true]. rewrite Hcomp. cbn [cache_set at_true at_false].
    unfold normalise at 1. cbn [py_len bind entry_get cache_get at_true].
    rewrite scale_percentage.
    cbn [String.eqb Ascii.eqb Bool.eqb self_inc_found set_inc_found
           self_final_labels cache_get at_true].
    rewrite Hfl.
    unfold normalise. cbn [py_len bind entry_get cache_get at_true].
    rewrite scale_number by assumption.
    reflexivity.
  - intros Hc Hfl.
    unfold wss, inclusions_found. rewrite Hc, Hfl.
    reflexivity.
  - intros c ef et labels flabels px py pe nx ny ne
      Hc Hf Ht Hl Hfl Hpct Hnum.
    unfold wss, inclusions_found. rewrite Hc, Hfl, Ht.
    unfold normalise at 1, entry_get at 1. rewrite Ht.
    cbn [py_len bind]. rewrite Hpct.
    cbn [String.eqb Ascii.eqb Bool.eqb]. rewrite Hc, Hfl, Ht.
    unfold normalise, entry_get at 1. rewrite Ht. cbn [py_len bind].
    rewrite Hnum. rewrite Hc. cbn [getattr bind fst].
    unfold entry_get. rewrite Hf, Hl. cbn [bind py_len].
    destruct (py_div (qz (inc_after_init ef))
                (qz (Z.of_nat (length labels) - n_initial ef)));
      reflexivity.
Qed.

(** ** Labels come from the first logger only *)

Section Noninterference.

Hypothesis Hhelpers : helpers_ignore_labels.

Lemma same_runs_values (d1 d2 : dict run_key logger) :
  same_runs d1 d2 -> Forall2 same_run (values d1) (values d2).
Proof.
  induction 1 as [|[k1 l1] [k2 l2] d1 d2 [_ Hr] _ IH]; constructor; auto.
Qed.

Lemma same_runs_length (d1 d2 : dict run_key logger) :
  same_runs d1 d2 -> length d1 = length d2.
Proof. induction 1; simpl; congruence. Qed.

Lemma same_runs_get (d1 d2 : dict run_key logger) (k : run_key) :
  same_runs d1 d2 ->
  match dict_get run_key_eqb d1 k, dict_get run_key_eqb d2 k with
  | Ok l1, Ok l2 => same_run l1 l2
  | Raise e1, Raise e2 => e1 = e2
  | _, _ => False
  end.
Proof.
  unfold dict_get.
  induction 1 as [|[k1 l1] [k2 l2] d1 d2 [Hk Hr] _ IH]; [reflexivity|].
  simpl in Hk. subst k2. cbn [dict_find].
  destruct (run_key_eqb k k1); [exact Hr|exact IH].
Qed.

Lemma enumerate_same_runs (l1 l2 : list logger) :
  Forall2 same_run l1 l2 -> same_runs (enumerate l1) (enumerate l2).
Proof.
  intros H. unfold enumerate. generalize 0%nat.
  induction H as [|x y l1 l2 Hxy _ IH]; intros s; [constructor|].
  cbn [length seq map combine]. constructor; [now split|apply IH].
Qed.

Lemma collect_inclusions_same (r1 r2 : list logger) (labels : list Z) :
  Forall2 same_run r1 r2 ->
  collect_inclusions r1 labels = collect_inclusions r2 labels.
Proof.
  intros H. unfold collect_inclusions.
  generalize (@nil (list Z), @None (Z * Z)).
  induction H as [|x y r1 r2 Hxy _ IH]; intros acc; [reflexivity|].
  cbn [fold_left]. rewrite (proj1 Hhelpers x y labels Hxy). apply IH.
Qed.

Lemma get_inc_found_same (s1 s2 : Analysis) (labels : option (list Z)) :
  sim s1 s2 -> _get_inc_found s1 labels = _get_inc_found s2 labels.
Proof.
  intros (_ & _ & _ & _ & Hruns & Hn & _).
  unfold _get_inc_found. destruct labels as [labels|]; [|reflexivity].
  rewrite (collect_inclusions_same labels (same_runs_values Hruns)), Hn.
  reflexivity.
Qed.

Lemma sim_set_inc_found (s1 s2 : Analysis) (c : cache) :
  sim s1 s2 -> sim (set_inc_found s1 c) (set_inc_found s2 c).
Proof.
  intros (H1 & H2 & H3 & H4 & H5 & H6 & H7 & H8).
  repeat split; assumption.
Qed.

Lemma inclusions_found_same (result_format : string) (fl : bool)
  (s1 s2 : Analysis) :
  sim s1 s2 ->
  same_outcome (inclusions_found result_format fl s1)
    (inclusions_found result_format fl s2).
Proof.
  intros Hsim. pose proof Hsim as (Hf & Hl & _ & _ & _ & _ & _ & Hc).
  unfold inclusions_found. rewrite Hf, Hl, Hc.
  rewrite (get_inc_found_same _ Hsim).
  destruct (self_inc_found s2) as [c|]; [|now split].
  destruct (cache_get c fl); [now split|].
  destruct (_get_inc_found s2 _) as [[[[a e] iai] ninit]|ex];
    (split; [reflexivity|now apply sim_set_inc_found]).
Qed.

Lemma wss_same (val : Q) (x_format : string) (fl : bool)
  (s1 s2 : Analysis) :
  sim s1 s2 ->
  same_outcome (wss val x_format fl s1) (wss val x_format fl s2).
Proof.
  intros Hsim. unfold wss.
  destruct (inclusions_found_same "percentage" fl Hsim) as (Hr & Hs).
  destruct (inclusions_found "percentage" fl s1) as [r1 s1'].
  destruct (inclusions_found "percentage" fl s2) as [r2 s2'].
  cbn [fst snd] in Hr, Hs. subst r2.
  destruct r1 as [[[norm_xr norm_yr] ?]|ex]; [|now split].
  destruct (String.eqb x_format "number"); [|now split].
  destruct (inclusions_found_same "number" fl Hs) as (Hr' & Hs').
  destruct (inclusions_found "number" fl s1') as [r1' s1''].
  destruct (inclusions_found "number" fl s2') as [r2' s2''].
  cbn [fst snd] in Hr', Hs'. subst r2'.
  destruct r1' as [[[x_return y_result] ?]|ex]; [|now split].
  pose proof Hs' as (_ & Hl & _ & _ & _ & _ & _ & Hc).
  split; [|exact Hs']. cbn [fst]. now rewrite Hl, Hc.
Qed.

Lemma rrf_same (val : Q) (x_format : string) (fl : bool)
  (s1 s2 : Analysis) :
  sim s1 s2 ->
  same_outcome (rrf val x_format fl s1) (rrf val x_format fl s2).
Proof.
  intros Hsim. unfold rrf.
  destruct (inclusions_found_same "percentage" fl Hsim) as (Hr & Hs).
  destruct (inclusions_found "percentage" fl s1) as [r1 s1'].
  destruct (inclusions_found "percentage" fl s2) as [r2 s2'].
  cbn [fst snd] in Hr, Hs. subst r2.
  destruct r1 as [[[norm_xr norm_yr] ?]|ex]; [|now split].
  destruct (String.eqb x_format "number"); [|now split].
  destruct (inclusions_found_same "number" fl Hs) as (Hr' & Hs').
  destruct (inclusions_found "number" fl s1') as [r1' s1''].
  destruct (inclusions_found "number" fl s2') as [r2' s2''].
  cbn [fst snd] in Hr', Hs'. subst r2'.
  destruct r1' as [[[x_return y_return] ?]|ex]; now split.
Qed.

Lemma walk_runs_same (labels : option (list Z)) (r1 r2 : list logger) :
  Forall2 same_run r1 r2 ->
  forall i_file time_results n_initial,
    walk_runs labels r1 i_file time_results n_initial
    = walk_runs labels r2 i_file time_results n_initial.
Proof.
  induction 1 as [|x y r1 r2 Hxy _ IH]; intros i_file tr ninit;
    [reflexivity|].
  cbn [walk_runs].
  rewrite (proj1 (proj2 Hhelpers) x y Hxy).
  rewrite (proj1 (proj2 (proj2 Hhelpers)) x y Hxy).
  destruct (_get_labeled_order y) as [label_order n].
  destruct (walk_label_order labels label_order 0 tr) as [tr1|];
    [|reflexivity].
  cbn [bind].
  destruct (walk_proba_order labels i_file (length label_order)
              (_get_last_proba_order y) 0 tr1) as [tr2|]; [|reflexivity].
  cbn [bind]. apply IH.
Qed.

Lemma avg_time_to_discovery_same (s1 s2 : Analysis) :
  sim s1 s2 -> avg_time_to_discovery s1 = avg_time_to_discovery s2.
Proof.
  intros (_ & Hl & _ & _ & Hruns & _).
  unfold avg_time_to_discovery. rewrite Hl.
  now rewrite (walk_runs_same (self_labels s2) (same_runs_values Hruns)).
Qed.

Lemma limits_loop_same (s1 s2 : Analysis) (lg1 lg2 : logger)
  (probs : list Q) (queries : list nat) :
  sim s1 s2 -> same_run lg1 lg2 ->
  forall n_train res,
    limits_loop s1 lg1 probs queries n_train res
    = limits_loop s2 lg2 probs queries n_train res.
Proof.
  intros (_ & Hl & _ & _ & Hruns & _) (_ & Htrain & _).
  induction queries as [|q rest IH]; intros n_train res; [reflexivity|].
  cbn [limits_loop].
  rewrite Hl, (Htrain q).
  rewrite (proj2 (proj2 (proj2 Hhelpers)) _ _ q (self_labels s2) probs Hruns).
  destruct (match _get_limits (self_loggers s2) q (self_labels s2) probs with
            | Some new_limits =>
                lims <- append_limits (limits_of res) new_limits 0 ;;
                Ok {| x_range := x_range res ++
                        [match match lg_train_idx lg2 q with
                               | Some v => v | None => None end with
                         | Some idx => length idx | None => n_train end];
                      limits_of := lims |}
            | None => Ok res
            end) as [res'|]; [|reflexivity].
  cbn [bind]. apply IH.
Qed.

Lemma limits_same (prob_allow_miss : prob_arg) (s1 s2 : Analysis) :
  sim s1 s2 -> limits prob_allow_miss s1 = limits prob_allow_miss s2.
Proof.
  intros Hsim. pose proof Hsim as (_ & _ & _ & _ & Hruns & _ & Hf & _).
  unfold limits. rewrite Hf.
  destruct (self_first_file s2) as [k|]; [|reflexivity]. cbn [getattr bind].
  pose proof (same_runs_get k Hruns) as Hget.
  destruct (dict_get run_key_eqb (self_loggers s1) k) as [l1|e1],
           (dict_get run_key_eqb (self_loggers s2) k) as [l2|e2];
    try contradiction; [|now subst].
  cbn [bind]. rewrite (proj1 Hget).
  now rewrite (@limits_loop_same s1 s2 l1 l2 _ _ Hsim Hget).
Qed.

Lemma init_same (c1 c2 : loggers_arg) (key : option string) :
  same_collection c1 c2 ->
  match __init__ c1 key, __init__ c2 key with
  | Ok s1, Ok s2 => sim s1 s2
  | Raise e1, Raise e2 => e1 = e2
  | _, _ => False
  end.
Proof.
  intros (Hruns & Hfirst). unfold __init__.
  fold (loggers_of c1). fold (loggers_of c2).
  destruct Hruns as [|[k1 l1] [k2 l2] d1 d2 [Hk Hr] Hrest].
  - repeat split; constructor.
  - cbn [fst snd] in Hk, Hr. subst k2. cbn [same_first_labels] in Hfirst.
    destruct Hfirst as (Hlab & Hfin).
    cbn [length Nat.eqb keys map fst getitem nth_error bind].
    unfold dict_get. cbn [dict_find]. rewrite run_key_eqb_refl.
    cbn [bind]. rewrite Hlab, Hfin.
    destruct (lg_labels l2); cbn [logger_get bind]; [|reflexivity].
    assert (same_runs ((k1, l1) :: d1) ((k1, l2) :: d2)) as Hall
      by (constructor; [now split|assumption]).
    repeat split; try assumption.
    cbn [self_num_runs]. f_equal. now apply (same_runs_length Hrest).
Qed.

(** C9: if the statistics helpers read the recorded history of the runs
    only, then Labels and Final Labels come from the first logger alone:
    two collections with the same keys and the same history in every run,
    whose first loggers have the same ['labels'] and ['final_labels'], are
    built into objects on which every method returns the same result, in
    whatever order the methods are called. *)
Theorem labels_from_first_logger_only :
  (forall l1 l2,
     Forall2 same_run l1 l2 -> same_runs (enumerate l1) (enumerate l2)) /\
  (forall c1 c2 key,
     same_collection c1 c2 ->
     match __init__ c1 key, __init__ c2 key with
     | Ok s1, Ok s2 => sim s1 s2
     | Raise e1, Raise e2 => e1 = e2
     | _, _ => False
     end) /\
  (forall s1 s2,
     sim s1 s2 ->
     (forall result_format fl,
        same_outcome (inclusions_found result_format fl s1)
          (inclusions_found result_format fl s2)) /\
     (forall val x_format fl,
        same_outcome (wss val x_format fl s1) (wss val x_format fl s2)) /\
     (forall val x_format fl,
        same_outcome (rrf val x_format fl s1) (rrf val x_format fl s2)) /\
     avg_time_to_discovery s1 = avg_time_to_discovery s2 /\
     (forall prob_allow_miss,
        limits prob_allow_miss s1 = limits prob_allow_miss s2)).
Proof.
  split; [exact enumerate_same_runs|]. split; [exact init_same|].
  intros s1 s2 Hsim. split; [|split; [|split; [|split]]].
  - intros; now apply inclusions_found_same.
  - intros; now apply wss_same.
  - intros; now apply rrf_same.
  - now apply avg_time_to_discovery_same.
  - intros; now apply limits_same.
Qed.

End Noninterference.

(** ** Further properties of the methods *)

(** The object after a call of [inclusions_found]. *)
Lemma inclusions_found_state (result_format : string) (fl : bool)
  (self : Analysis) (c : cache) :
  self_inc_found self = Some c ->
  snd (inclusions_found result_format fl self)
  = match cache_get c fl with
    | Some _ => self
    | None =>
        match _get_inc_found self (labels_of self fl) with
        | Ok (a, e, iai, ninit) =>
            set_inc_found self
              (cache_set (cache_set c fl None) fl
                 (Some {| avg := a; err := e;
                          inc_after_init := iai; n_initial := ninit |}))
        | Raise _ => set_inc_found self (cache_set c fl None)
        end
    end.
Proof.
  intros Hc. unfold inclusions_found. rewrite Hc. fold (labels_of self fl).
  destruct (cache_get c fl); [reflexivity|].
  destruct (_get_inc_found self (labels_of self fl))
    as [[[[a e] iai] ninit]|ex]; reflexivity.
Qed.

Lemma inclusions_found_hit (result_format : string) (fl : bool)
  (self : Analysis) (c : cache) (slot : option inc_entry) :
  self_inc_found self = Some c ->
  cache_get c fl = Some slot ->
  snd (inclusions_found result_format fl self) = self.
Proof.
  intros Hc Hget. now rewrite (inclusions_found_state _ _ _ Hc), Hget.
Qed.


Lemma np_div_percent (a d : Q) :
  np_div (Fin a) (Fin (Qred (d / 100)))
  = np_mul (np_div (Fin a) (Fin d)) (Fin 100).
Proof.
  unfold np_div. rewrite is_zero_Qred.
  assert (is_zero (d / 100) = is_zero d) as ->.
  { unfold is_zero.
    destruct (Qeq_bool d 0) eqn:E.
    - apply Qeq_bool_iff. apply Qeq_bool_iff in E. rewrite E. reflexivity.
    - destruct (Qeq_bool (d / 100) 0) eqn:E'; [|reflexivity].
      apply Qeq_bool_iff in E'.
      assert (d == 0)%Q as E0.
      { assert (d == (d / 100) * 100)%Q as -> by field. rewrite E'. ring. }
      apply Qeq_bool_iff in E0. congruence. }
  destruct (is_zero d) eqn:Ed.
  - destruct (is_zero a); [reflexivity|]. now destruct (is_pos a).
  - cbn [np_mul]. f_equal. apply Qred_complete.
    rewrite !Qred_correct. field.
    unfold is_zero in Ed. intros E. apply Qeq_bool_iff in E. congruence.
Qed.

(** X2: the percentage curve is the fraction curve times 100, in x, in y and
    in the error, also where a zero norm makes the values inf or nan. *)
Theorem percentage_is_fraction_times_100 (self : Analysis) (fl : bool)
  (labels : list Z) :
  nonempty self ->
  labels_of self fl = Some labels ->
  exists x y ye,
    fst (inclusions_found "fraction" fl self) = Ok (x, y, ye) /\
    fst (inclusions_found "percentage" fl self)
    = Ok (map (fun v => np_mul v (Fin 100)) x,
          map (fun v => np_mul v (Fin 100)) y,
          map (fun v => np_mul v (Fin 100)) ye).
Proof.
  intros Hne Hl.
  destruct (get_inc_found_total self labels (ne_some Hne))
    as (a & e & iai & ninit & Hc).
  rewrite !inclusions_found_curve by assumption.
  unfold curve. rewrite Hl, Hc. cbn [py_len bind].
  rewrite scale_percentage. do 3 eexists. split; [reflexivity|].
  cbn [avg err inc_after_init n_initial]. rewrite !map_map.
  f_equal. f_equal; [f_equal|]; apply map_ext; intros v;
    apply np_div_percent.
Qed.

Lemma max_len_attained (ls : list (list Z)) :
  (0 < max_len ls)%nat ->
  exists i l, nth_error ls i = Some l /\ length l = max_len ls.
Proof.
  induction ls as [|l ls IH]; intros Hpos; [simpl in Hpos; lia|].
  cbn [max_len fold_right] in *. fold (max_len ls) in *.
  destruct (Nat.le_gt_cases (max_len ls) (length l)) as [Hle|Hgt].
  - exists 0%nat, l. split; [reflexivity|lia].
  - destruct IH as (i & l' & Hi & Hl'); [lia|].
    exists (S i), l'. split; [exact Hi|lia].
Qed.

Lemma cur_vals_at_nonempty (ls : list (list Z)) (k : nat) :
  (k < max_len ls)%nat -> cur_vals_at (length ls) ls k <> [].
Proof.
  intros Hk.
  destruct (max_len_attained ls) as (i & l & Hi & Hl); [lia|].
  destruct (nth_error l k) as [v|] eqn:Hv.
  2:{ apply nth_error_None in Hv. lia. }
  assert (In v (cur_vals_at (length ls) ls k)) as Hin.
  { unfold cur_vals_at. apply in_flat_map. exists i. split.
    - apply in_seq. split; [lia|]. simpl.
      apply nth_error_Some. congruence.
    - rewrite Hi, Hv. now left. }
  intros E. rewrite E in Hin. contradiction.
Qed.

Lemma run_inclusions_length (self : Analysis) (labels : list Z) :
  nonempty self ->
  length (run_inclusions (values (self_loggers self)) labels)
  = self_num_runs self.
Proof.
  intros Hne. unfold run_inclusions, values.
  now rewrite !length_map, (ne_runs Hne).
Qed.

(** The aggregated curve has one step for every position of the longest
    run. *)
Lemma n_steps_max_len (self : Analysis) (labels : list Z) :
  nonempty self ->
  n_steps self labels
  = max_len (run_inclusions (values (self_loggers self)) labels).
Proof.
  intros Hne.
  destruct (get_inc_found_closed self labels (ne_some Hne))
    as (lg & _ & _ & Hsteps & Hend).
  rewrite <- (run_inclusions_length labels Hne) in Hsteps, Hend.
  set (ls := run_inclusions (values (self_loggers self)) labels) in *.
  destruct (Nat.lt_trichotomy (n_steps self labels) (max_len ls))
    as [Hlt|[Heq|Hgt]]; [|exact Heq|].
  - exfalso. now apply (cur_vals_at_nonempty ls Hlt).
  - exfalso. apply (Hsteps (max_len ls) Hgt).
    now apply cur_vals_at_beyond.
Qed.

(** X3: runs of different lengths are not padded and not cut: whatever the
    format, the three arrays that [inclusions_found] returns have the length
    of the longest inclusion curve among the runs. *)
Theorem curve_length_is_longest_run (self : Analysis) (fl : bool)
  (labels : list Z) (result_format : string) (x y ye : list npfloat) :
  nonempty self ->
  labels_of self fl = Some labels ->
  fst (inclusions_found result_format fl self) = Ok (x, y, ye) ->
  let longest :=
    max_len (run_inclusions (values (self_loggers self)) labels) in
  length x = longest /\ length y = longest /\ length ye = longest.
Proof.
  intros Hne Hl Hr longest.
  destruct (get_inc_found_closed self labels (ne_some Hne))
    as (lg & _ & Hc & _).
  rewrite inclusions_found_curve in Hr by assumption.
  unfold curve in Hr. rewrite Hl, Hc in Hr. cbn [py_len bind] in Hr.
  apply scale_inv in Hr. destruct Hr as (xn & yn & _ & -> & -> & ->).
  cbn [avg err]. unfold longest. rewrite <- (n_steps_max_len labels Hne).
  rewrite !length_map, !length_seq. repeat split.
  destruct (Nat.eqb (self_num_runs self) 1).
  - unfold np_zeros. now rewrite repeat_length.
  - now rewrite ?length_map, length_seq.
Qed.

Lemma Qred_qz (v : Z) : Qred (qz v) = qz v.
Proof.
  unfold Qred, qz, inject_Z.
  pose proof (Z.ggcd_gcd v 1) as Hg.
  pose proof (Z.ggcd_correct_divisors v 1) as Hd.
  destruct (Z.ggcd v 1) as (g, (aa, bb)). cbn [fst snd] in *.
  rewrite Z.gcd_1_r in Hg. subst g. destruct Hd as (Hv & Hb).
  assert (aa = v) as -> by lia. assert (bb = 1) as -> by lia.
  reflexivity.
Qed.

Lemma np_mean_single (v : Z) : np_mean [v] = qz v.
Proof.
  unfold np_mean. rewrite <- (Qred_qz v). apply Qred_complete.
  cbn [zsum fold_right length]. rewrite Z.add_0_r. unfold qn. simpl.
  field.
Qed.

Lemma map_nth_seq {A B} (f : A -> B) (l : list A) (d : A) :
  map (fun k => f (nth k l d)) (seq 0 (length l)) = map f l.
Proof.
  induction l as [|a l IH]; [reflexivity|].
  cbn [length seq map nth]. f_equal.
  rewrite <- seq_shift, map_map. exact IH.
Qed.

(** X4: a single run is its own aggregated curve: the means are the
    inclusion counts of the run, the dispersions are zero, and the fraction
    curve divides the step index by [N - n_initial] and the counts by
    [inc_after_init]. *)
Theorem single_run_curve (self : Analysis) (k : run_key) (lg : logger)
  (labels : list Z) (inclusions : list Z) (iai ninit : Z) :
  nonempty self ->
  self_loggers self = [(k, lg)] ->
  self_labels self = Some labels ->
  _find_inclusions lg labels = (inclusions, iai, ninit) ->
  _get_inc_found self (Some labels)
  = Ok (map qz inclusions, np_zeros (length inclusions), iai, ninit) /\
  fst (inclusions_found "fraction" false self)
  = Ok (map (fun i =>
               np_div (Fin (qn i))
                 (Fin (qz (Z.of_nat (length labels) - ninit))))
            (seq 0 (length inclusions)),
        map (fun v => np_div (Fin (qz v)) (Fin (qz iai))) inclusions,
        map (fun _ => np_div (Fin 0) (Fin (qz iai))) inclusions).
Proof.
  intros Hne Hlg Hl Hfi.
  assert (_get_inc_found self (Some labels)
          = Ok (map qz inclusions, np_zeros (length inclusions), iai, ninit))
    as Hc.
  { destruct (get_inc_found_closed self labels (ne_some Hne))
      as (lg' & Hlast & Hc & _).
    pose proof (n_steps_max_len labels Hne) as Hn.
    pose proof (ne_runs Hne) as Hruns.
    rewrite Hlg in Hlast, Hn, Hruns, Hc. cbn [values map snd rev app] in *.
    injection Hlast as <-.
    unfold run_inclusions in Hn, Hc. cbn [map] in Hn, Hc.
    rewrite Hfi in Hn, Hc. cbn [fst snd max_len fold_right length] in *.
    rewrite Nat.max_0_r in Hn. rewrite Hc, Hn, Hruns. cbn [Nat.eqb].
    assert (map (fun k0 => np_mean (cur_vals_at 1 [inclusions] k0))
              (seq 0 (length inclusions))
            = map qz inclusions) as ->; [|reflexivity].
    rewrite <- (map_nth_seq qz inclusions 0).
    apply map_ext_in. intros i Hi. apply in_seq in Hi.
    unfold cur_vals_at. cbn [seq flat_map nth_error].
    rewrite (nth_error_nth' inclusions 0) by lia. cbn [app].
    apply np_mean_single. }
  split; [exact Hc|].
  rewrite inclusions_found_curve by assumption.
  unfold curve, labels_of. rewrite Hl, Hc. cbn [py_len bind].
  unfold scale. cbn [String.eqb Ascii.eqb Bool.eqb bind avg err
                       inc_after_init n_initial].
  rewrite length_map, map_map.
  assert (map (fun a => np_div (Fin a) (Fin (qz iai)))
            (np_zeros (length inclusions))
          = map (fun _ : Z => np_div (Fin 0) (Fin (qz iai))) inclusions)
    as ->; [|reflexivity].
  unfold np_zeros. clear.
  induction inclusions as [|v l IH]; [reflexivity|].
  cbn [length repeat map]. now rewrite IH.
Qed.

(** X5: on a non-empty analysis, for the labels and for the final labels when
    there are any, [rrf(val)] returns [None] exactly when no step of the
    percentage curve has [x >= val - 1e-6]; otherwise it returns, for the
    first step [i] that does, the recall [y[i]] and the bar [(x[i], x[i])],
    [(0, y[i])]. *)
Theorem rrf_none_iff_unreached (self : Analysis) (val : Q) (fl : bool)
  (labels : list Z) :
  nonempty self ->
  labels_of self fl = Some labels ->
  exists x y ye,
    fst (inclusions_found "percentage" fl self) = Ok (x, y, ye) /\
    let reached i := np_ge (nth i x NaN) (Fin (Qred (val - eps))) in
    (fst (rrf val "percentage" fl self) = Ok None <->
     forall i, (i < length x)%nat -> reached i = false) /\
    (forall i, (i < length x)%nat -> reached i = true ->
       (forall j, (j < i)%nat -> reached j = false) ->
       fst (rrf val "percentage" fl self)
       = Ok (Some (nth i y NaN, (nth i x NaN, nth i x NaN),
                   (Fin 0, nth i y NaN)))).
Proof.
  intros Hne Hl.
  destruct (curve_percentage_ok fl Hne Hl) as (x & y & ye & Hcurve & Hlen).
  exists x, y, ye.
  pose proof (inclusions_found_curve "percentage" fl Hne) as Hfst.
  rewrite Hcurve in Hfst. split; [exact Hfst|].
  intros reached.
  assert (fst (rrf val "percentage" fl self)
          = match first_reached (length y) x val with
            | Some i =>
                y_i <- getitem y i ;; xr_i <- getitem x i ;;
                yr_i <- getitem y i ;;
                Ok (Some (y_i, (xr_i, xr_i), (Fin 0, yr_i)))
            | None => Ok None
            end) as Hrrf.
  { unfold rrf.
    destruct (inclusions_found "percentage" fl self) as [r self'].
    simpl in Hfst. subst r. reflexivity. }
  rewrite Hrrf. unfold first_reached. rewrite <- Hlen.
  pose proof (find_seq_first reached (length x) 0) as Hfind.
  fold reached. simpl in Hfind.
  destruct (find reached (seq 0 (length x))) as [i|].
  - destruct Hfind as (Hi & Hr & Hfirst).
    rewrite (getitem_nth y NaN), (getitem_nth x NaN) by lia.
    cbn [bind]. split.
    + split; [discriminate|]. intros H. rewrite (H i) in Hr by lia.
      discriminate.
    + intros i' Hi' Hr' Hfirst'.
      assert (i' = i) as ->; [|reflexivity].
      destruct (Nat.lt_trichotomy i' i) as [Hlt|[Heq|Hgt]]; [|assumption|].
      * rewrite (Hfirst i') in Hr' by lia. discriminate.
      * rewrite (Hfirst' i) in Hr by lia. discriminate.
  - split.
    + split; [|reflexivity]. intros _ i Hi. apply Hfind. lia.
    + intros i Hi Hr _. rewrite (Hfind i) in Hr by lia. discriminate.
Qed.

(** The x and y arrays of a result have the same length. *)
Lemma inclusions_found_lengths (result_format : string) (fl : bool)
  (self : Analysis) (x y ye : list npfloat) :
  fst (inclusions_found result_format fl self) = Ok (x, y, ye) ->
  length x = length y.
Proof.
  assert (forall labels c,
            normalise result_format labels c fl = Ok (x, y, ye) ->
            length x = length y) as Hnorm.
  { intros labels c H. unfold normalise in H.
    destruct (py_len labels) as [len|]; [|discriminate].
    destruct (entry_get c fl) as [e|]; [|discriminate].
    cbn [bind] in H. apply scale_inv in H.
    destruct H as (xn & yn & _ & -> & -> & _).
    now rewrite !length_map, length_seq. }
  unfold inclusions_found.
  destruct (self_inc_found self) as [c|]; [|discriminate].
  destruct (cache_get c fl); [apply Hnorm|].
  destruct (_get_inc_found self _) as [[[[a e] iai] ninit]|ex];
    [apply Hnorm|discriminate].
Qed.

Ltac split_result H :=
  repeat match type of H with
         | context [bind ?m _] =>
             let E := fresh "E" in
             destruct m eqn:E; cbn [bind] in H; [|discriminate H]
         end.

(** X6: [x_format] only moves the bar.  Whenever [wss] or [rrf] returns for
    some [x_format], it also returns for the default format, with the same
    value and the same outcome (found or not found). *)
Theorem x_format_keeps_value (self : Analysis) (val : Q)
  (x_format : string) (fl : bool) (r : option bar) :
  (fst (wss val x_format fl self) = Ok r ->
   exists r', fst (wss val "percentage" fl self) = Ok r' /\
              bar_value r' = bar_value r) /\
  (fst (rrf val x_format fl self) = Ok r ->
   exists r', fst (rrf val "percentage" fl self) = Ok r' /\
              bar_value r' = bar_value r).
Proof.
  split.
  - unfold wss.
    destruct (inclusions_found "percentage" fl self)
      as [[[[norm_xr norm_yr] ye]|ex] self1]; [|discriminate].
    cbn [String.eqb Ascii.eqb Bool.eqb].
    destruct (String.eqb x_format "number"); [|eauto].
    destruct (inclusions_found "number" fl self1)
      as [[[[x_return y_result] ye']|ex] self2]; [|discriminate].
    cbn [fst]. intros H.
    match type of H with
    | context [bind ?m _] =>
        destruct m as [[[xr yr] coef]|]; cbn [bind] in H; [|discriminate H]
    end.
    cbn [bind].
    destruct (first_reached (length norm_yr) norm_yr val) as [i|].
    + split_result H. injection H as <-.
      cbn [bind]. eexists. split; [reflexivity|reflexivity].
    + injection H as <-. eexists. split; reflexivity.
  - unfold rrf.
    destruct (inclusions_found "percentage" fl self)
      as [[[[norm_xr norm_yr] ye]|ex] self1] eqn:Epct; [|discriminate].
    assert (length norm_xr = length norm_yr) as Hlen
      by (apply (inclusions_found_lengths "percentage" fl self (ye := ye));
          now rewrite Epct).
    cbn [String.eqb Ascii.eqb Bool.eqb].
    destruct (String.eqb x_format "number"); [|eauto].
    destruct (inclusions_found "number" fl self1)
      as [[[[x_return y_return] ye']|ex] self2]; [|discriminate].
    cbn [fst bind]. unfold first_reached.
    pose proof (find_seq_first
                  (fun i => np_ge (nth i norm_xr NaN)
                              (Fin (Qred (val - eps))))
                  (length norm_yr) 0) as Hfind.
    destruct (find _ (seq 0 (length norm_yr))) as [i|].
    + destruct Hfind as (Hi & _). intros H. split_result H.
      injection H as <-.
      rewrite (getitem_nth norm_xr NaN) by lia.
      cbn [bind]. eexists. split; [reflexivity|reflexivity].
    + intros H. injection H as <-. eexists. split; reflexivity.
Qed.

(** A call of [inclusions_found] changes nothing but the cache. *)
Lemma inclusions_found_fields (result_format : string) (fl : bool)
  (self : Analysis) :
  let self1 := snd (inclusions_found result_format fl self) in
  self_labels self1 = self_labels self /\
  self_final_labels self1 = self_final_labels self /\
  self_loggers self1 = self_loggers self /\
  self_num_runs self1 = self_num_runs self /\
  self_first_file self1 = self_first_file self /\
  self_empty self1 = self_empty self.
Proof.
  unfold inclusions_found.
  destruct (self_inc_found self) as [c|]; [|now repeat split].
  destruct (cache_get c fl); [now repeat split|].
  destruct (_get_inc_found self _) as [[[[a e] iai] ninit]|ex];
    now repeat split.
Qed.

Lemma get_inc_found_ext (s s' : Analysis) (labels : option (list Z)) :
  self_loggers s = self_loggers s' ->
  self_num_runs s = self_num_runs s' ->
  _get_inc_found s labels = _get_inc_found s' labels.
Proof. intros Hl Hn. unfold _get_inc_found. now rewrite Hl, Hn. Qed.

(** After a call for labels that exist, the cache holds their entry. *)
Lemma cached_after_call (result_format : string) (fl : bool)
  (self : Analysis) (labels : list Z) (a e : list Q) (iai ninit : Z) :
  nonempty self ->
  labels_of self fl = Some labels ->
  _get_inc_found self (Some labels) = Ok (a, e, iai, ninit) ->
  exists c' E,
    self_inc_found (snd (inclusions_found result_format fl self)) = Some c' /\
    cache_get c' fl = Some (Some E) /\
    inc_after_init E = iai /\ n_initial E = ninit.
Proof.
  intros Hne Hl Hcomp. destruct (ne_cache Hne) as (c & Hc & Hslots).
  rewrite (inclusions_found_state result_format fl self Hc).
  specialize (Hslots fl).
  destruct (cache_get c fl) as [[E|]|] eqn:Hget; cbn [slot_ok] in Hslots.
  - rewrite Hl, Hcomp in Hslots. injection Hslots as _ _ Hi Hn.
    exists c, E. auto.
  - congruence.
  - rewrite Hl, Hcomp. eexists _, _. split; [reflexivity|].
    rewrite cache_get_set, Bool.eqb_reflx. repeat split.
Qed.

(** The result of a call does not depend on the calls made before. *)
Lemma call_history_irrelevant (self : Analysis)
  (format1 format2 : string) (fl1 fl2 : bool) :
  nonempty self ->
  fst (inclusions_found format2 fl2 (snd (inclusions_found format1 fl1 self)))
  = fst (inclusions_found format2 fl2 self).
Proof.
  intros Hne.
  pose proof (inclusions_found_nonempty format1 fl1 Hne) as Hne1.
  destruct (inclusions_found_fields format1 fl1 self)
    as (Hl & Hf & Hlg & Hn & _).
  rewrite !inclusions_found_curve by assumption.
  unfold curve, labels_of. rewrite Hl, Hf.
  now rewrite (get_inc_found_ext _ _ _ Hlg Hn).
Qed.

(** X7: for the labels of the analysis, [wss] with [x_format = "number"]
    returns: it searches the percentage curve and, at the first step [i]
    that reaches the target, takes the bar from the ["number"] curve, its
    lower end being [x[i] * inc_after_init / (N - n_initial)].  (It needs at
    least one label, a non-zero [inc_after_init] and [N <> n_initial].) *)
Theorem wss_number_on_labels (self : Analysis) (val : Q) (labels : list Z) :
  nonempty self ->
  self_labels self = Some labels ->
  labels <> [] ->
  let N := Z.of_nat (length labels) in
  exists a e iai ninit,
    _get_inc_found self (Some labels) = Ok (a, e, iai, ninit) /\
    (iai <> 0 -> N <> ninit ->
     exists x y ye nx ny ne,
       fst (inclusions_found "percentage" false self) = Ok (x, y, ye) /\
       fst (inclusions_found "number" false self) = Ok (nx, ny, ne) /\
       fst (wss val "number" false self)
       = match first_reached (length y) y val with
         | Some i =>
             Ok (Some (np_sub (nth i y NaN) (nth i x NaN),
                       (nth i nx NaN, nth i nx NaN),
                       (np_mul (nth i nx NaN)
                          (Fin (Qred (qz iai / qz (N - ninit)))),
                        nth i ny NaN)))
         | None => Ok None
         end).
Proof.
  intros Hne Hl HN N.
  destruct (get_inc_found_total self labels (ne_some Hne))
    as (a & e & iai & ninit & Hc).
  exists a, e, iai, ninit. split; [exact Hc|]. intros Hi Hd.
  destruct (curve_percentage_ok false Hne Hl)
    as (x & y & ye & Hpct & Hlen).
  pose proof (inclusions_found_number Hne Hl Hc HN Hi) as Hnum.
  cbv zeta in Hnum.
  match type of Hnum with _ = Ok (?nx, ?ny, ?ne) =>
    exists x, y, ye, nx, ny, ne; set (nx' := nx) in *; set (ny' := ny) in *
  end.
  rewrite inclusions_found_curve by assumption.
  split; [exact Hpct|]. split; [exact Hnum|].
  assert (length y = length a) as Hya.
  { unfold curve, labels_of in Hpct. rewrite Hl, Hc in Hpct.
    cbn [py_len bind] in Hpct. rewrite scale_percentage in Hpct.
    injection Hpct as _ <- _. cbn [avg]. now rewrite length_map. }
  assert (length nx' = length a /\ length ny' = length a) as (Hnx & Hny)
    by (unfold nx', ny'; now rewrite !length_map, length_seq).
  (* the two calls of [inclusions_found] *)
  unfold wss.
  pose proof (inclusions_found_curve "percentage" false Hne) as H1.
  pose proof (inclusions_found_nonempty "percentage" false Hne) as Hne1.
  pose proof (inclusions_found_fields "percentage" false self)
    as (Hl1 & _ & Hlg1 & Hn1 & _).
  pose proof (call_history_irrelevant "percentage" "number" false false Hne)
    as H2.
  destruct (inclusions_found "percentage" false self) as [r1 self1].
  cbn [fst snd] in *. rewrite Hpct in H1. subst r1.
  cbn [String.eqb Ascii.eqb Bool.eqb].
  rewrite Hnum in H2.
  assert (labels_of self1 false = Some labels) as Hl1'
    by (unfold labels_of; congruence).
  assert (_get_inc_found self1 (Some labels) = Ok (a, e, iai, ninit)) as Hc1
    by (rewrite (get_inc_found_ext self1 self _ Hlg1 Hn1); exact Hc).
  destruct (cached_after_call "number" false Hne1 Hl1' Hc1)
    as (c' & E & Hc' & Hget & HEi & HEn).
  pose proof (inclusions_found_fields "number" false self1)
    as (Hl2 & _).
  destruct (inclusions_found "number" false self1) as [r2 self2].
  cbn [fst snd] in *. subst r2.
  rewrite Hc'. cbn [getattr bind]. unfold entry_get. rewrite Hget.
  cbn [bind]. rewrite Hl2, Hl1, Hl. cbn [py_len bind].
  rewrite HEi, HEn. fold N.
  rewrite py_div_ok by (unfold N in *; lia). cbn [bind].
  unfold first_reached.
  pose proof (find_seq_first
                (fun i => np_ge (nth i y NaN) (Fin (Qred (val - eps))))
                (length y) 0) as Hfind.
  destruct (find _ (seq 0 (length y))) as [i|]; [|reflexivity].
  destruct Hfind as (Hlt & _).
  rewrite (getitem_nth y NaN), (getitem_nth x NaN),
    (getitem_nth nx' NaN), (getitem_nth ny' NaN) by lia.
  reflexivity.
Qed.

(** ** The constructor and the states without a cache or final labels *)

(** X8: the constructor reads the ['labels'] series of the first logger
    only.  It raises exactly when that series is missing, and then a
    [KeyError]; a missing ['final_labels'] series is tolerated and leaves
    [final_labels] at [None].  The object of a collection with a first
    logger that has labels is in a [nonempty] state with a fresh cache. *)
Theorem init_reads_first_logger (loggers : loggers_arg) (key : option string) :
  (forall e, __init__ loggers key = Raise e ->
     e = KeyError /\
     exists k lg rest,
       loggers_of loggers = (k, lg) :: rest /\ lg_labels lg = None) /\
  (forall k lg rest,
     loggers_of loggers = (k, lg) :: rest ->
     match lg_labels lg with
     | None => __init__ loggers key = Raise KeyError
     | Some labels =>
         exists self,
           __init__ loggers key = Ok self /\
           nonempty self /\
           self_labels self = Some labels /\
           self_final_labels self = lg_final_labels lg /\
           self_loggers self = loggers_of loggers /\
           self_num_runs self = length (loggers_of loggers) /\
           self_key self = key /\
           self_inc_found self = Some cache_empty
     end).
Proof.
  unfold __init__. fold (loggers_of loggers).
  destruct (loggers_of loggers) as [|[k lg] rest] eqn:Hd.
  - split; [intros e H; discriminate|intros k lg rest H; discriminate].
  - cbn [length Nat.eqb keys map fst getitem nth_error bind].
    unfold dict_get. cbn [dict_find]. rewrite run_key_eqb_refl.
    cbn [bind]. split.
    + intros e H. destruct (lg_labels lg) as [labels|] eqn:Hl;
        cbn [logger_get bind] in H; [discriminate|].
      injection H as <-. split; [reflexivity|]. now exists k, lg, rest.
    + intros k' lg' rest' H. injection H as <- <- <-.
      destruct (lg_labels lg) as [labels|]; cbn [logger_get bind];
        [|reflexivity].
      eexists. split; [reflexivity|]. cbn.
      repeat split; try discriminate.
      * now exists labels.
      * exists cache_empty. split; [reflexivity|]. intros []; exact I.
Qed.

(** X9: on an analysis built from no run at all, [wss], [rrf] and
    [limits] raise an [AttributeError] whatever their arguments are, as
    [inclusions_found] does: the attributes [inc_found] and [_first_file]
    were never created.  The object is left as it was. *)
Theorem metrics_raise_on_empty_analysis (loggers : loggers_arg)
  (key : option string) (val : Q) (x_format : string) (final_labels : bool)
  (prob_allow_miss : prob_arg) :
  loggers_of loggers = [] ->
  exists self,
    __init__ loggers key = Ok self /\
    wss val x_format final_labels self = (Raise AttributeError, self) /\
    rrf val x_format final_labels self = (Raise AttributeError, self) /\
    limits prob_allow_miss self = Raise AttributeError.
Proof.
  intros Hd. unfold __init__. fold (loggers_of loggers). rewrite Hd.
  cbn [length Nat.eqb]. eexists. split; [reflexivity|].
  repeat split.
Qed.

(** X10: when the first logger has no final labels, every call that asks
    for them raises a [TypeError], the first one and the ones after it: the
    first leaves an empty entry in the cache, and the later ones fail on
    [len(labels)].  So do [wss] and [rrf].  The results for the labels
    themselves are not affected by such a failed call. *)
Theorem final_labels_absent_raises (self : Analysis)
  (format1 format2 : string) (val : Q) (x_format : string) :
  nonempty self ->
  self_final_labels self = None ->
  let self1 := snd (inclusions_found format1 true self) in
  fst (inclusions_found format1 true self) = Raise TypeError /\
  (exists c, self_inc_found self1 = Some c /\ cache_get c true = Some None) /\
  fst (inclusions_found format2 true self1) = Raise TypeError /\
  fst (wss val x_format true self) = Raise TypeError /\
  fst (rrf val x_format true self) = Raise TypeError /\
  fst (inclusions_found format2 false self1)
  = fst (inclusions_found format2 false self).
Proof.
  intros Hne Hf self1.
  assert (forall s f, nonempty s -> self_final_labels s = None ->
            fst (inclusions_found f true s) = Raise TypeError) as Hraise.
  { intros s f Hs Hfs. rewrite inclusions_found_curve by assumption.
    unfold curve, labels_of. now rewrite Hfs. }
  pose proof (inclusions_found_nonempty format1 true Hne) as Hne1.
  destruct (inclusions_found_fields format1 true self) as (_ & Hf1 & _).
  fold self1 in Hne1, Hf1.
  split; [now apply Hraise|]. split.
  { destruct (ne_cache Hne) as (c & Hc & Hslots). specialize (Hslots true).
    unfold self1. rewrite (inclusions_found_state format1 true self Hc).
    unfold labels_of. rewrite Hf.
    destruct (cache_get c true) as [[E|]|] eqn:Hget; cbn [slot_ok] in Hslots.
    - unfold labels_of in Hslots. rewrite Hf in Hslots. discriminate.
    - now exists c.
    - cbn [_get_inc_found]. eexists. split; [reflexivity|].
      now rewrite cache_get_set. }
  split; [apply Hraise; congruence|].
  split; [|split].
  - unfold wss. pose proof (Hraise self "percentage"%string Hne Hf) as H.
    destruct (inclusions_found "percentage" true self) as [r s].
    cbn [fst] in H. now subst r.
  - unfold rrf. pose proof (Hraise self "percentage"%string Hne Hf) as H.
    destruct (inclusions_found "percentage" true self) as [r s].
    cbn [fst] in H. now subst r.
  - apply call_history_irrelevant. exact Hne.
Qed.

(** ** The exceptions of [limits] *)

Lemma np_int_array_fits (values values' : list Z) :
  np_int_array values = Ok values' ->
  forall v, In v values -> c_long_fits v = true.
Proof.
  unfold np_int_array.
  destruct (forallb c_long_fits values) eqn:Hf; [|discriminate].
  intros _. now apply forallb_forall.
Qed.

Lemma convert_limits_fits (limits limits' : list (list Z)) :
  convert_limits limits = Ok limits' ->
  forall l v, In l limits -> In v l -> c_long_fits v = true.
Proof.
  revert limits'. induction limits as [|l0 rest IH]; intros limits' H l v Hl Hv;
    [contradiction|].
  cbn [convert_limits] in H.
  destruct (np_int_array l0) as [l0'|ex] eqn:Hl0; cbn [bind] in H;
    [|discriminate].
  destruct (convert_limits rest) as [rest'|ex] eqn:Hr; cbn [bind] in H;
    [|discriminate].
  destruct Hl as [->|Hl].
  - exact (np_int_array_fits _ Hl0 v Hv).
  - exact (IH _ eq_refl l v Hl Hv).
Qed.

(** X11: on a non-empty analysis [limits] raises in two cases only.  When,
    at some query, the delegate returns a result with fewer values than
    there are probabilities, it raises an [IndexError], whatever the other
    queries give.  Otherwise, when a recorded snapshot size or limit does
    not fit the integer arrays that the results are converted to, it raises
    an [OverflowError].  No other exception leaves the method. *)
Theorem limits_raises_index_or_overflow (self : Analysis)
  (prob_allow_miss : prob_arg) (lg : logger) :
  nonempty self ->
  hd_error (values (self_loggers self)) = Some lg ->
  let probs := prob_list prob_allow_miss in
  let delegate q :=
    _get_limits (self_loggers self) q (self_labels self) probs in
  let kept := kept_queries delegate 0 (lg_n_queries lg) in
  let short :=
    exists q l, (q < lg_n_queries lg)%nat /\ delegate q = Some l /\
                (length l < length probs)%nat in
  let too_large :=
    exists q, In q kept /\
      (c_long_fits (Z.of_nat (n_train_upto lg (S q))) = false \/
       exists i_prob, (i_prob < length probs)%nat /\
                      c_long_fits (limit_at delegate i_prob q) = false) in
  (short -> limits prob_allow_miss self = Raise IndexError) /\
  (~ short -> too_large ->
   limits prob_allow_miss self = Raise OverflowError) /\
  (forall e, limits prob_allow_miss self = Raise e ->
             (e = IndexError /\ short) \/
             (e = OverflowError /\ ~ short /\ too_large)).
Proof.
  intros Hne Hlg probs delegate kept short too_large.
  rewrite (limits_unfold prob_allow_miss Hne Hlg). fold probs.
  destruct (@limits_loop_cases self lg probs (lg_n_queries lg))
    as [(Henough & Hloop)|(Hshort & Hloop)];
    cbv zeta in Hloop; fold delegate in Hloop; fold kept in Hloop;
    rewrite Hloop; cbn [bind x_range limits_of].
  - assert (~ short) as Hns.
    { intros (q & l & Hq & Hd & Hl). specialize (Henough q l Hq Hd). lia. }
    set (xs := map Z.of_nat (map (fun q => n_train_upto lg (S q)) kept)).
    set (ls := map (fun j => map (limit_at delegate j) kept)
                   (seq 0 (length probs))).
    assert (forall e,
              (x_range' <- np_int_array xs ;;
               limits' <- convert_limits ls ;;
               Ok {| x_range := map Z.to_nat x_range';
                     limits_of := limits' |}) = Raise e ->
              e = OverflowError /\ too_large) as Hraise.
    { intros e He.
      destruct (np_int_array xs) as [x'|ex] eqn:Hx; cbn [bind] in He.
      - destruct (convert_limits ls) as [lims|ex] eqn:Hc; cbn [bind] in He;
          [discriminate|].
        injection He as <-.
        destruct (convert_limits_raise _ Hc) as (-> & l & v & Hl & Hv & Hfit).
        split; [reflexivity|].
        apply in_map_iff in Hl. destruct Hl as (j & <- & Hj).
        apply in_map_iff in Hv. destruct Hv as (q & <- & Hq).
        apply in_seq in Hj.
        exists q. split; [exact Hq|]. right. exists j. split; [lia|exact Hfit].
      - injection He as <-.
        destruct (np_int_array_raise _ Hx) as (-> & v & Hv & Hfit).
        split; [reflexivity|].
        apply in_map_iff in Hv. destruct Hv as (t & <- & Ht).
        apply in_map_iff in Ht. destruct Ht as (q & <- & Hq).
        exists q. split; [exact Hq|]. now left. }
    split; [intros Hs; contradiction|]. split.
    + intros _ (q & Hq & Hbig).
      destruct (np_int_array xs) as [x'|ex] eqn:Hx; cbn [bind].
      * destruct (convert_limits ls) as [lims|ex] eqn:Hc; cbn [bind].
        -- exfalso. destruct Hbig as [Hbig|(j & Hj & Hbig)].
           ++ rewrite (np_int_array_fits _ Hx) in Hbig; [discriminate|].
              unfold xs. apply in_map, in_map_iff. now exists q.
           ++ rewrite (convert_limits_fits _ Hc
                         (map (limit_at delegate j) kept)) in Hbig;
                [discriminate| |now apply in_map].
              unfold ls. apply in_map_iff. exists j. split; [reflexivity|].
              apply in_seq. lia.
        -- now destruct (convert_limits_raise _ Hc) as (-> & _).
      * now destruct (np_int_array_raise _ Hx) as (-> & _).
    + intros e He. right. destruct (Hraise e He) as (-> & Hbig).
      repeat split; assumption.
  - split; [reflexivity|]. split; [intros Hns; contradiction|].
    intros e He. injection He as <-. left. split; [reflexivity|exact Hshort].
Qed.

(** ** Bounds on the discovery times *)

Lemma zsum_ge (l : list Z) (T : Z) :
  (forall v, In v l -> T <= v) -> Z.of_nat (length l) * T <= zsum l.
Proof.
  induction l as [|v l IH]; intros H; [simpl; lia|].
  cbn [zsum fold_right length]. fold (zsum l).
  pose proof (H v (or_introl eq_refl)).
  specialize (IH (fun w Hw => H w (or_intror Hw))). lia.
Qed.

Lemma np_mean_ge (l : list Z) (T : Z) :
  l <> [] -> (forall v, In v l -> T <= v) -> (qz T <= np_mean l)%Q.
Proof.
  intros Hne H. unfold np_mean. rewrite Qred_correct.
  apply Qle_shift_div_l; [now apply qn_pos|].
  unfold qz, qn. rewrite <- inject_Z_mult, <- Zle_Qle.
  pose proof (zsum_ge l H). lia.
Qed.

Lemma np_average_bounds (l : list nat) (lo hi : nat) :
  l <> [] -> (forall t, In t l -> (lo <= t <= hi)%nat) ->
  (qn lo <= np_average l <= qn hi)%Q.
Proof.
  intros Hne H.
  assert (np_average l = np_mean (map Z.of_nat l)) as ->
    by (unfold np_average, np_mean; now rewrite length_map).
  assert (map Z.of_nat l <> []) as Hne' by (destruct l; [congruence|discriminate]).
  split.
  - apply np_mean_ge; [exact Hne'|]. intros v Hv.
    apply in_map_iff in Hv. destruct Hv as (t & <- & Ht).
    specialize (H t Ht). lia.
  - apply np_mean_le; [exact Hne'|]. intros v Hv.
    apply in_map_iff in Hv. destruct Hv as (t & <- & Ht).
    specialize (H t Ht). lia.
Qed.

Lemma index_from_range (k : nat) (order : list nat) :
  forall i t : nat,
    index_from k order i = Some t -> (i <= t < i + length order)%nat.
Proof.
  induction order as [|x rest IH]; intros i t H; cbn [index_from] in H;
    [discriminate|].
  cbn [length]. destruct (Nat.eqb k x).
  - injection H as <-. lia.
  - apply IH in H. lia.
Qed.

Lemma discovery_time_le (lg : logger) (idx : nat) :
  (discovery_time lg idx
   <= length (fst (_get_labeled_order lg))
      + length (_get_last_proba_order lg))%nat.
Proof.
  unfold discovery_time.
  destruct (index_from idx (fst (_get_labeled_order lg)) 0) as [t|] eqn:H1.
  - apply index_from_range in H1. lia.
  - destruct (index_from idx (_get_last_proba_order lg) 0) as [t|] eqn:H2;
      [|lia].
    apply index_from_range in H2. lia.
Qed.

Lemma dict_find_tabulate_inv {V} (keys : list nat) (g : nat -> V)
  (k : nat) (v : V) :
  dict_find Nat.eqb (tabulate keys g) k = Some v -> In k keys /\ v = g k.
Proof.
  induction keys as [|k' keys IH]; intros H; [discriminate|].
  cbn [tabulate map dict_find] in H.
  destruct (Nat.eqb_spec k k') as [->|Hne].
  - injection H as <-. split; [now left|reflexivity].
  - destruct (IH H) as (Hin & ->). split; [now right|reflexivity].
Qed.

(** What [avg_time_to_discovery] returns over well-formed runs. *)
Lemma avg_time_to_discovery_eq (self : Analysis) (labels : list Z) :
  self_labels self = Some labels ->
  (forall lg, In lg (values (self_loggers self)) -> run_wf labels lg) ->
  avg_time_to_discovery self
  = Ok (tabulate (where_one (Some labels))
          (fun idx =>
             avg_or_zero (qualifying (values (self_loggers self)) idx))).
Proof.
  intros Hl Hwf. unfold avg_time_to_discovery. rewrite Hl.
  change (map (fun label : nat => (label, [])) (where_one (Some labels)))
    with (tabulate (where_one (Some labels)) (fun _ : nat => @nil nat)).
  rewrite walk_runs_spec by (auto). cbn [bind app].
  apply average_trained_spec. intros k _.
  apply (trained_times_spec (values (self_loggers self)) k []).
Qed.

(** X12: over well-formed runs, every average that [avg_time_to_discovery]
    returns is either 0 (no run discovered the item after its prior
    knowledge) or lies between the smallest [n_initial] of the runs and the
    largest number of items a run has ordered, labelled and ranked
    together. *)
Theorem avg_time_to_discovery_bounds (self : Analysis) (labels : list Z)
  (lo hi : nat) :
  self_labels self = Some labels ->
  (forall lg, In lg (values (self_loggers self)) -> run_wf labels lg) ->
  (forall lg, In lg (values (self_loggers self)) ->
     (lo <= seed_size lg)%nat /\
     (length (fst (_get_labeled_order lg))
      + length (_get_last_proba_order lg) <= hi)%nat) ->
  exists results,
    avg_time_to_discovery self = Ok results /\
    forall idx v,
      dict_find Nat.eqb results idx = Some v ->
      v = 0%Q \/ (qn lo <= v <= qn hi)%Q.
Proof.
  intros Hl Hwf Hb. eexists. split; [apply avg_time_to_discovery_eq; eassumption|].
  intros idx v Hv. apply dict_find_tabulate_inv in Hv.
  destruct Hv as (_ & ->). unfold avg_or_zero.
  set (runs := values (self_loggers self)) in *.
  destruct (qualifying runs idx) as [|t ts] eqn:Hq; [now left|].
  right. cbn [length Nat.eqb]. apply np_average_bounds; [discriminate|].
  intros t' Ht'. rewrite <- Hq in Ht'. unfold qualifying in Ht'.
  apply in_flat_map in Ht'. destruct Ht' as (lg & Hlg & Ht').
  destruct (Hb lg Hlg) as (Hlo & Hhi).
  destruct (Nat.leb_spec (seed_size lg) (discovery_time lg idx));
    [|contradiction].
  destruct Ht' as [<-|[]].
  pose proof (discovery_time_le lg idx). lia.
Qed.

(** ** [avg_time_to_discovery] over runs that are not well formed *)

Lemma in_range_cases (n : nat) (order : list nat) :
  (forall idx, In idx order -> (idx < n)%nat) \/
  (exists idx, In idx order /\ (n <= idx)%nat).
Proof.
  induction order as [|x rest [IH|(idx & Hin & Hle)]].
  - left. intros idx [].
  - destruct (Nat.lt_ge_cases x n) as [Hlt|Hge].
    + left. intros idx [<-|Hin]; [exact Hlt|now apply IH].
    + right. exists x. split; [now left|exact Hge].
  - right. exists idx. split; [now right|exact Hle].
Qed.

Lemma label_at_out (labels : list Z) (idx : nat) :
  (length labels <= idx)%nat ->
  label_at (Some labels) idx = Raise IndexError.
Proof.
  intros H. cbn [label_at]. unfold getitem.
  now rewrite (proj2 (nth_error_None labels idx) H).
Qed.

Lemma walk_label_order_out (labels : list Z) (order : list nat) :
  let keys := where_one (Some labels) in
  forall (i : nat) (g : nat -> list nat),
    (exists idx, In idx order /\ (length labels <= idx)%nat) ->
    walk_label_order (Some labels) order i (tabulate keys g)
    = Raise IndexError.
Proof.
  intros keys. induction order as [|x rest IH]; intros i g (idx & Hin & Hle);
    [contradiction|].
  cbn [walk_label_order].
  destruct (Nat.lt_ge_cases x (length labels)) as [Hlt|Hge].
  - assert (exists idx, In idx rest /\ (length labels <= idx)%nat) as Hex.
    { destruct Hin as [->|Hin]; [lia|]. now exists idx. }
    rewrite label_at_ok by exact Hlt. cbn [bind].
    destruct (Z.eqb_spec (nth x labels 0) 1) as [Hone|Hnot].
    + rewrite append_time_tabulate;
        [|apply where_one_NoDup|now apply where_one_in].
      cbn [bind]. now apply IH.
    + cbn [bind]. now apply IH.
  - now rewrite label_at_out.
Qed.

Lemma walk_proba_order_out (labels : list Z) (i_file len_lo : nat)
  (order : list nat) :
  let keys := where_one (Some labels) in
  forall (i : nat) (g : nat -> list nat),
    (exists idx, In idx order /\ (length labels <= idx)%nat) ->
    walk_proba_order (Some labels) i_file len_lo order i (tabulate keys g)
    = Raise IndexError.
Proof.
  intros keys. induction order as [|x rest IH]; intros i g (idx & Hin & Hle);
    [contradiction|].
  cbn [walk_proba_order].
  destruct (Nat.lt_ge_cases x (length labels)) as [Hlt|Hge].
  - assert (exists idx, In idx rest /\ (length labels <= idx)%nat) as Hex.
    { destruct Hin as [->|Hin]; [lia|]. now exists idx. }
    rewrite label_at_ok by exact Hlt. cbn [bind].
    destruct (Z.eqb_spec (nth x labels 0) 1) as [Hone|Hnot].
    + assert (In x keys) as Hk by now apply where_one_in.
      unfold dict_get. rewrite (dict_find_tabulate _ _ _ Hk). cbn [bind].
      destruct (Nat.leb (length (g x)) i_file).
      * rewrite append_time_tabulate; [|apply where_one_NoDup|exact Hk].
        cbn [bind]. now apply IH.
      * cbn [bind]. now apply IH.
    + cbn [bind]. now apply IH.
  - now rewrite label_at_out.
Qed.

(** The runs are walked to the end when all their indices are indices of the
    labels; otherwise the walk stops with an [IndexError]. *)
Lemma walk_runs_cases (labels : list Z) (runs : list logger) :
  let keys := where_one (Some labels) in
  let in_range lg :=
    (forall idx, In idx (fst (_get_labeled_order lg)) ->
                 (idx < length labels)%nat) /\
    (forall idx, In idx (_get_last_proba_order lg) ->
                 (idx < length labels)%nat) in
  forall (i_file : nat) (g : nat -> list nat) (n_initial : list nat),
    (forall k, In k keys -> (i_file <= length (g k))%nat) ->
    ((forall lg, In lg runs -> in_range lg) /\
     exists g',
       walk_runs (Some labels) runs i_file (tabulate keys g) n_initial
       = Ok (tabulate keys g', n_initial ++ map seed_size runs)) \/
    ((exists lg, In lg runs /\ ~ in_range lg) /\
     walk_runs (Some labels) runs i_file (tabulate keys g) n_initial
     = Raise IndexError).
Proof.
  intros keys in_range.
  induction runs as [|lg rest IH]; intros i_file g ninit Hlen.
  - left. split; [intros lg []|]. exists g. cbn [walk_runs map].
    now rewrite app_nil_r.
  - cbn [walk_runs].
    assert (in_range lg <->
            (forall idx, In idx (fst (_get_labeled_order lg)) ->
                         (idx < length labels)%nat) /\
            (forall idx, In idx (_get_last_proba_order lg) ->
                         (idx < length labels)%nat)) as Hin by reflexivity.
    assert (seed_size lg = snd (_get_labeled_order lg)) as Hseed
      by reflexivity.
    destruct (_get_labeled_order lg) as [label_order n].
    cbn [fst snd] in Hin, Hseed.
    destruct (in_range_cases (length labels) label_order)
      as [Hlo|(idx & Hidx & Hle)].
    2:{ right. split.
        - exists lg. split; [now left|]. rewrite Hin.
          intros (H & _). specialize (H idx Hidx). lia.
        - rewrite walk_label_order_out by (now exists idx). reflexivity. }
    rewrite walk_label_order_spec by exact Hlo. cbn [bind]. fold keys.
    destruct (in_range_cases (length labels) (_get_last_proba_order lg))
      as [Hpo|(idx & Hidx & Hle)].
    2:{ right. split.
        - exists lg. split; [now left|]. rewrite Hin.
          intros (_ & H). specialize (H idx Hidx). lia.
        - rewrite walk_proba_order_out by (now exists idx). reflexivity. }
    rewrite walk_proba_order_spec; [|exact Hpo|].
    2:{ intros k Hk. rewrite length_app. specialize (Hlen k Hk). lia. }
    cbn [bind]. fold keys. rewrite fill_missing_spec.
    match goal with
    | |- context [walk_runs _ rest (S i_file) (tabulate keys ?g1) ?ni] =>
        destruct (IH (S i_file) g1 ni) as [(Hall & g' & Hok)|(Hbad & Hraise)]
    end.
    + intros k Hk. specialize (Hlen k Hk).
      match goal with
      | |- context [Nat.leb ?a i_file] =>
          destruct (Nat.leb_spec a i_file) as [Hle|Hgt]
      end.
      * rewrite length_app. cbn [length]. rewrite !length_app in *. lia.
      * lia.
    + left. split.
      * intros lg' [<-|Hlg']; [now apply Hin|now apply Hall].
      * exists g'. rewrite Hok. cbn [map]. rewrite <- app_assoc.
        cbn [app]. now rewrite Hseed.
    + right. split; [|exact Hraise].
      destruct Hbad as (lg' & Hlg' & Hnot). exists lg'.
      split; [now right|exact Hnot].
Qed.

Lemma trained_times_raise (n_initial : list nat) (recorded : list nat) :
  forall (i_file : nat) (e : exn),
    trained_times n_initial recorded i_file = Raise e -> e = IndexError.
Proof.
  induction recorded as [|t rest IH]; intros i e H;
    cbn [trained_times] in H; [discriminate|].
  unfold getitem in H.
  destruct (nth_error n_initial i); cbn [bind] in H;
    [|now injection H as <-].
  destruct (trained_times n_initial rest (S i)) as [tt|ex] eqn:Hr;
    cbn [bind] in H; [discriminate|].
  injection H as <-. exact (IH _ _ Hr).
Qed.

Lemma average_trained_raise (n_initial : list nat) (time_results : times)
  (e : exn) :
  average_trained n_initial time_results = Raise e -> e = IndexError.
Proof.
  induction time_results as [|[label recorded] rest IH]; intros H;
    cbn [average_trained] in H; [discriminate|].
  destruct (trained_times n_initial recorded 0) as [tt|ex] eqn:Ht;
    cbn [bind] in H.
  - destruct (average_trained n_initial rest) as [r|ex]; cbn [bind] in H;
      [discriminate|].
    injection H as <-. now apply IH.
  - injection H as <-. exact (trained_times_raise _ _ _ Ht).
Qed.

Lemma average_trained_raise_at (n_initial : list nat) (keys : list nat)
  (g : nat -> list nat) (k : nat) :
  In k keys ->
  trained_times n_initial (g k) 0 = Raise IndexError ->
  average_trained n_initial (tabulate keys g) = Raise IndexError.
Proof.
  induction keys as [|k' keys IH]; intros Hin Hk; [contradiction|].
  cbn [tabulate map average_trained]. fold (tabulate keys g).
  destruct (trained_times n_initial (g k') 0) as [tt|ex] eqn:Ht; cbn [bind].
  - destruct Hin as [->|Hin]; [congruence|].
    now rewrite IH.
  - now rewrite (trained_times_raise _ _ _ Ht).
Qed.

(** X13: with labels present, [avg_time_to_discovery] raises an
    [IndexError] as soon as a run has labelled or ranked an index that is
    not an index of the labels, and no exception other than [IndexError]
    ever leaves the method. *)
Theorem avg_time_to_discovery_index_error (self : Analysis)
  (labels : list Z) :
  self_labels self = Some labels ->
  ((exists lg idx,
      In lg (values (self_loggers self)) /\
      (In idx (fst (_get_labeled_order lg)) \/
       In idx (_get_last_proba_order lg)) /\
      (length labels <= idx)%nat) ->
   avg_time_to_discovery self = Raise IndexError) /\
  (forall e, avg_time_to_discovery self = Raise e -> e = IndexError).
Proof.
  intros Hl. unfold avg_time_to_discovery. rewrite Hl.
  change (map (fun label : nat => (label, [])) (where_one (Some labels)))
    with (tabulate (where_one (Some labels)) (fun _ : nat => @nil nat)).
  destruct (@walk_runs_cases labels (values (self_loggers self)) 0%nat
              (fun _ => []) [])
    as [(Hall & g' & Hok)|(Hbad & Hraise)]; [intros; cbn; lia| |].
  - rewrite Hok. cbn [bind app]. split.
    + intros (lg & idx & Hlg & Hidx & Hle). exfalso.
      destruct (Hall lg Hlg) as (Hlo & Hpo).
      destruct Hidx as [Hidx|Hidx];
        [specialize (Hlo idx Hidx)|specialize (Hpo idx Hidx)]; lia.
    + intros e. apply average_trained_raise.
  - rewrite Hraise. cbn [bind]. split; [reflexivity|].
    intros e H. now injection H as <-.
Qed.

Lemma occ_length (k : nat) (order : list nat) (i : nat) :
  length (occ k order i) = count_occ Nat.eq_dec order k.
Proof.
  revert i; induction order as [|x rest IH]; intros i; [reflexivity|].
  cbn [occ count_occ]. rewrite length_app, IH.
  destruct (Nat.eqb_spec k x) as [Heq|Hne], (Nat.eq_dec x k) as [Heq'|Hne'];
    try reflexivity; congruence.
Qed.

(** X14: an item must not be labelled twice in a run.  With a single run
    whose indices are all indices of the labels, a relevant item that occurs
    twice in the label order has more recorded times than there are runs,
    and [avg_time_to_discovery] raises an [IndexError] on
    [n_initial[i_file]]. *)
Theorem avg_time_to_discovery_relabelled_item (self : Analysis)
  (labels : list Z) (key : run_key) (lg : logger) (idx : nat) :
  self_labels self = Some labels ->
  self_loggers self = [(key, lg)] ->
  (forall i, In i (fst (_get_labeled_order lg)) -> (i < length labels)%nat) ->
  (forall i, In i (_get_last_proba_order lg) -> (i < length labels)%nat) ->
  nth idx labels 0 = 1 ->
  (2 <= count_occ Nat.eq_dec (fst (_get_labeled_order lg)) idx)%nat ->
  avg_time_to_discovery self = Raise IndexError.
Proof.
  intros Hl Hlg Hlo Hpo Hone Htwice.
  assert (In idx (where_one (Some labels))) as Hk.
  { apply where_one_in. split; [|exact Hone].
    apply Hlo. apply (count_occ_In Nat.eq_dec). lia. }
  unfold avg_time_to_discovery. rewrite Hl, Hlg.
  change (map (fun label : nat => (label, [])) (where_one (Some labels)))
    with (tabulate (where_one (Some labels)) (fun _ : nat => @nil nat)).
  cbn [values map snd walk_runs].
  rewrite <- (occ_length idx _ 0) in Htwice.
  destruct (_get_labeled_order lg) as [label_order n]. cbn [fst] in *.
  rewrite walk_label_order_spec by exact Hlo. cbn [bind].
  rewrite walk_proba_order_spec; [|exact Hpo|intros; lia].
  cbn [bind]. rewrite fill_missing_spec. cbn [bind app].
  apply average_trained_raise_at with (k := idx); [exact Hk|].
  destruct (occ idx label_order 0) as [|t1 [|t2 ts]]; cbn [length] in Htwice;
    try lia.
  cbn [length Nat.leb app]. rewrite app_nil_r.
  cbn [length Nat.leb trained_times].
  unfold getitem. cbn [nth_error bind]. reflexivity.
Qed.

(** ** [from_dir] *)

(** X15: [from_dir] never hands out an empty analysis.  It returns [None]
    exactly when the loader finds no run in the directory; an object it
    returns is in a [nonempty] state with a fresh cache, is named after the
    directory and remembers it; and the only exception is the [KeyError] of
    a first run without a ['labels'] series. *)
Theorem from_dir_never_empty (basename_normpath : string -> string)
  (loggers_from_dir : string -> loggers_arg) (data_dir : string) :
  let runs := loggers_of (loggers_from_dir data_dir) in
  let r := from_dir basename_normpath loggers_from_dir data_dir in
  (r = Ok None <-> runs = []) /\
  (forall self d, r = Ok (Some (self, d)) ->
     d = data_dir /\
     nonempty self /\
     self_inc_found self = Some cache_empty /\
     self_key self = Some (basename_normpath data_dir) /\
     self_loggers self = runs) /\
  (forall e, r = Raise e ->
     e = KeyError /\
     exists k lg rest, runs = (k, lg) :: rest /\ lg_labels lg = None).
Proof.
  intros runs r. subst r. unfold from_dir.
  pose proof (@init_nonempty (loggers_from_dir data_dir)
                (Some (basename_normpath data_dir))) as Hinit.
  unfold __init__ in *. fold (loggers_of (loggers_from_dir data_dir)) in *.
  fold runs in Hinit |- *.
  destruct runs as [|[k lg] rest] eqn:Hruns.
  - cbn [length Nat.eqb bind self_empty].
    split; [split; reflexivity|].
    split; [intros self d H; discriminate|intros e H; discriminate].
  - cbn [length Nat.eqb keys map fst getitem nth_error bind] in Hinit |- *.
    unfold dict_get in Hinit |- *. cbn [dict_find] in Hinit |- *.
    rewrite run_key_eqb_refl in Hinit |- *. cbn [bind] in Hinit |- *.
    destruct (lg_labels lg) as [labels|] eqn:Hlab;
      cbn [logger_get bind self_empty] in Hinit |- *.
    + split; [split; discriminate|].
      split; [|intros e H; discriminate].
      intros self d H. injection H as <- <-.
      destruct (Hinit _ eq_refl eq_refl) as (Hne & Hc).
      split; [reflexivity|]. split; [exact Hne|]. split; [exact Hc|].
      split; reflexivity.
    + split; [split; discriminate|].
      split; [intros self d H; discriminate|].
      intros e H. injection H as <-. split; [reflexivity|].
      now exists k, lg, rest.
Qed.

(** ** The aggregated curve and its norms *)

Lemma cur_vals_at_contributions (ls : list (list Z)) (k : nat) :
  cur_vals_at (length ls) ls k = contributions ls k.
Proof.
  unfold cur_vals_at, contributions.
  assert (forall pre : list (list Z),
            flat_map
              (fun i_file =>
                 match nth_error (pre ++ ls) i_file with
                 | Some incl =>
                     match nth_error incl k with
                     | Some v => [v]
                     | None => []
                     end
                 | None => []
                 end)
              (seq (length pre) (length ls))
            = flat_map
                (fun incl =>
                   match nth_error incl k with Some v => [v] | None => [] end)
                ls) as H.
  { induction ls as [|l rest IH]; intros pre; [reflexivity|].
    cbn [length seq flat_map].
    rewrite nth_error_app2, Nat.sub_diag by lia. cbn [nth_error].
    f_equal.
    specialize (IH (pre ++ [l])).
    rewrite <- app_assoc, length_app in IH. cbn [length app] in IH.
    rewrite Nat.add_1_r in IH. exact IH. }
  exact (H []).
Qed.

(** X16: the aggregated curve aligns runs of different lengths without
    padding.  Its length is the length of the longest run, and its value at
    a step is the mean of the values of the runs that have this step, of
    which there is at least one. *)
Theorem aggregated_curve_is_mean_of_contributions (self : Analysis)
  (labels : list Z) :
  nonempty self ->
  let ls := run_inclusions (values (self_loggers self)) labels in
  exists a e iai ninit,
    _get_inc_found self (Some labels) = Ok (a, e, iai, ninit) /\
    length a = max_len ls /\
    forall k, (k < length a)%nat ->
      contributions ls k <> [] /\
      nth_error a k = Some (np_mean (contributions ls k)).
Proof.
  intros Hne ls.
  destruct (get_inc_found_closed self labels (ne_some Hne))
    as (lg & _ & Hok & Hsteps & _).
  cbv zeta in Hok, Hsteps. fold ls in Hok, Hsteps.
  assert (self_num_runs self = length ls) as Hn.
  { rewrite (ne_runs Hne). unfold ls, run_inclusions, values.
    now rewrite !length_map. }
  rewrite Hn in Hok, Hsteps.
  eexists _, _, _, _. split; [exact Hok|].
  rewrite length_map, length_seq.
  split; [now apply n_steps_max_len|].
  intros k Hk. rewrite <- cur_vals_at_contributions.
  split; [now apply Hsteps|].
  rewrite nth_error_map, nth_error_seq.
  destruct (Nat.ltb_spec k (n_steps self labels)); [reflexivity|lia].
Qed.

(** X17: the norms come from the run that is visited last.  The finder is
    asked once per run, but only the [inc_after_init] and [n_initial] of the
    last run are kept, and they normalise the curve of all the runs. *)
Theorem norms_come_from_last_run (self : Analysis) (labels : list Z)
  (lg : logger) (inclusions : list Z) (iai ninit : Z) :
  nonempty self ->
  self_labels self = Some labels ->
  hd_error (rev (values (self_loggers self))) = Some lg ->
  _find_inclusions lg labels = (inclusions, iai, ninit) ->
  exists a e,
    _get_inc_found self (Some labels) = Ok (a, e, iai, ninit) /\
    fst (inclusions_found "fraction" false self)
    = Ok (map (fun i =>
                 np_div (Fin (qn i))
                   (Fin (qz (Z.of_nat (length labels) - ninit))))
            (seq 0 (length a)),
          map (fun v => np_div (Fin v) (Fin (qz iai))) a,
          map (fun v => np_div (Fin v) (Fin (qz iai))) e).
Proof.
  intros Hne Hl Hlast Hfind.
  destruct (get_inc_found_closed self labels (ne_some Hne))
    as (lg' & Hlg' & Hok & _).
  assert (lg' = lg) as -> by congruence.
  rewrite Hfind in Hok. cbn [fst snd] in Hok.
  eexists _, _. split; [exact Hok|].
  rewrite inclusions_found_curve by exact Hne.
  unfold curve, labels_of. rewrite Hl, Hok. cbn [py_len bind].
  reflexivity.
Qed.

(** ** Repeated calls and unknown formats *)

(** A second call for the same labels finds the entry and leaves the object
    alone. *)
Lemma inclusions_found_again (self : Analysis) (format1 format2 : string)
  (fl : bool) :
  nonempty self ->
  snd (inclusions_found format2 fl (snd (inclusions_found format1 fl self)))
  = snd (inclusions_found format1 fl self).
Proof.
  intros Hne. destruct (ne_cache Hne) as (c & Hc & _).
  rewrite (inclusions_found_state format1 fl self Hc).
  destruct (cache_get c fl) as [slot|] eqn:Hget.
  - eapply inclusions_found_hit; eassumption.
  - destruct (_get_inc_found self (labels_of self fl))
      as [[[[a e] iai] ninit]|ex];
      (eapply inclusions_found_hit; [reflexivity|];
       rewrite ?cache_get_set, Bool.eqb_reflx; reflexivity).
Qed.

(** The object after a metric is the object after its first call of
    [inclusions_found]. *)
Lemma wss_state (val : Q) (x_format : string) (fl : bool) (self : Analysis) :
  nonempty self ->
  snd (wss val x_format fl self)
  = snd (inclusions_found "percentage" fl self).
Proof.
  intros Hne. unfold wss.
  pose proof (inclusions_found_again "percentage" "number" fl Hne) as H2.
  destruct (inclusions_found "percentage" fl self)
    as [[[[norm_xr norm_yr] ?]|ex] self1]; cbn [snd] in *; [|reflexivity].
  destruct (String.eqb x_format "number"); [|reflexivity].
  destruct (inclusions_found "number" fl self1)
    as [[[[x_return y_result] ?]|ex] self2]; cbn [snd] in *; now subst.
Qed.

Lemma rrf_state (val : Q) (x_format : string) (fl : bool) (self : Analysis) :
  nonempty self ->
  snd (rrf val x_format fl self)
  = snd (inclusions_found "percentage" fl self).
Proof.
  intros Hne. unfold rrf.
  pose proof (inclusions_found_again "percentage" "number" fl Hne) as H2.
  destruct (inclusions_found "percentage" fl self)
    as [[[[norm_xr norm_yr] ?]|ex] self1]; cbn [snd] in *; [|reflexivity].
  destruct (String.eqb x_format "number"); [|reflexivity].
  destruct (inclusions_found "number" fl self1)
    as [[[[x_return y_result] ?]|ex] self2]; cbn [snd] in *; now subst.
Qed.

(** X18: the metrics are repeatable.  On a non-empty analysis a second call
    of [wss] or [rrf] with the same arguments returns what the first call
    returned, a value or an exception, and leaves the object as the first
    call left it; the first call changes nothing but the cache. *)
Theorem metrics_repeatable (self : Analysis) (val : Q) (x_format : string)
  (fl : bool) :
  nonempty self ->
  (wss val x_format fl (snd (wss val x_format fl self))
   = wss val x_format fl self) /\
  (rrf val x_format fl (snd (rrf val x_format fl self))
   = rrf val x_format fl self) /\
  self_labels (snd (wss val x_format fl self)) = self_labels self /\
  self_final_labels (snd (wss val x_format fl self))
  = self_final_labels self /\
  self_loggers (snd (wss val x_format fl self)) = self_loggers self.
Proof.
  intros Hne.
  assert (inclusions_found "percentage" fl
            (snd (inclusions_found "percentage" fl self))
          = inclusions_found "percentage" fl self) as Hrep.
  { rewrite (surjective_pairing
               (inclusions_found "percentage" fl
                  (snd (inclusions_found "percentage" fl self)))).
    rewrite call_history_irrelevant, inclusions_found_again by exact Hne.
    symmetry. apply surjective_pairing. }
  destruct (inclusions_found_fields "percentage" fl self)
    as (Hl & Hf & Hlg & _).
  rewrite !wss_state, !rrf_state by exact Hne.
  split; [|split; [|now repeat split]].
  - unfold wss. now rewrite Hrep.
  - unfold rrf. now rewrite Hrep.
Qed.

Lemma scale_other_format (result_format : string) (len_labels : Z)
  (e : inc_entry) :
  String.eqb result_format "percentage" = false ->
  String.eqb result_format "number" = false ->
  scale result_format len_labels e = scale "fraction" len_labels e.
Proof. intros H1 H2. unfold scale. now rewrite H1, H2. Qed.

(** X19: the formats are not validated.  [inclusions_found] treats every
    [result_format] other than ["percentage"] and ["number"] as
    ["fraction"], and [wss] and [rrf] treat every [x_format] other than
    ["number"] as ["percentage"]; no exception is raised for an unknown
    format. *)
Theorem unknown_format_is_default (self : Analysis) (result_format : string)
  (x_format : string) (val : Q) (fl : bool) :
  (result_format <> "percentage"%string ->
   result_format <> "number"%string ->
   inclusions_found result_format fl self
   = inclusions_found "fraction" fl self) /\
  (x_format <> "number"%string ->
   wss val x_format fl self = wss val "percentage" fl self /\
   rrf val x_format fl self = rrf val "percentage" fl self).
Proof.
  split.
  - intros H1 H2. apply String.eqb_neq in H1, H2.
    unfold inclusions_found, normalise.
    destruct (self_inc_found self) as [c|]; [|reflexivity].
    destruct (cache_get c fl).
    + f_equal.
      destruct (py_len (if fl then self_final_labels self
                        else self_labels self)); cbn [bind]; [|reflexivity].
      destruct (entry_get c fl); cbn [bind]; [|reflexivity].
      now apply scale_other_format.
    + destruct (_get_inc_found self _) as [[[[a e] iai] ninit]|ex];
        [|reflexivity].
      f_equal.
      destruct (py_len (if fl then self_final_labels self
                        else self_labels self)); cbn [bind]; [|reflexivity].
      destruct (entry_get _ fl); cbn [bind]; [|reflexivity].
      now apply scale_other_format.
  - intros H. apply String.eqb_neq in H. unfold wss, rrf. rewrite H.
    split; reflexivity.
Qed.

End Methods.

(** ** The claims on concrete runs *)

Import Helpers Scenario.

Example init_self8 : __init__ (LoggerList [run8]) None = Ok self8.
Proof. reflexivity. Qed.

Example find_inclusions_run8 :
  find_inclusions run8 labels8 = ([0; 0; 1; 2; 3; 3; 3; 4], 4, 2).
Proof. reflexivity. Qed.

Lemma nonempty_self_ragged : nonempty find_inclusions sqrt_floor self_ragged.
Proof.
  apply (init_nonempty find_inclusions sqrt_floor
           (LoggerList [with_labels labels5 run_short; run_long]) None);
    reflexivity.
Qed.

Lemma nonempty_self_pair : nonempty find_inclusions sqrt_floor self_pair.
Proof.
  apply (init_nonempty find_inclusions sqrt_floor
           (LoggerList [with_labels labels5 run_a; run_b]) None);
    reflexivity.
Qed.

Lemma nonempty_self8 : nonempty find_inclusions sqrt_floor self8.
Proof.
  apply (init_nonempty find_inclusions sqrt_floor (LoggerList [run8]) None);
    reflexivity.
Qed.

Lemma inclusions_found_empty_analysis_witness :
  exists self,
    __init__ (LoggerList []) None = Ok self /\
    self_empty self = true /\
    self_labels self = None /\
    self_inc_found self = None /\
    inclusions_found find_inclusions sqrt_floor "fraction" false self
    = (Raise AttributeError, self).
Proof.
  apply (inclusions_found_empty_analysis find_inclusions sqrt_floor).
  left; reflexivity.
Defined.

(** In the scenario of the specification the format ["number"] gives the
    steps scaled by 8/6 and the raw means. *)
Lemma number_format_norms_witness :
  fst (inclusions_found find_inclusions sqrt_floor "number" false self8)
  = Ok ([Fin 0; Fin (4 # 3); Fin (8 # 3); Fin 4;
         Fin (16 # 3); Fin (20 # 3); Fin 8; Fin (28 # 3)],
        [Fin 0; Fin 0; Fin 1; Fin 2; Fin 3; Fin 3; Fin 3; Fin 4],
        [Fin 0; Fin 0; Fin 0; Fin 0; Fin 0; Fin 0; Fin 0; Fin 0]).
Proof.
  destruct (number_format_norms (labels := labels8) nonempty_self8 eq_refl)
    as (a & e & iai & ninit & Hc & Hnorm); [discriminate|].
  vm_compute in Hc. injection Hc as <- <- <- <-.
  rewrite Hnorm by discriminate. vm_compute; reflexivity.
Defined.

(** C1 as stated fails on its own scenario: the x values are not
    [i / 8] and the y values are not [mean / 4]. *)
Lemma number_format_claimed_values_fail :
  exists x y ye,
    fresh (LoggerList [run8])
      (inclusions_found find_inclusions sqrt_floor "number" false)
    = Ok (x, y, ye) /\
    all_same x [Fin 0; Fin (1 # 8); Fin (1 # 4); Fin (3 # 8);
                Fin (1 # 2); Fin (5 # 8); Fin (3 # 4); Fin (7 # 8)] = false /\
    all_same y [Fin 0; Fin 0; Fin (1 # 4); Fin (1 # 2);
                Fin (3 # 4); Fin (3 # 4); Fin (3 # 4); Fin 1] = false.
Proof.
  do 3 eexists. split; [vm_compute; reflexivity|]. split; reflexivity.
Qed.

Example init_self_ragged :
  __init__ (LoggerList [with_labels labels5 run_short; run_long]) None
  = Ok self_ragged.
Proof. reflexivity. Qed.

(** Two ragged runs: both contribute to the steps 0 and 1, only the longer
    one to the steps 2, 3 and 4. *)
Lemma dispersion_convention_witness :
  let e := [stats_sem sqrt_floor [0; 0]; stats_sem sqrt_floor [1; 0];
            qz 0; qz 1; qz 2] in
  _get_inc_found find_inclusions sqrt_floor self_ragged (Some labels5)
  = Ok ([0; 1 # 2; 0; 1; 2]%Q, e, 2, 1) /\
  nth_error e 1 = Some (stats_sem sqrt_floor [1; 0]) /\
  nth_error e 2 = Some (qz 0).
Proof.
  intros e.
  destruct (@dispersion_convention find_inclusions sqrt_floor self_ragged
              false labels5 nonempty_self_ragged eq_refl)
    as (a & e' & iai & ninit & Hc & _ & Hmulti & _).
  assert (_get_inc_found find_inclusions sqrt_floor self_ragged (Some labels5)
          = Ok ([0; 1 # 2; 0; 1; 2]%Q, e, 2, 1)) as Hc'
    by (vm_compute; reflexivity).
  rewrite Hc' in Hc. injection Hc as <- <- <- <-.
  split; [reflexivity|].
  assert (self_num_runs self_ragged <> 1%nat) as Hn by discriminate.
  split.
  - destruct (Hmulti Hn 1%nat) as (_ & Hsem); [simpl; lia|].
    apply Hsem. vm_compute. lia.
  - destruct (Hmulti Hn 2%nat) as (Hraw & _); [simpl; lia|].
    apply Hraw. reflexivity.
Defined.

(** C2 as stated fails for a single run whose [inc_after_init] is 0: the
    dispersions are forced to zero, but the returned [y_error] is nan. *)
Lemma single_run_y_error_nan :
  __init__ (LoggerList [with_labels labels_seed run_seed]) None = Ok self_seed /\
  self_num_runs self_seed = 1%nat /\
  _get_inc_found find_inclusions sqrt_floor self_seed (Some labels_seed)
  = Ok ([1; 1]%Q, [0; 0]%Q, 0, 1) /\
  fst (inclusions_found find_inclusions sqrt_floor "fraction" false self_seed)
  = Ok ([Fin 0; Fin 1], [PInf; PInf], [NaN; NaN]) /\
  all_same [NaN; NaN] [Fin 0; Fin 0] = false.
Proof. repeat split. Qed.

(** Two runs of five steps each. *)
Lemma number_curve_bounded_monotone_witness :
  exists x y ye,
    fst (inclusions_found find_inclusions sqrt_floor "number" false self_pair)
    = Ok (x, y, ye) /\
    (forall v, In v y -> np_ge (Fin (qz (n_relevant labels5))) v = true) /\
    np_nondecreasing y.
Proof.
  destruct (number_curve_bounded_monotone (labels := labels5)
              nonempty_self_pair eq_refl)
    as (a & e & iai & ninit & Hc & Hcurve).
  - discriminate.
  - repeat constructor; apply nondecreasingb_sound; reflexivity.
  - repeat constructor; vm_compute; discriminate.
  - vm_compute in Hc. injection Hc as <- <- <- <-.
    destruct Hcurve as (x & y & ye & Hr & Hb & Hm); [discriminate|].
    exists x, y, ye. split; [exact Hr|]. split; [exact Hb|].
    apply Hm. exists 5%nat. intros l Hl.
    vm_compute in Hl. destruct Hl as [<-|[<-|[]]]; reflexivity.
Defined.

(** C3 as stated fails for runs of different lengths: each run is
    non-decreasing, but the mean drops from 1/2 to 0 when the short run
    ends. *)
Lemma ragged_runs_curve_decreases :
  run_inclusions find_inclusions (values (self_loggers self_ragged)) labels5
  = [[0; 1]; [0; 0; 0; 1; 2]] /\
  Forall nondecreasing [[0; 1]; [0; 0; 0; 1; 2]] /\
  (exists x ye,
     fresh (LoggerList [with_labels labels5 run_short; run_long])
       (inclusions_found find_inclusions sqrt_floor "number" false)
     = Ok (x, [Fin 0; Fin (1 # 2); Fin 0; Fin 1; Fin 2], ye)) /\
  ~ np_nondecreasing [Fin 0; Fin (1 # 2); Fin 0; Fin 1; Fin 2].
Proof.
  split; [reflexivity|]. split; [|split].
  - repeat constructor; apply nondecreasingb_sound; reflexivity.
  - do 2 eexists. vm_compute; reflexivity.
  - intros H. specialize (H 1%nat (Fin (1 # 2)) (Fin 0) eq_refl eq_refl).
    discriminate.
Qed.

(** In the scenario of the specification recall 100 is reached at the last
    step. *)
Lemma wss_none_iff_unreached_witness :
  fst (wss find_inclusions sqrt_floor 100 "percentage" false self8)
  = Ok (Some (Fin (-50 # 3), (Fin (350 # 3), Fin (350 # 3)),
              (Fin (350 # 3), Fin 100))) /\
  fst (wss find_inclusions sqrt_floor 101 "percentage" false self8) = Ok None.
Proof.
  destruct (@wss_none_iff_unreached find_inclusions sqrt_floor self8 100
              false labels8 nonempty_self8 eq_refl)
    as (x & y & ye & Hc & _ & Hfound).
  destruct (@wss_none_iff_unreached find_inclusions sqrt_floor self8 101
              false labels8 nonempty_self8 eq_refl)
    as (x' & y' & ye' & Hc' & Hnone & _).
  vm_compute in Hc. injection Hc as <- <- <-.
  vm_compute in Hc'. injection Hc' as <- <- <-.
  split.
  - rewrite (Hfound 7%nat).
    + vm_compute; reflexivity.
    + simpl; lia.
    + vm_compute; reflexivity.
    + intros j Hj.
      destruct j as [|[|[|[|[|[|[|j]]]]]]]; try (vm_compute; reflexivity); lia.
  - apply Hnone. intros i Hi.
    destruct i as [|[|[|[|[|[|[|[|i]]]]]]]]; try (vm_compute; reflexivity).
    simpl in Hi; lia.
Defined.

(** In the scenario of the specification. *)
Lemma number_format_round_trip_witness :
  exists x y ye,
    fst (inclusions_found find_inclusions sqrt_floor "number" false self8)
    = Ok (x, y, ye) /\
    length x = 8%nat /\ length y = 8%nat /\
    exists qx qy,
      nth_error x 1 = Some (Fin qx) /\ nth_error y 2 = Some (Fin qy) /\
      (qx * (qz (8 - 2) / qz 8) == 1)%Q /\ (qy == 1)%Q.
Proof.
  destruct (number_format_round_trip (labels := labels8) nonempty_self8
              eq_refl)
    as (a & e & iai & ninit & Hc & Hcurve); [discriminate|].
  vm_compute in Hc. injection Hc as <- <- <- <-.
  destruct Hcurve as (x & y & ye & Hr & Hx & Hy & Hrt);
    [discriminate|discriminate|].
  exists x, y, ye. repeat split; try assumption.
  destruct (Hrt 1%nat 0%Q eq_refl) as (qx & _ & Hqx & _ & Hx1 & _).
  destruct (Hrt 2%nat 1%Q eq_refl) as (_ & qy & _ & Hqy & _ & Hy2).
  exists qx, qy. repeat split; assumption.
Defined.

(** C7 as stated fails in the scenario of the specification: multiplying x
    by [N = 8] and y by [inc_after_init = 4] is far from the raw curve. *)
Lemma number_format_round_trip_fails :
  exists x y ye,
    fresh (LoggerList [run8])
      (inclusions_found find_inclusions sqrt_floor "number" false)
    = Ok (x, y, ye) /\
    _get_inc_found find_inclusions sqrt_floor self8 (Some labels8)
    = Ok ([0; 0; 1; 2; 3; 3; 3; 4]%Q, [0; 0; 0; 0; 0; 0; 0; 0]%Q, 4, 2) /\
    all_close (1 # 2) (map (fun v => np_mul v (Fin (qn (length labels8)))) x)
      (map (fun i => Fin (qn i)) (seq 0 8)) = false /\
    all_close (1 # 2) (map (fun v => np_mul v (Fin (qz 4))) y)
      (map Fin [0; 0; 1; 2; 3; 3; 3; 4]%Q) = false.
Proof.
  do 3 eexists. split; [vm_compute; reflexivity|]. repeat split.
Qed.

Example init_self_ranked :
  __init__ (LoggerList [with_labels labels4 run_p1; run_p2]) None
  = Ok self_ranked.
Proof. reflexivity. Qed.

Example init_self_q :
  __init__ (LoggerList [with_labels labels4 run_q]) None = Ok self_q.
Proof. reflexivity. Qed.

Example init_self_f :
  __init__ (LoggerList [with_labels labels4 run_f]) None = Ok self_f.
Proof. reflexivity. Qed.


Example self_f_filled_reached :
  snd (inclusions_found find_inclusions sqrt_floor "fraction" true
         (snd (inclusions_found find_inclusions sqrt_floor "fraction" false
                 self_f)))
  = self_f_filled.
Proof. reflexivity. Qed.

(** Item 0 is in the seed of both runs; item 3 is ranked first by one run
    and second by the other, after two labelled items. *)
Lemma avg_time_to_discovery_trained_only_witness :
  exists results,
    avg_time_to_discovery get_labeled_order get_last_proba_order self_ranked
    = Ok results /\
    results = [(0%nat, 0%Q); (3%nat, 5 # 2)] /\
    dict_find Nat.eqb results 0%nat = Some 0%Q /\
    dict_find Nat.eqb results 3%nat = Some (np_average [2; 3]%nat).
Proof.
  destruct (@avg_time_to_discovery_trained_only get_labeled_order
              get_last_proba_order self_ranked labels4 eq_refl)
    as (results & Hr & _ & Havg & Hzero).
  - intros lg Hlg. simpl in Hlg.
    destruct Hlg as [<-|[<-|[]]]; (split; [|split]).
    + repeat constructor; simpl; intuition discriminate.
    + intros idx Hidx; simpl in Hidx |- *. intuition lia.
    + intros idx Hidx; simpl in Hidx |- *. intuition lia.
    + repeat constructor; simpl; intuition discriminate.
    + intros idx Hidx; simpl in Hidx |- *. intuition lia.
    + intros idx Hidx; simpl in Hidx |- *. intuition lia.
  - exists results. split; [exact Hr|]. split.
    + vm_compute in Hr. now injection Hr as <-.
    + split.
      * apply Hzero; [vm_compute; tauto|].
        intros lg Hlg. simpl in Hlg.
        destruct Hlg as [<-|[<-|[]]]; vm_compute; lia.
      * rewrite (Havg 3%nat) by (vm_compute; tauto). reflexivity.
Defined.

(** C5 as stated fails when a run has labelled an item twice.  Run 0 of
    [self_dup], which has no seed, labels item 3 at the times 0 and 1 and
    records both; run 1 then records no time for it.  The filter compares
    the second time with the [n_initial] of run 1, which is 2, and drops
    it: the method returns the average of the time 0 alone.  The average of
    the two recorded times, both at least the [n_initial] of the run they
    come from, is 1/2; with one time per run (0 in run 0, and 2 in run 1,
    whose ranking has item 3 first) it is 1. *)
Lemma relabelled_item_time_misattributed :
  let runs := values (self_loggers self_dup) in
  __init__ (LoggerList [with_labels labels4 run_dup0; run_dup1]) None
  = Ok self_dup /\
  walk_runs get_labeled_order get_last_proba_order (Some labels4) runs 0
    [(0%nat, []); (3%nat, [])] []
  = Ok ([(0%nat, [2; 0]%nat); (3%nat, [0; 1]%nat)], [0; 2]%nat) /\
  avg_time_to_discovery get_labeled_order get_last_proba_order self_dup
  = Ok [(0%nat, 2%Q); (3%nat, 0%Q)] /\
  occ 3 (fst (get_labeled_order (with_labels labels4 run_dup0))) 0
  = [0; 1]%nat /\
  seed_size get_labeled_order (with_labels labels4 run_dup0) = 0%nat /\
  np_average [0; 1]%nat = (1 # 2)%Q /\
  qualifying get_labeled_order get_last_proba_order runs 3 = [0; 2]%nat /\
  np_average (qualifying get_labeled_order get_last_proba_order runs 3) = 1%Q.
Proof. repeat split. Qed.

(** Query 0 has a snapshot but no limit; the queries 1 and 2 have a limit
    but no snapshot. *)
Lemma limits_skips_null_steps_witness :
  exists r,
    limits sample_limits (ProbList [1 # 10; 2]%Q) self_q = Ok r /\
    x_range r = [2; 2; 3]%nat /\
    limits_of r = [[2; 3; 4]; [2; 3; 4]] /\
    forall l, In l (limits_of r) -> length l = length (x_range r).
Proof.
  destruct (@limits_skips_null_steps find_inclusions sample_limits sqrt_floor
              self_q (ProbList [1 # 10; 2]%Q) (with_labels labels4 run_q))
    as (Hrec & Hret).
  - apply (init_nonempty find_inclusions sqrt_floor
             (LoggerList [with_labels labels4 run_q]) None); reflexivity.
  - reflexivity.
  - destruct Hret as (r & Hr).
    + intros q l Hq Hd.
      destruct q as [|[|[|[|q]]]]; [discriminate| | | |simpl in Hq; lia];
        (injection Hd as <-; split; [simpl; lia|];
         intros v [<-|[<-|[]]]; reflexivity).
    + intros q idx Hidx.
      destruct q as [|[|[|[|q]]]]; simpl in Hidx; try discriminate;
        injection Hidx as <-; reflexivity.
    + destruct (Hrec r Hr) as (Hx & Hl & _ & Hlen).
      exists r. repeat split; assumption.
Defined.

Lemma helpers_ignore_labels_hold :
  helpers_ignore_labels find_inclusions get_labeled_order
    get_last_proba_order sample_limits.
Proof.
  repeat split.
  - intros l1 l2 labels (_ & _ & Ho & Hn & _).
    unfold find_inclusions. now rewrite Ho, Hn.
  - intros l1 l2 (_ & _ & Ho & Hn & _).
    unfold get_labeled_order. now rewrite Ho, Hn.
  - intros l1 l2 (_ & _ & _ & _ & Hp). exact Hp.
  - intros d1 d2 q labels probs Hd. unfold sample_limits.
    assert (length d1 = length d2) as -> by (induction Hd; simpl; congruence).
    reflexivity.
Qed.

(** The second run holds other labels in one collection than in the
    other. *)
Lemma labels_from_first_logger_only_witness :
  let c1 := LoggerList [with_labels labels4 run_p1; run_p2] in
  let c2 :=
    LoggerList [with_labels labels4 run_p1; with_labels [0; 0; 1; 1] run_p2] in
  exists s1 s2,
    __init__ c1 None = Ok s1 /\ __init__ c2 None = Ok s2 /\
    fst (inclusions_found find_inclusions sqrt_floor "number" false s1)
    = fst (inclusions_found find_inclusions sqrt_floor "number" false s2) /\
    avg_time_to_discovery get_labeled_order get_last_proba_order s1
    = avg_time_to_discovery get_labeled_order get_last_proba_order s2 /\
    limits sample_limits (ProbOne 2) s1 = limits sample_limits (ProbOne 2) s2.
Proof.
  intros c1 c2.
  destruct (labels_from_first_logger_only sqrt_floor
              helpers_ignore_labels_hold) as (Henum & Hinit & Hops).
  assert (same_collection c1 c2) as Hsame.
  { split; [|now split]. apply Henum.
    repeat constructor; intros; reflexivity. }
  specialize (Hinit c1 c2 None Hsame).
  destruct (__init__ c1 None) as [s1|] eqn:E1; [|discriminate].
  destruct (__init__ c2 None) as [s2|] eqn:E2; [|discriminate].
  exists s1, s2.
  destruct (Hops s1 s2 Hinit) as (Hinc & _ & _ & Havg & Hlim).
  repeat split; auto. apply Hinc.
Defined.

(** On the new object the entry of [False] is missing, and the call leaves
    the entry of [True] behind; once both entries are filled the x position
    4/3 is scaled by 1/3, from the entry of [False] (the entry of [True]
    would give 2/3). *)
Lemma wss_number_reads_false_entry_witness :
  wss find_inclusions sqrt_floor 100 "number" true self_f
  = (Raise KeyError,
     set_inc_found self_f
       {| at_false := None;
          at_true :=
            Some (Some {| avg := [1; 2; 2; 3]%Q; err := [0; 0; 0; 0]%Q;
                          inc_after_init := 2; n_initial := 1 |}) |}) /\
  fst (wss find_inclusions sqrt_floor 100 "number" true self_f_filled)
  = Ok (Some (Fin (200 # 3), (Fin (4 # 3), Fin (4 # 3)),
              (Fin (4 # 9), Fin 2))).
Proof.
  destruct (wss_number_reads_false_entry find_inclusions sqrt_floor
              self_f 100) as (Hfresh & _ & _).
  destruct (wss_number_reads_false_entry find_inclusions sqrt_floor
              self_f_filled 100) as (_ & _ & Hfilled).
  split.
  - destruct (Hfresh [1; 1; 0; 1]) as (a & e & iai & ninit & Hc & Hkey);
      [discriminate|reflexivity|reflexivity|discriminate|].
    vm_compute in Hc. injection Hc as <- <- <- <-.
    apply Hkey. discriminate.
  - etransitivity.
    + apply (f_equal fst). eapply (Hfilled both_entries); reflexivity.
    + reflexivity.
Defined.

(** C10 as stated fails on a new analysis without final labels: the call
    raises [TypeError], not [KeyError], and no entry is filled. *)
Lemma wss_number_without_final_labels :
  __init__ (LoggerList [run8]) None = Ok self8 /\
  self_final_labels self8 = None /\
  wss find_inclusions sqrt_floor 100 "number" true self8
  = (Raise TypeError,
     set_inc_found self8 {| at_false := None; at_true := Some None |}).
Proof. repeat split. Qed.

(** ** Further properties on concrete runs *)

Import Cases.

Lemma nonempty_self_q : nonempty find_inclusions sqrt_floor self_q.
Proof.
  apply (init_nonempty find_inclusions sqrt_floor
           (LoggerList [with_labels labels4 run_q]) None); reflexivity.
Qed.

Lemma nonempty_self_mixed : nonempty find_inclusions sqrt_floor self_mixed.
Proof.
  apply (init_nonempty find_inclusions sqrt_floor
           (LoggerList [with_labels labels5 run_short; run_late]) None);
    reflexivity.
Qed.

(** The x axis of [self8] reaches 50 percent at step 3 and never reaches 150
    percent. *)
Lemma rrf_none_iff_unreached_witness :
  fst (rrf find_inclusions sqrt_floor 50 "percentage" false self8)
  = Ok (Some (Fin 50, (Fin 50, Fin 50), (Fin 0, Fin 50))) /\
  fst (rrf find_inclusions sqrt_floor 150 "percentage" false self8) = Ok None.
Proof.
  split.
  - destruct (@rrf_none_iff_unreached find_inclusions sqrt_floor self8 50
                false labels8 nonempty_self8 eq_refl)
      as (x & y & ye & Hc & _ & Hfirst).
    vm_compute in Hc. injection Hc as <- <- <-.
    rewrite (Hfirst 3%nat); [reflexivity|simpl; lia|reflexivity|].
    intros j Hj. destruct j as [|[|[|j]]]; [reflexivity..|lia].
  - destruct (@rrf_none_iff_unreached find_inclusions sqrt_floor self8 150
                false labels8 nonempty_self8 eq_refl)
      as (x & y & ye & Hc & Hnone & _).
    vm_compute in Hc. injection Hc as <- <- <-.
    apply Hnone. intros i Hi.
    do 8 (destruct i as [|i]; [reflexivity|]). simpl in Hi. lia.
Defined.


Lemma percentage_is_fraction_times_100_witness :
  let times_100 := map (fun v => np_mul v (Fin 100)) in
  fst (inclusions_found find_inclusions sqrt_floor "percentage" false self8)
  = Ok (times_100 [Fin 0; Fin (1 # 6); Fin (1 # 3); Fin (1 # 2);
                   Fin (2 # 3); Fin (5 # 6); Fin 1; Fin (7 # 6)],
        times_100 [Fin 0; Fin 0; Fin (1 # 4); Fin (1 # 2);
                   Fin (3 # 4); Fin (3 # 4); Fin (3 # 4); Fin 1],
        times_100 [Fin 0; Fin 0; Fin 0; Fin 0; Fin 0; Fin 0; Fin 0; Fin 0]).
Proof.
  intros times_100.
  destruct (@percentage_is_fraction_times_100 find_inclusions sqrt_floor
              self8 false labels8 nonempty_self8 eq_refl)
    as (x & y & ye & Hf & Hp).
  vm_compute in Hf. injection Hf as <- <- <-. exact Hp.
Defined.

(** The runs of [self_ragged] have 2 and 5 steps. *)
Lemma curve_length_is_longest_run_witness :
  exists x y ye,
    fst (inclusions_found find_inclusions sqrt_floor "fraction" false
           self_ragged) = Ok (x, y, ye) /\
    length x = 5%nat /\ length y = 5%nat /\ length ye = 5%nat.
Proof.
  destruct (fst (inclusions_found find_inclusions sqrt_floor "fraction" false
                   self_ragged)) as [[[x y] ye]|ex] eqn:Hc;
    [|vm_compute in Hc; discriminate].
  exists x, y, ye. split; [reflexivity|].
  exact (@curve_length_is_longest_run find_inclusions sqrt_floor self_ragged
           false labels5 "fraction" x y ye nonempty_self_ragged eq_refl Hc).
Defined.

Lemma single_run_curve_witness :
  _get_inc_found find_inclusions sqrt_floor self8 (Some labels8)
  = Ok ([0; 0; 1; 2; 3; 3; 3; 4]%Q, [0; 0; 0; 0; 0; 0; 0; 0]%Q, 4, 2) /\
  fst (inclusions_found find_inclusions sqrt_floor "fraction" false self8)
  = Ok ([Fin 0; Fin (1 # 6); Fin (1 # 3); Fin (1 # 2);
         Fin (2 # 3); Fin (5 # 6); Fin 1; Fin (7 # 6)],
        [Fin 0; Fin 0; Fin (1 # 4); Fin (1 # 2);
         Fin (3 # 4); Fin (3 # 4); Fin (3 # 4); Fin 1],
        [Fin 0; Fin 0; Fin 0; Fin 0; Fin 0; Fin 0; Fin 0; Fin 0]).
Proof.
  destruct (@single_run_curve find_inclusions sqrt_floor self8 (KInt 0) run8
              labels8 _ _ _ nonempty_self8 eq_refl eq_refl
              find_inclusions_run8) as (Hc & Hcurve).
  split; [rewrite Hc|rewrite Hcurve]; vm_compute; reflexivity.
Defined.

(** With [x_format = "number"] the bar of [self8] at 50 percent stands at 4
    items; the value is the one of the percentage bar. *)
Lemma x_format_keeps_value_witness :
  exists r',
    fst (wss find_inclusions sqrt_floor 50 "percentage" false self8) = Ok r' /\
    bar_value r' = Some (Fin 0).
Proof.
  destruct (proj1 (x_format_keeps_value find_inclusions sqrt_floor self8 50
                     "number" false
                     (Some (Fin 0, (Fin 4, Fin 4), (Fin (8 # 3), Fin 2)))))
    as (r' & Hr & Hv); [vm_compute; reflexivity|].
  exists r'. split; [exact Hr|exact Hv].
Defined.

Lemma wss_number_on_labels_witness :
  fst (wss find_inclusions sqrt_floor 50 "number" false self8)
  = Ok (Some (Fin 0, (Fin 4, Fin 4), (Fin (8 # 3), Fin 2))).
Proof.
  destruct (@wss_number_on_labels find_inclusions sqrt_floor self8 50 labels8
              nonempty_self8 eq_refl)
    as (a & e & iai & ninit & Hc & Hbar); [discriminate|].
  vm_compute in Hc. injection Hc as <- <- <- <-.
  destruct Hbar as (x & y & ye & nx & ny & ne & Hp & Hn & Hw);
    [discriminate|vm_compute; discriminate|].
  vm_compute in Hp. injection Hp as <- <- <-.
  vm_compute in Hn. injection Hn as <- <- <-.
  rewrite Hw. vm_compute. reflexivity.
Defined.

(** A first run without labels makes the constructor raise; a later one
    does not. *)
Lemma init_reads_first_logger_witness :
  __init__ (LoggerList [run_short; run8]) None = Raise KeyError /\
  exists self,
    __init__ (LoggerList [run8; run_short]) None = Ok self /\
    self_labels self = Some labels8 /\
    self_final_labels self = None.
Proof.
  split.
  - exact (proj2 (init_reads_first_logger find_inclusions sqrt_floor
                    (LoggerList [run_short; run8]) None)
             (KInt 0) run_short [(KInt 1, run8)] eq_refl).
  - destruct (proj2 (init_reads_first_logger find_inclusions sqrt_floor
                       (LoggerList [run8; run_short]) None)
                (KInt 0) run8 [(KInt 1, run_short)] eq_refl)
      as (self & Hinit & _ & Hl & Hf & _).
    exists self. repeat split; assumption.
Defined.

Lemma metrics_raise_on_empty_analysis_witness :
  exists self,
    __init__ (LoggerDict []) None = Ok self /\
    wss find_inclusions sqrt_floor 95 "number" true self
    = (Raise AttributeError, self) /\
    rrf find_inclusions sqrt_floor 10 "percentage" false self
    = (Raise AttributeError, self) /\
    limits sample_limits (ProbOne (1 # 10)) self = Raise AttributeError.
Proof.
  destruct (metrics_raise_on_empty_analysis find_inclusions sample_limits
              sqrt_floor (LoggerDict []) None 95 "number" true
              (ProbOne (1 # 10)) eq_refl) as (self & Hinit & Hwss & _ & Hlim).
  destruct (metrics_raise_on_empty_analysis find_inclusions sample_limits
              sqrt_floor (LoggerDict []) None 10 "percentage" false
              (ProbOne (1 # 10)) eq_refl) as (self' & Hinit' & _ & Hrrf & _).
  assert (self' = self) as -> by congruence.
  exists self. repeat split; assumption.
Defined.

(** [run8] has no final labels. *)
Lemma final_labels_absent_raises_witness :
  fst (inclusions_found find_inclusions sqrt_floor "fraction" true self8)
  = Raise TypeError /\
  fst (inclusions_found find_inclusions sqrt_floor "number" true
         (snd (inclusions_found find_inclusions sqrt_floor "fraction" true
                 self8)))
  = Raise TypeError /\
  fst (wss find_inclusions sqrt_floor 95 "percentage" true self8)
  = Raise TypeError.
Proof.
  destruct (@final_labels_absent_raises find_inclusions sqrt_floor self8
              "fraction" "number" 95 "percentage" nonempty_self8 eq_refl)
    as (H1 & _ & H2 & H3 & _).
  repeat split; assumption.
Defined.

(** Two probabilities and a delegate that returns one value; one
    probability and a delegate whose values are [2 ^ 63]. *)
Lemma limits_raises_index_or_overflow_witness :
  limits one_limit (ProbList [1 # 10; 2]%Q) self_q = Raise IndexError /\
  limits big_limit (ProbOne (1 # 10)%Q) self_q = Raise OverflowError.
Proof.
  split.
  - apply (proj1 (@limits_raises_index_or_overflow find_inclusions one_limit
                    sqrt_floor self_q (ProbList [1 # 10; 2]%Q)
                    (with_labels labels4 run_q) nonempty_self_q eq_refl)).
    exists 0%nat, [0]. repeat split; simpl; lia.
  - apply (proj1 (proj2 (@limits_raises_index_or_overflow find_inclusions
                           big_limit sqrt_floor self_q (ProbOne (1 # 10)%Q)
                           (with_labels labels4 run_q) nonempty_self_q
                           eq_refl))).
    + intros (q & l & _ & Hd & Hl). injection Hd as <-. simpl in Hl. lia.
    + exists 0%nat. split; [simpl; tauto|]. right.
      exists 0%nat. split; [simpl; lia|reflexivity].
Defined.

(** The runs of [self_ranked] have a seed of 2 items and order 4 items. *)
Lemma avg_time_to_discovery_bounds_witness :
  exists results,
    avg_time_to_discovery get_labeled_order get_last_proba_order self_ranked
    = Ok results /\
    forall idx v,
      dict_find Nat.eqb results idx = Some v ->
      v = 0%Q \/ (qn 2 <= v <= qn 4)%Q.
Proof.
  apply (@avg_time_to_discovery_bounds get_labeled_order get_last_proba_order
           self_ranked labels4 2%nat 4%nat eq_refl).
  - intros lg Hlg. simpl in Hlg.
    destruct Hlg as [<-|[<-|[]]]; (split; [|split]).
    + repeat constructor; simpl; intuition discriminate.
    + intros idx Hidx; simpl in Hidx |- *. intuition lia.
    + intros idx Hidx; simpl in Hidx |- *. intuition lia.
    + repeat constructor; simpl; intuition discriminate.
    + intros idx Hidx; simpl in Hidx |- *. intuition lia.
    + intros idx Hidx; simpl in Hidx |- *. intuition lia.
  - intros lg Hlg. simpl in Hlg.
    destruct Hlg as [<-|[<-|[]]]; vm_compute; split; lia.
Defined.

Lemma avg_time_to_discovery_index_error_witness :
  avg_time_to_discovery get_labeled_order get_last_proba_order self_out
  = Raise IndexError.
Proof.
  apply (proj1 (@avg_time_to_discovery_index_error get_labeled_order
                  get_last_proba_order self_out labels4 eq_refl)).
  exists (with_labels labels4 run_out), 7%nat.
  split; [left; reflexivity|].
  split; [left; simpl; tauto|simpl; lia].
Defined.

Lemma avg_time_to_discovery_relabelled_item_witness :
  avg_time_to_discovery get_labeled_order get_last_proba_order self_twice
  = Raise IndexError.
Proof.
  apply (@avg_time_to_discovery_relabelled_item get_labeled_order
           get_last_proba_order self_twice labels4 (KInt 0)
           (with_labels labels4 run_twice) 3%nat eq_refl eq_refl).
  - intros i Hi. simpl in Hi |- *. intuition lia.
  - intros i Hi. simpl in Hi. contradiction.
  - reflexivity.
  - vm_compute. lia.
Defined.

Lemma from_dir_never_empty_witness :
  from_dir (fun d => d) load_none "sim" = Ok None /\
  exists self,
    from_dir (fun d => d) load_one "sim" = Ok (Some (self, "sim"%string)) /\
    nonempty find_inclusions sqrt_floor self /\
    self_key self = Some "sim"%string.
Proof.
  split.
  - apply (proj1 (from_dir_never_empty find_inclusions sqrt_floor
                    (fun d => d) load_none "sim")).
    reflexivity.
  - destruct (from_dir (fun d => d) load_one "sim") as [[[self d]|]|ex] eqn:Hr;
      try (vm_compute in Hr; discriminate).
    destruct (proj1 (proj2 (from_dir_never_empty find_inclusions sqrt_floor
                              (fun d => d) load_one "sim")) self d Hr)
      as (-> & Hne & _ & Hkey & _).
    exists self. split; [reflexivity|]. split; [exact Hne|exact Hkey].
Defined.

(** At step 1 both runs of [self_ragged] contribute, at step 2 only the
    longer one. *)
Lemma aggregated_curve_is_mean_of_contributions_witness :
  exists a e iai ninit,
    _get_inc_found find_inclusions sqrt_floor self_ragged (Some labels5)
    = Ok (a, e, iai, ninit) /\
    length a = 5%nat /\
    nth_error a 1 = Some (np_mean [1; 0]) /\
    nth_error a 2 = Some (np_mean [0]).
Proof.
  destruct (@aggregated_curve_is_mean_of_contributions find_inclusions
              sqrt_floor self_ragged labels5 nonempty_self_ragged)
    as (a & e & iai & ninit & Hc & Hlen & Hk).
  exists a, e, iai, ninit. split; [exact Hc|]. split; [exact Hlen|].
  assert (length a = 5%nat) as Hfive by exact Hlen.
  split.
  - apply (Hk 1%nat). lia.
  - apply (Hk 2%nat). lia.
Defined.

(** The seeds of the runs of [self_mixed] have 1 and 2 items, and 1 and 2
    relevant items are found after them; the curve is normalised by
    [5 - 2] and by 2. *)
Lemma norms_come_from_last_run_witness :
  exists a e,
    _get_inc_found find_inclusions sqrt_floor self_mixed (Some labels5)
    = Ok (a, e, 2, 2) /\
    a = [0; 1 # 2; 0; 1; 2]%Q /\
    exists ye,
      fst (inclusions_found find_inclusions sqrt_floor "fraction" false
             self_mixed)
      = Ok ([Fin 0; Fin (1 # 3); Fin (2 # 3); Fin 1; Fin (4 # 3)],
            [Fin 0; Fin (1 # 4); Fin 0; Fin (1 # 2); Fin 1], ye).
Proof.
  destruct (@norms_come_from_last_run find_inclusions sqrt_floor self_mixed
              labels5 run_late [0; 0; 0; 1; 2] 2 2 nonempty_self_mixed
              eq_refl eq_refl eq_refl) as (a & e & Hc & Hcurve).
  exists a, e. split; [exact Hc|].
  vm_compute in Hc. injection Hc as <- <-.
  split; [reflexivity|].
  eexists. rewrite Hcurve. vm_compute. reflexivity.
Defined.

Lemma nonempty_self_f : nonempty find_inclusions sqrt_floor self_f.
Proof.
  apply (init_nonempty find_inclusions sqrt_floor
           (LoggerList [with_labels labels4 run_f]) None); reflexivity.
Qed.

(** The [KeyError] of [wss] for the final labels of a new object comes
    again at the second call. *)
Lemma metrics_repeatable_witness :
  let first := wss find_inclusions sqrt_floor 100 "number" true self_f in
  wss find_inclusions sqrt_floor 100 "number" true (snd first) = first /\
  fst first = Raise KeyError.
Proof.
  split; [|reflexivity].
  exact (proj1 (@metrics_repeatable find_inclusions sqrt_floor self_f 100
                  "number" true nonempty_self_f)).
Defined.

Lemma unknown_format_is_default_witness :
  inclusions_found find_inclusions sqrt_floor "fractions" false self8
  = inclusions_found find_inclusions sqrt_floor "fraction" false self8 /\
  wss find_inclusions sqrt_floor 95 "numbers" false self8
  = wss find_inclusions sqrt_floor 95 "percentage" false self8.
Proof.
  destruct (unknown_format_is_default find_inclusions sqrt_floor self8
              "fractions" "numbers" 95 false) as (Hinc & Hmetric).
  split.
  - apply Hinc; discriminate.
  - apply Hmetric. discriminate.
Defined.
